(** * Token authentication and session gating of the webhook server

    A shallow embedding of [helperToken/token.mjs], [auth/cookie.mjs],
    [auth/password.mjs], [auth/jwt.mjs] and the password exchange of
    [handlers/post.mjs], followed by the properties the specification
    states about them.  The embedding goes on with what surrounds them:
    [services/instance.mjs], [handlers/get.mjs], [handlers/uploadUrl.mjs],
    [auth/cognito.mjs], [index.mjs] and parts of [utils/s3.mjs] and
    [utils/html.mjs], with further properties of the program at the end.

    Conventions of the embedding.
    - A JavaScript string is modelled by the sequence of its UTF-8 bytes
      ([string]); a [Buffer] is a [list byte].  [Buffer.from(s, "utf8")] and
      [buf.toString("utf8")] are therefore the two list/string conversions.
    - A Number is an integer ([Z]); all arithmetic is exact.  This is the
      behaviour of the runtime for the safe integers (magnitude below 2^53),
      which covers every timestamp, time-to-live and counter of the program.
    - A call that may throw returns a [Completion]; [try { } catch { }] is
      [catch]. *)

From stdpp Require Import base option list gmap strings.
From Stdlib Require Import ZArith Strings.String Strings.Ascii Strings.Byte List Bool Lia.
From Stdlib Require DecimalFacts DecimalN.
Import ListNotations.
Local Open Scope string_scope.
Local Open Scope list_scope.
Local Open Scope Z_scope.

(** ** Completions: normal return or a thrown exception *)

Inductive JsError : Type :=
  | TypeError
  | SyntaxError
  | RangeError
  | URIError
  | Error.

Inductive Completion (A : Type) : Type :=
  | Return (a : A)
  | Throw (e : JsError).
Arguments Return {A} a.
Arguments Throw {A} e.

Definition bind {A B : Type} (c : Completion A) (k : A -> Completion B) : Completion B :=
  match c with
  | Return a => k a
  | Throw e => Throw e
  end.

Definition catch {A : Type} (c : Completion A) (handler : JsError -> A) : A :=
  match c with
  | Return a => a
  | Throw e => handler e
  end.

Notation "'let!' x ':=' c 'in' k" := (bind c (fun x => k))
  (at level 10, x name, c at level 100, k at level 200).

(** ** Buffers *)

Definition Buffer : Type := list byte.

Definition Z_of_byte (b : byte) : Z := Z.of_N (Byte.to_N b).

Definition byte_of_Z (z : Z) : byte :=
  match Byte.of_N (Z.to_N (z mod 256)) with
  | Some b => b
  | None => x00
  end.

(** [n >>> 0] on a Number that is an integer. *)
Definition ToUint32 (n : Z) : Z := n mod 2 ^ 32.

(** [u32]: four bytes, big endian, of [n >>> 0]. *)
Definition u32 (n : Z) : Buffer :=
  let m := ToUint32 n in
  [byte_of_Z (m / 2 ^ 24); byte_of_Z (m / 2 ^ 16); byte_of_Z (m / 2 ^ 8); byte_of_Z m].

(** [buf.subarray(start, end)] for [0 <= start <= end]. *)
Definition subarray (b : Buffer) (start stop : nat) : Buffer :=
  firstn (stop - start) (skipn start b).

(** [buf.readUInt8(off)]; a [RangeError] outside the buffer. *)
Definition readUInt8 (b : Buffer) (off : nat) : Completion Z :=
  match nth_error b off with
  | Some x => Return (Z_of_byte x)
  | None => Throw RangeError
  end.

(** [buf.readUInt32BE(off)]; a [RangeError] outside the buffer. *)
Definition readUInt32BE (b : Buffer) (off : nat) : Completion Z :=
  match skipn off b with
  | b0 :: b1 :: b2 :: b3 :: _ =>
      Return (Z_of_byte b0 * 2 ^ 24 + Z_of_byte b1 * 2 ^ 16 + Z_of_byte b2 * 2 ^ 8 + Z_of_byte b3)
  | _ => Throw RangeError
  end.

(** [Buffer.from(s, "utf8")] and [buf.toString("utf8")]. *)
Definition Buffer_from_utf8 (s : string) : Buffer := list_byte_of_string s.
Definition Buffer_toString_utf8 (b : Buffer) : string := string_of_list_byte b.

(** ** Base64 as [Buffer] implements it *)

Module Base64.

Definition alphabet : list ascii :=
  list_ascii_of_string "ABCDEFGHIJKLMNOPQRSTUVWXYZabcdefghijklmnopqrstuvwxyz0123456789+/".

Definition char_of_sextet (v : Z) : ascii := nth (Z.to_nat v) alphabet "A"%char.

(** The four sextets of a group of three bytes. *)
Definition sextets3 (a b c : Z) : list Z :=
  [a / 4; (a mod 4) * 16 + b / 16; (b mod 16) * 4 + c / 64; c mod 64].

(** [buf.toString("base64")]: the standard alphabet, padded with [=]. *)
Fixpoint encode (bs : Buffer) : string :=
  match bs with
  | [] => ""
  | [a] =>
      match sextets3 (Z_of_byte a) 0 0 with
      | [s0; s1; _; _] =>
          String (char_of_sextet s0) (String (char_of_sextet s1) "==")
      | _ => ""
      end
  | [a; b] =>
      match sextets3 (Z_of_byte a) (Z_of_byte b) 0 with
      | [s0; s1; s2; _] =>
          String (char_of_sextet s0) (String (char_of_sextet s1)
            (String (char_of_sextet s2) "="))
      | _ => ""
      end
  | a :: b :: c :: rest =>
      match sextets3 (Z_of_byte a) (Z_of_byte b) (Z_of_byte c) with
      | [s0; s1; s2; s3] =>
          String (char_of_sextet s0) (String (char_of_sextet s1)
            (String (char_of_sextet s2) (String (char_of_sextet s3) (encode rest))))
      | _ => ""
      end
  end.

(** The decoder's table: both the standard and the URL-safe alphabet. *)
Definition unbase64 (c : ascii) : option Z :=
  let n := Z.of_N (N_of_ascii c) in
  if (65 <=? n) && (n <=? 90) then Some (n - 65)
  else if (97 <=? n) && (n <=? 122) then Some (n - 71)
  else if (48 <=? n) && (n <=? 57) then Some (n + 4)
  else if (n =? 43) || (n =? 45) then Some 62
  else if (n =? 47) || (n =? 95) then Some 63
  else None.

(** The sextets the decoder reads: characters outside the table are
    skipped, and the first [=] ends the input. *)
Fixpoint sextets (s : string) : list Z :=
  match s with
  | EmptyString => []
  | String c s' =>
      if Ascii.eqb c "="%char then []
      else match unbase64 c with
           | Some v => v :: sextets s'
           | None => sextets s'
           end
  end.

Fixpoint bytes_of_sextets (l : list Z) : Buffer :=
  match l with
  | s0 :: s1 :: s2 :: s3 :: rest =>
      byte_of_Z (s0 * 4 + s1 / 16)
        :: byte_of_Z ((s1 mod 16) * 16 + s2 / 4)
        :: byte_of_Z ((s2 mod 4) * 64 + s3)
        :: bytes_of_sextets rest
  | [s0; s1; s2] =>
      [byte_of_Z (s0 * 4 + s1 / 16); byte_of_Z ((s1 mod 16) * 16 + s2 / 4)]
  | [s0; s1] => [byte_of_Z (s0 * 4 + s1 / 16)]
  | _ => []
  end.

(** [Buffer.from(s, "base64")]: never throws. *)
Definition decode (s : string) : Buffer := bytes_of_sextets (sextets s).

End Base64.

(** ** SHA-256 and HMAC-SHA256 ([crypto.createHmac("sha256", key)]) *)

Module Sha256.

Definition w32 : Z := 2 ^ 32.
Definition add32 (a b : Z) : Z := (a + b) mod w32.
Definition rotr (n x : Z) : Z := Z.lor (Z.shiftr x n) (Z.shiftl x (32 - n) mod w32).
Definition not32 (x : Z) : Z := Z.lxor x (w32 - 1).

Definition Ch (x y z : Z) : Z := Z.lxor (Z.land x y) (Z.land (not32 x) z).
Definition Maj (x y z : Z) : Z := Z.lxor (Z.lxor (Z.land x y) (Z.land x z)) (Z.land y z).
Definition Sigma0 (x : Z) : Z := Z.lxor (Z.lxor (rotr 2 x) (rotr 13 x)) (rotr 22 x).
Definition Sigma1 (x : Z) : Z := Z.lxor (Z.lxor (rotr 6 x) (rotr 11 x)) (rotr 25 x).
Definition sigma0 (x : Z) : Z := Z.lxor (Z.lxor (rotr 7 x) (rotr 18 x)) (Z.shiftr x 3).
Definition sigma1 (x : Z) : Z := Z.lxor (Z.lxor (rotr 17 x) (rotr 19 x)) (Z.shiftr x 10).

(** The constants of the algorithm are the first 32 bits of the fractional
    parts of the cube roots (round constants) and of the square roots
    (initial state) of the first primes. *)
Definition is_prime (n : Z) : bool :=
  (1 <? n) && forallb (fun d => negb (n mod d =? 0)) (map Z.of_nat (seq 2 (Z.to_nat (Z.sqrt n) - 1))).

Definition primes (count : nat) (below : nat) : list Z :=
  firstn count (filter is_prime (map Z.of_nat (seq 2 below))).

(** The integer part of the cube root of [n], between [lo] and [hi]. *)
Fixpoint cube_root (fuel : nat) (n lo hi : Z) : Z :=
  match fuel with
  | O => lo
  | S fuel' =>
      if hi <=? lo then lo
      else
        let mid := (lo + hi + 1) / 2 in
        if mid * mid * mid <=? n then cube_root fuel' n mid hi else cube_root fuel' n lo (mid - 1)
  end.

Definition K : list Z :=
  Eval vm_compute in map (fun p => cube_root 64 (p * 2 ^ 96) 0 (2 ^ 36) mod w32) (primes 64 320).

Record state : Type := State {
  ha : Z; hb : Z; hc : Z; hd : Z; he : Z; hf : Z; hg : Z; hh : Z
}.

Definition init : state :=
  Eval vm_compute in
    match map (fun p => Z.sqrt (p * 2 ^ 64) mod w32) (primes 8 20) with
    | [a; b; c; d; e; f; g; h] => State a b c d e f g h
    | _ => State 0 0 0 0 0 0 0 0
    end.

(** Big-endian 32-bit words of a block. *)
Fixpoint words (bs : Buffer) : list Z :=
  match bs with
  | b0 :: b1 :: b2 :: b3 :: rest =>
      (Z_of_byte b0 * 2 ^ 24 + Z_of_byte b1 * 2 ^ 16 + Z_of_byte b2 * 2 ^ 8 + Z_of_byte b3)
        :: words rest
  | _ => []
  end.

(** The message schedule, latest word first: [n] more words are added to
    [w], whose head is the word of index [t - 1]. *)
Fixpoint schedule (n : nat) (w : list Z) : list Z :=
  match n with
  | O => w
  | S n' =>
      let x := add32 (add32 (sigma1 (nth 1 w 0)) (nth 6 w 0))
                     (add32 (sigma0 (nth 14 w 0)) (nth 15 w 0)) in
      schedule n' (x :: w)
  end.

Definition round (s : state) (kw : Z * Z) : state :=
  let '(k, w) := kw in
  let t1 := add32 (add32 (add32 (hh s) (Sigma1 (he s))) (add32 (Ch (he s) (hf s) (hg s)) k)) w in
  let t2 := add32 (Sigma0 (ha s)) (Maj (ha s) (hb s) (hc s)) in
  State (add32 t1 t2) (ha s) (hb s) (hc s) (add32 (hd s) t1) (he s) (hf s) (hg s).

Definition compress (s : state) (block : Buffer) : state :=
  let w := rev (schedule 48 (rev (words block))) in
  let r := fold_left round (combine K w) s in
  State (add32 (ha s) (ha r)) (add32 (hb s) (hb r)) (add32 (hc s) (hc r)) (add32 (hd s) (hd r))
        (add32 (he s) (he r)) (add32 (hf s) (hf r)) (add32 (hg s) (hg r)) (add32 (hh s) (hh r)).

(** [0x80], zeros up to 56 modulo 64, then the bit length on 8 bytes. *)
Definition pad (msg : Buffer) : Buffer :=
  let len := Z.of_nat (length msg) in
  let zeros := Z.to_nat ((55 - len) mod 64) in
  msg ++ [x80] ++ repeat x00 zeros ++ u32 (len * 8 / 2 ^ 32) ++ u32 (len * 8).

Fixpoint blocks (n : nat) (s : state) (bs : Buffer) : state :=
  match n with
  | O => s
  | S n' => blocks n' (compress s (firstn 64 bs)) (skipn 64 bs)
  end.

Definition digest_of (s : state) : Buffer :=
  u32 (ha s) ++ u32 (hb s) ++ u32 (hc s) ++ u32 (hd s)
    ++ u32 (he s) ++ u32 (hf s) ++ u32 (hg s) ++ u32 (hh s).

Definition sha256 (msg : Buffer) : Buffer :=
  let p := pad msg in
  digest_of (blocks (length p / 64) init p).

Definition xor_pad (c : Z) (k : Buffer) : Buffer :=
  map (fun b => byte_of_Z (Z.lxor (Z_of_byte b) c)) k.

(** [createHmac("sha256", key).update(msg).digest()]. *)
Definition hmac (key msg : Buffer) : Buffer :=
  let k0 := if (64 <? length key)%nat then sha256 key else key in
  let k := k0 ++ repeat x00 (64 - length k0) in
  sha256 (xor_pad 0x5c k ++ sha256 (xor_pad 0x36 k ++ msg)).

End Sha256.

Definition hex_digit (v : Z) : ascii := nth (Z.to_nat v) (list_ascii_of_string "0123456789abcdef") "0"%char.

(** [buf.toString("hex")], used to state test vectors. *)
Fixpoint Buffer_toString_hex (b : Buffer) : string :=
  match b with
  | [] => ""
  | x :: rest =>
      String (hex_digit (Z_of_byte x / 16)) (String (hex_digit (Z_of_byte x mod 16)) (Buffer_toString_hex rest))
  end.

(** ** Strings as character lists *)

Definition chars (s : string) : list ascii := list_ascii_of_string s.
Definition str (l : list ascii) : string := string_of_list_ascii l.
Definition code (c : ascii) : Z := Z.of_N (N_of_ascii c).
Definition char_of_code (z : Z) : ascii := ascii_of_N (Z.to_N (z mod 256)).
Definition dquote : ascii := "034"%char.
Definition backslash : ascii := "092"%char.

(** [s.split(sep)] for a one-character separator. *)
Fixpoint split_on (sep : ascii) (s : list ascii) : list (list ascii) :=
  match s with
  | [] => [[]]
  | c :: rest =>
      if Ascii.eqb c sep then [] :: split_on sep rest
      else match split_on sep rest with
           | piece :: pieces => (c :: piece) :: pieces
           | [] => [[c]]
           end
  end.

Definition String_split (sep : ascii) (s : string) : list string :=
  map str (split_on sep (chars s)).

(** ** JSON values, [JSON.stringify] and [JSON.parse] *)

Local Set Warnings "-register-all".

(** The values [JSON.parse] produces.  An object is the list of its
    properties in insertion order, with distinct keys; numbers are the
    integers (a number literal with a fraction or an exponent is outside the
    modelled fragment). *)
Inductive json : Type :=
  | JNull
  | JBool (b : bool)
  | JNum (n : Z)
  | JStr (s : string)
  | JArr (items : list json)
  | JObj (props : list (string * json)).

(** A JavaScript value as the program handles it: [None] is [undefined]. *)
Definition JsVal : Type := option json.

Fixpoint obj_get (props : list (string * json)) (k : string) : JsVal :=
  match props with
  | [] => None
  | (k', v) :: rest => if String.eqb k' k then Some v else obj_get rest k
  end.

(** [obj[k] = v]: an existing property keeps its position. *)
Fixpoint obj_set (props : list (string * json)) (k : string) (v : json) : list (string * json) :=
  match props with
  | [] => [(k, v)]
  | (k', v') :: rest =>
      if String.eqb k' k then (k, v) :: rest else (k', v') :: obj_set rest k v
  end.

(** [v.k] on a value that is neither [null] nor [undefined]: only objects
    carry the properties the program reads. *)
Definition get_prop (v : json) (k : string) : JsVal :=
  match v with
  | JObj props => obj_get props k
  | _ => None
  end.

(** [v?.k]. *)
Definition get_prop_opt (v : JsVal) (k : string) : JsVal :=
  match v with
  | None | Some JNull => None
  | Some v' => get_prop v' k
  end.

(** [v.k] where [v] may be [null] or [undefined]: a [TypeError] then. *)
Definition get_prop_strict (v : JsVal) (k : string) : Completion JsVal :=
  match v with
  | None | Some JNull => Throw TypeError
  | Some v' => Return (get_prop v' k)
  end.

(** Truthiness. *)
Definition truthy (v : JsVal) : bool :=
  match v with
  | None | Some JNull => false
  | Some (JBool b) => b
  | Some (JNum n) => negb (n =? 0)
  | Some (JStr s) => negb (String.eqb s "")
  | Some (JArr _) | Some (JObj _) => true
  end.

(** [typeof v === "number" && x < v] and [typeof v === "number" && v <= x]. *)
Definition number_lt (x : Z) (v : JsVal) : bool :=
  match v with
  | Some (JNum n) => x <? n
  | _ => false
  end.

Definition number_le (v : JsVal) (x : Z) : bool :=
  match v with
  | Some (JNum n) => n <=? x
  | _ => false
  end.

(** [v === s] for a string [s]. *)
Definition strict_eq_string (v : JsVal) (s : string) : bool :=
  match v with
  | Some (JStr s') => String.eqb s' s
  | _ => false
  end.

Module Json.

Definition digit_char (d : Z) : ascii := char_of_code (48 + d).

Fixpoint digits_of_uint (d : Decimal.uint) : list ascii :=
  match d with
  | Decimal.Nil => []
  | Decimal.D0 d' => "0"%char :: digits_of_uint d'
  | Decimal.D1 d' => "1"%char :: digits_of_uint d'
  | Decimal.D2 d' => "2"%char :: digits_of_uint d'
  | Decimal.D3 d' => "3"%char :: digits_of_uint d'
  | Decimal.D4 d' => "4"%char :: digits_of_uint d'
  | Decimal.D5 d' => "5"%char :: digits_of_uint d'
  | Decimal.D6 d' => "6"%char :: digits_of_uint d'
  | Decimal.D7 d' => "7"%char :: digits_of_uint d'
  | Decimal.D8 d' => "8"%char :: digits_of_uint d'
  | Decimal.D9 d' => "9"%char :: digits_of_uint d'
  end.

Definition digit_cons (c : ascii) : option (Decimal.uint -> Decimal.uint) :=
  match code c with
  | 48 => Some Decimal.D0 | 49 => Some Decimal.D1 | 50 => Some Decimal.D2
  | 51 => Some Decimal.D3 | 52 => Some Decimal.D4 | 53 => Some Decimal.D5
  | 54 => Some Decimal.D6 | 55 => Some Decimal.D7 | 56 => Some Decimal.D8
  | 57 => Some Decimal.D9
  | _ => None
  end.

(** The longest prefix of decimal digits, and what follows it. *)
Fixpoint read_uint (s : list ascii) : Decimal.uint * list ascii :=
  match s with
  | [] => (Decimal.Nil, [])
  | c :: rest =>
      match digit_cons c with
      | Some D => let '(d, rest') := read_uint rest in (D d, rest')
      | None => (Decimal.Nil, s)
      end
  end.

(** [String(n)] for an integer: decimal digits, [-] first when negative. *)
Definition Number_toString (n : Z) : list ascii :=
  if n <? 0 then "-"%char :: digits_of_uint (N.to_uint (Z.to_N (- n)))
  else digits_of_uint (N.to_uint (Z.to_N n)).

Definition hex4 (c : Z) : list ascii :=
  [hex_digit (c / 4096 mod 16); hex_digit (c / 256 mod 16); hex_digit (c / 16 mod 16); hex_digit (c mod 16)].

(** One character of a string literal as [JSON.stringify] writes it. *)
Definition escape_char (c : ascii) : list ascii :=
  let n := code c in
  if n =? 34 then [backslash; dquote]
  else if n =? 92 then [backslash; backslash]
  else if n =? 8 then chars "\b"
  else if n =? 12 then chars "\f"
  else if n =? 10 then chars "\n"
  else if n =? 13 then chars "\r"
  else if n =? 9 then chars "\t"
  else if n <? 32 then chars "\u" ++ hex4 n
  else [c].

Definition quote (s : string) : list ascii :=
  dquote :: flat_map escape_char (chars s) ++ [dquote].

Fixpoint join (sep : list ascii) (l : list (list ascii)) : list ascii :=
  match l with
  | [] => []
  | [x] => x
  | x :: rest => x ++ sep ++ join sep rest
  end.

Fixpoint stringify_chars (v : json) : list ascii :=
  match v with
  | JNull => chars "null"
  | JBool true => chars "true"
  | JBool false => chars "false"
  | JNum n => Number_toString n
  | JStr s => quote s
  | JArr items => "["%char :: join [","%char] (map stringify_chars items) ++ ["]"%char]
  | JObj props =>
      "{"%char
        :: join [","%char] (map (fun kv => quote (fst kv) ++ ":"%char :: stringify_chars (snd kv)) props)
        ++ ["}"%char]
  end.

(** [JSON.stringify(v)]. *)
Definition stringify (v : json) : string := str (stringify_chars v).

Fixpoint distinct (keys : list string) : bool :=
  match keys with
  | [] => true
  | k :: rest => negb (existsb (String.eqb k) rest) && distinct rest
  end.

(** The objects of a value, at every depth, have distinct keys. *)
Fixpoint well_formed (v : json) : bool :=
  match v with
  | JArr items => forallb well_formed items
  | JObj props => distinct (map fst props) && forallb (fun kv => well_formed (snd kv)) props
  | _ => true
  end.

End Json.

Module JsonParse.

Definition is_ws (c : ascii) : bool :=
  let n := code c in (n =? 32) || (n =? 9) || (n =? 10) || (n =? 13).

Fixpoint skip_ws (s : list ascii) : list ascii :=
  match s with
  | c :: rest => if is_ws c then skip_ws rest else s
  | [] => []
  end.

Definition hex_val (c : ascii) : option Z :=
  let n := code c in
  if (48 <=? n) && (n <=? 57) then Some (n - 48)
  else if (97 <=? n) && (n <=? 102) then Some (n - 87)
  else if (65 <=? n) && (n <=? 70) then Some (n - 55)
  else None.

Definition hex4_val (a b c d : ascii) : option Z :=
  match hex_val a, hex_val b, hex_val c, hex_val d with
  | Some x, Some y, Some z, Some w => Some (x * 4096 + y * 256 + z * 16 + w)
  | _, _, _, _ => None
  end.

(** The UTF-8 bytes of a code point (a lone surrogate keeps its three-byte
    form, so that it stays different from every other string). *)
Definition utf8 (cp : Z) : list ascii :=
  if cp <? 128 then [char_of_code cp]
  else if cp <? 2048 then [char_of_code (192 + cp / 64); char_of_code (128 + cp mod 64)]
  else if cp <? 65536 then
    [char_of_code (224 + cp / 4096); char_of_code (128 + cp / 64 mod 64); char_of_code (128 + cp mod 64)]
  else
    [char_of_code (240 + cp / 262144); char_of_code (128 + cp / 4096 mod 64);
     char_of_code (128 + cp / 64 mod 64); char_of_code (128 + cp mod 64)].

Definition is_high_surrogate (u : Z) : bool := (55296 <=? u) && (u <? 56320).
Definition is_low_surrogate (u : Z) : bool := (56320 <=? u) && (u <? 57344).

(** The low half of a surrogate pair, when the input continues with one. *)
Definition read_low_surrogate (s : list ascii) : option (Z * list ascii) :=
  match s with
  | b :: u :: h1 :: h2 :: h3 :: h4 :: rest =>
      if Ascii.eqb b backslash && Ascii.eqb u "u"%char then
        match hex4_val h1 h2 h3 h4 with
        | Some lo => if is_low_surrogate lo then Some (lo, rest) else None
        | None => None
        end
      else None
  | _ => None
  end.

Definition simple_escape (c : ascii) : option ascii :=
  let n := code c in
  if n =? 34 then Some dquote
  else if n =? 92 then Some backslash
  else if n =? 47 then Some "/"%char
  else if n =? 98 then Some (char_of_code 8)
  else if n =? 102 then Some (char_of_code 12)
  else if n =? 110 then Some (char_of_code 10)
  else if n =? 114 then Some (char_of_code 13)
  else if n =? 116 then Some (char_of_code 9)
  else None.

(** The body of a string literal, after its opening quote: the decoded
    characters and what follows the closing quote. *)
Fixpoint string_body (fuel : nat) (s : list ascii) : option (list ascii * list ascii) :=
  match fuel with
  | O => None
  | S fuel' =>
      match s with
      | [] => None
      | c :: rest =>
          if Ascii.eqb c dquote then Some ([], rest)
          else if Ascii.eqb c backslash then
            match rest with
            | [] => None
            | e :: rest1 =>
                if Ascii.eqb e "u"%char then
                  match rest1 with
                  | h1 :: h2 :: h3 :: h4 :: rest2 =>
                      match hex4_val h1 h2 h3 h4 with
                      | None => None
                      | Some u =>
                          let '(cp, rest3) :=
                            if is_high_surrogate u then
                              match read_low_surrogate rest2 with
                              | Some (lo, r) => (65536 + (u - 55296) * 1024 + (lo - 56320), r)
                              | None => (u, rest2)
                              end
                            else (u, rest2) in
                          match string_body fuel' rest3 with
                          | Some (body, after) => Some (utf8 cp ++ body, after)
                          | None => None
                          end
                      end
                  | _ => None
                  end
                else
                  match simple_escape e with
                  | None => None
                  | Some x =>
                      match string_body fuel' rest1 with
                      | Some (body, after) => Some (x :: body, after)
                      | None => None
                      end
                  end
            end
          else if code c <? 32 then None
          else
            match string_body fuel' rest with
            | Some (body, after) => Some (c :: body, after)
            | None => None
            end
      end
  end.

Definition is_digit (c : ascii) : bool := (48 <=? code c) && (code c <=? 57).

(** A number literal.  JSON writes an integer as [0] or as digits that do
    not start with [0], with an optional [-]; a literal that goes on with a
    fraction or an exponent is outside the modelled fragment. *)
Definition number (s : list ascii) : option (Z * list ascii) :=
  let '(neg, s1) :=
    match s with
    | c :: rest => if Ascii.eqb c "-"%char then (true, rest) else (false, s)
    | [] => (false, s)
    end in
  let '(d, rest) := Json.read_uint s1 in
  if negb (if Decimal.uint_eq_dec d (Decimal.unorm d) then true else false) then None
  else
    match rest with
    | c :: _ =>
        if Ascii.eqb c "."%char || Ascii.eqb c "e"%char || Ascii.eqb c "E"%char then None
        else Some (if neg then - Z.of_N (N.of_uint d) else Z.of_N (N.of_uint d), rest)
    | [] => Some (if neg then - Z.of_N (N.of_uint d) else Z.of_N (N.of_uint d), rest)
    end.

Fixpoint expect (word : list ascii) (s : list ascii) : option (list ascii) :=
  match word, s with
  | [], _ => Some s
  | w :: word', c :: s' => if Ascii.eqb w c then expect word' s' else None
  | _ :: _, [] => None
  end.

Fixpoint value (fuel : nat) (s : list ascii) : option (json * list ascii) :=
  match fuel with
  | O => None
  | S fuel' =>
      match skip_ws s with
      | [] => None
      | c :: rest =>
          if Ascii.eqb c "n"%char then option_map (pair JNull) (expect (chars "ull") rest)
          else if Ascii.eqb c "t"%char then option_map (pair (JBool true)) (expect (chars "rue") rest)
          else if Ascii.eqb c "f"%char then option_map (pair (JBool false)) (expect (chars "alse") rest)
          else if Ascii.eqb c dquote then
            match string_body (S (length rest)) rest with
            | Some (body, after) => Some (JStr (str body), after)
            | None => None
            end
          else if Ascii.eqb c "["%char then
            match skip_ws rest with
            | c' :: rest' =>
                if Ascii.eqb c' "]"%char then Some (JArr [], rest')
                else match elements fuel' rest with
                     | Some (items, after) => Some (JArr items, after)
                     | None => None
                     end
            | [] => None
            end
          else if Ascii.eqb c "{"%char then
            match skip_ws rest with
            | c' :: rest' =>
                if Ascii.eqb c' "}"%char then Some (JObj [], rest')
                else match members fuel' rest with
                     | Some (props, after) =>
                         Some (JObj (fold_left (fun acc kv => obj_set acc (fst kv) (snd kv)) props []), after)
                     | None => None
                     end
            | [] => None
            end
          else
            match number (c :: rest) with
            | Some (n, after) => Some (JNum n, after)
            | None => None
            end
      end
  end
with elements (fuel : nat) (s : list ascii) : option (list json * list ascii) :=
  match fuel with
  | O => None
  | S fuel' =>
      match value fuel' s with
      | None => None
      | Some (v, after) =>
          match skip_ws after with
          | c :: rest =>
              if Ascii.eqb c ","%char then
                match elements fuel' rest with
                | Some (vs, after') => Some (v :: vs, after')
                | None => None
                end
              else if Ascii.eqb c "]"%char then Some ([v], rest)
              else None
          | [] => None
          end
      end
  end
with members (fuel : nat) (s : list ascii) : option (list (string * json) * list ascii) :=
  match fuel with
  | O => None
  | S fuel' =>
      match skip_ws s with
      | q :: rest =>
          if Ascii.eqb q dquote then
            match string_body (S (length rest)) rest with
            | None => None
            | Some (key, after_key) =>
                match skip_ws after_key with
                | colon :: rest1 =>
                    if Ascii.eqb colon ":"%char then
                      match value fuel' rest1 with
                      | None => None
                      | Some (v, after) =>
                          match skip_ws after with
                          | c :: rest2 =>
                              if Ascii.eqb c ","%char then
                                match members fuel' rest2 with
                                | Some (kvs, after') => Some ((str key, v) :: kvs, after')
                                | None => None
                                end
                              else if Ascii.eqb c "}"%char then Some ([(str key, v)], rest2)
                              else None
                          | [] => None
                          end
                      end
                    else None
                | [] => None
                end
            end
          else None
      | [] => None
      end
  end.

(** [JSON.parse(s)]: a [SyntaxError] unless [s] is one value, possibly
    surrounded by white space. *)
Definition parse (s : string) : Completion json :=
  match value (S (length (chars s))) (chars s) with
  | Some (v, rest) =>
      match skip_ws rest with
      | [] => Return v
      | _ :: _ => Throw SyntaxError
      end
  | None => Throw SyntaxError
  end.

End JsonParse.

(** ** [helperToken/token.mjs] *)

(** [a.equals(b)] on buffers. *)
Fixpoint Buffer_equals (a b : Buffer) : bool :=
  match a, b with
  | [], [] => true
  | x :: a', y :: b' => Byte.eqb x y && Buffer_equals a' b'
  | _, _ => false
  end.

(** [crypto.timingSafeEqual(a, b)]: a [RangeError] when the lengths differ. *)
Definition timingSafeEqual (a b : Buffer) : Completion bool :=
  if (length a =? length b)%nat then Return (Buffer_equals a b) else Throw RangeError.

Inductive CompactResult : Type :=
  | CompactOk (iat : option Z) (exp : option Z)
  | CompactFail (reason : string).

Inductive JwtResult : Type :=
  | JwtOk (payload : json)
  | JwtFail (reason : string).

Module Token.

(** [.replace(/\+/g, "-").replace(/\//g, "_")] *)
Definition to_url_char (c : ascii) : ascii :=
  if Ascii.eqb c "+"%char then "-"%char
  else if Ascii.eqb c "/"%char then "_"%char
  else c.

(** [.replace(/-/g, "+").replace(/_/g, "/")] *)
Definition from_url_char (c : ascii) : ascii :=
  if Ascii.eqb c "-"%char then "+"%char
  else if Ascii.eqb c "_"%char then "/"%char
  else c.

(** [.replace(/=+$/, "")] *)
Fixpoint strip_trailing_eq (s : list ascii) : list ascii :=
  match s with
  | [] => []
  | c :: rest =>
      match strip_trailing_eq rest with
      | [] => if Ascii.eqb c "="%char then [] else [c]
      | rest' => c :: rest'
      end
  end.

Definition b64url (buf : Buffer) : string :=
  str (strip_trailing_eq (map to_url_char (chars (Base64.encode buf)))).

Definition fromB64url (s : string) : Buffer :=
  let s1 := map from_url_char (chars s) in
  let pad := if (length s1 mod 4 =? 0)%nat then 0%nat else (4 - length s1 mod 4)%nat in
  Base64.decode (str (s1 ++ repeat "="%char pad)).

(** [toBuf] applied to a string, or to [null]/[undefined] ([None]). *)
Definition toBuf (x : option string) : Completion Buffer :=
  match x with
  | Some s => Return (Buffer_from_utf8 s)
  | None => Throw TypeError
  end.

Definition missing_or_empty (x : option string) : bool :=
  match x with
  | None => true
  | Some s => String.eqb s ""
  end.

Definition deriveSigningKey (clientSecret instanceAuthKey : option string) : Completion Buffer :=
  if missing_or_empty clientSecret then Throw TypeError
  else if missing_or_empty instanceAuthKey then Throw TypeError
  else
    let! cs := toBuf clientSecret in
    let! ak := toBuf instanceAuthKey in
    Return (Sha256.hmac cs ak).

Definition deriveCookieSigningKey (clientSecret instanceId : option string) : Completion Buffer :=
  if missing_or_empty clientSecret then Throw TypeError
  else if missing_or_empty instanceId then Throw TypeError
  else
    let! cs := toBuf clientSecret in
    Return (Sha256.hmac cs
              (Buffer_from_utf8 "JWT_COOKIE|" ++ Buffer_from_utf8 (default "" instanceId))).

(** [makeCompactToken]; [nonce] is the result of [randomBytes(8)]. *)
Definition makeCompactToken (signingKey : Buffer) (instanceId : string) (tokenVersion iat ttlSeconds : Z)
    (nonce : Buffer) : string :=
  let ver := x01 in
  let hasExp := 0 <? ttlSeconds in
  let flags := if hasExp then x01 else x00 in
  let expDelta := if hasExp then ttlSeconds else 0 in
  let macInput :=
    [ver; flags] ++ u32 iat ++ u32 expDelta ++ nonce
      ++ Buffer_from_utf8 instanceId ++ u32 (ToUint32 tokenVersion) in
  let fullTag := Sha256.hmac signingKey macInput in
  let sig := subarray fullTag 0 16 in
  let wire := [ver; flags] ++ u32 iat ++ u32 expDelta ++ nonce ++ sig in
  b64url wire.

Definition verifyCompactToken_body (token : string) (signingKey : Buffer) (instanceId : string)
    (tokenVersion nowSec : Z) : Completion CompactResult :=
  let wire := fromB64url token in
  if negb (length wire =? 1 + 1 + 4 + 4 + 8 + 16)%nat then Return (CompactFail "len")
  else
    let! ver := readUInt8 wire 0 in
    let! flags := readUInt8 wire 1 in
    let! iat := readUInt32BE wire 2 in
    let! expDelta := readUInt32BE wire 6 in
    let nonce := subarray wire 10 18 in
    let sig := subarray wire 18 34 in
    if negb (ver =? 1) then Return (CompactFail "ver")
    else
      let macInput :=
        [byte_of_Z ver; byte_of_Z flags] ++ subarray wire 2 10 ++ nonce
          ++ Buffer_from_utf8 instanceId ++ u32 (ToUint32 tokenVersion) in
      let fullTag := Sha256.hmac signingKey macInput in
      let expected := subarray fullTag 0 16 in
      if negb (Buffer_equals expected sig) then Return (CompactFail "mac")
      else if negb (Z.land flags 1 =? 0) then
        let exp := iat + expDelta in
        if expDelta =? 3600 then Return (CompactOk None (Some exp))
        else if exp <? nowSec then Return (CompactFail "exp")
        else Return (CompactOk (Some iat) (Some exp))
      else Return (CompactOk (Some iat) None).

Definition verifyCompactToken (token : string) (signingKey : Buffer) (instanceId : string)
    (tokenVersion nowSec : Z) : CompactResult :=
  catch (verifyCompactToken_body token signingKey instanceId tokenVersion nowSec)
        (fun _ => CompactFail "parse").

Definition b64uEncodeJson (obj : json) : string :=
  b64url (Buffer_from_utf8 (Json.stringify obj)).

Definition b64uDecodeJson (s : string) : Completion json :=
  JsonParse.parse (Buffer_toString_utf8 (fromB64url s)).

Definition jwt_header : json := JObj [("alg", JStr "HS256"); ("typ", JStr "JWT")].

(** [if (aud)]: neither [undefined] nor the empty string. *)
Definition given (x : option string) : bool := negb (missing_or_empty x).

Definition jwt_body (payload : list (string * json)) (ttlSec : Z) (iss : string) (aud : option string)
    (iat : Z) : list (string * json) :=
  let body := obj_set (obj_set payload "iat" (JNum iat)) "iss" (JStr iss) in
  let body := if given aud then obj_set body "aud" (JStr (default "" aud)) else body in
  if 0 <? ttlSec then obj_set body "exp" (JNum (iat + ttlSec)) else body.

Definition createJwtHs256 (key : Buffer) (payload : list (string * json)) (ttlSec : Z) (iss : string)
    (aud : option string) (iat : Z) : string :=
  let encodedHeader := b64uEncodeJson jwt_header in
  let encodedPayload := b64uEncodeJson (JObj (jwt_body payload ttlSec iss aud iat)) in
  let data := (encodedHeader ++ "." ++ encodedPayload)%string in
  let sig := Sha256.hmac key (Buffer_from_utf8 data) in
  let encodedSig := b64url sig in
  (data ++ "." ++ encodedSig)%string.

(** [typeof a === "string" ? a === aud : Array.isArray(a) ? a.includes(aud) : false] *)
Definition audOk (a : JsVal) (aud : string) : bool :=
  match a with
  | Some (JStr s) => String.eqb s aud
  | Some (JArr items) => existsb (fun x => strict_eq_string (Some x) aud) items
  | _ => false
  end.

Definition verifyJwtHs256_body (token : string) (key : Buffer) (iss : string) (aud : option string)
    (now clockSkewSec : Z) : Completion JwtResult :=
  match String_split "."%char token with
  | [h; p; s] =>
      let! header := b64uDecodeJson h in
      if negb (strict_eq_string (get_prop_opt (Some header) "alg") "HS256")
         || negb (strict_eq_string (get_prop_opt (Some header) "typ") "JWT")
      then Return (JwtFail "header")
      else
        let data := (h ++ "." ++ p)%string in
        let expectedSig := Sha256.hmac key (Buffer_from_utf8 data) in
        let gotSig := fromB64url s in
        let! sigOk :=
          if negb (length expectedSig =? length gotSig)%nat then Return false
          else timingSafeEqual expectedSig gotSig in
        if negb sigOk then Return (JwtFail "sig")
        else
          let! payload := b64uDecodeJson p in
          let! issBad :=
            if negb (String.eqb iss "") then
              let! i := get_prop_strict (Some payload) "iss" in Return (negb (strict_eq_string i iss))
            else Return false in
          if issBad then Return (JwtFail "iss")
          else
            let! audBad :=
              if given aud then
                let! a := get_prop_strict (Some payload) "aud" in Return (negb (audOk a (default "" aud)))
              else Return false in
            if audBad then Return (JwtFail "aud")
            else
              let! nbf := get_prop_strict (Some payload) "nbf" in
              if number_lt (now + clockSkewSec) nbf then Return (JwtFail "nbf")
              else
                let! exp := get_prop_strict (Some payload) "exp" in
                if number_le exp (now - clockSkewSec) then Return (JwtFail "exp")
                else Return (JwtOk payload)
  | _ => Return (JwtFail "format")
  end.

Definition verifyJwtHs256 (token : string) (key : Buffer) (iss : string) (aud : option string)
    (now clockSkewSec : Z) : JwtResult :=
  catch (verifyJwtHs256_body token key iss aud now clockSkewSec) (fun _ => JwtFail "parse").

End Token.

(** ** Built-in conversions the gates rely on *)

Module Js.

Definition in_range (lo hi n : Z) : bool := (lo <=? n) && (n <=? hi).

(** Length in bytes of a white-space or line-terminator character at the
    head of [s] (0 when there is none): the ASCII ones, U+00A0, U+1680,
    U+2000..U+200A, U+2028, U+2029, U+202F, U+205F, U+3000 and U+FEFF. *)
Definition ws_len (s : list ascii) : nat :=
  match map code s with
  | n :: tail =>
      if in_range 9 13 n || (n =? 32) then 1%nat
      else match tail with
           | n2 :: tail2 =>
               if (n =? 194) && (n2 =? 160) then 2%nat
               else match tail2 with
                    | n3 :: _ =>
                        if ((n =? 225) && (n2 =? 154) && (n3 =? 128))
                           || ((n =? 226) && (n2 =? 128)
                                 && (in_range 128 138 n3 || (n3 =? 168) || (n3 =? 169) || (n3 =? 175)))
                           || ((n =? 226) && (n2 =? 129) && (n3 =? 159))
                           || ((n =? 227) && (n2 =? 128) && (n3 =? 128))
                           || ((n =? 239) && (n2 =? 187) && (n3 =? 191))
                        then 3%nat else 0%nat
                    | [] => 0%nat
                    end
           | [] => 0%nat
           end
  | [] => 0%nat
  end.

(** The same, for a character at the end of the string whose reversal is [r]. *)
Definition ws_len_rev (r : list ascii) : nat :=
  match r with
  | c :: _ =>
      if in_range 9 13 (code c) || (code c =? 32) then 1%nat
      else match r with
           | c2 :: c1 :: tail =>
               if (code c1 =? 194) && (code c2 =? 160) then 2%nat
               else match tail with
                    | c0 :: _ => if (ws_len [c0; c1; c2] =? 3)%nat then 3%nat else 0%nat
                    | [] => 0%nat
                    end
           | _ => 0%nat
           end
  | [] => 0%nat
  end.

Fixpoint drop_while_ws (len : list ascii -> nat) (fuel : nat) (s : list ascii) : list ascii :=
  match fuel with
  | O => s
  | S fuel' =>
      match len s with
      | O => s
      | n => drop_while_ws len fuel' (skipn n s)
      end
  end.

Definition trimStart (s : list ascii) : list ascii := drop_while_ws ws_len (length s) s.
Definition trimEnd (s : list ascii) : list ascii :=
  rev (drop_while_ws ws_len_rev (length s) (rev s)).

(** [s.trim()] *)
Definition trim (s : list ascii) : list ascii := trimEnd (trimStart s).

(** [s.toLowerCase()] on the ASCII letters. *)
Definition lower_char (c : ascii) : ascii :=
  if in_range 65 90 (code c) then char_of_code (code c + 32) else c.
Definition toLowerCase (s : string) : string := str (map lower_char (chars s)).

(** [s.startsWith(prefix)] *)
Definition startsWith (s prefix : string) : bool := String.prefix prefix s.

(** [s.endsWith(suffix)] *)
Definition endsWith (s suffix : string) : bool :=
  String.prefix (str (rev (chars suffix))) (str (rev (chars s))).

(** [s.includes(part)] *)
Fixpoint includes_chars (s part : list ascii) : bool :=
  String.prefix (str part) (str s)
  || match s with
     | [] => false
     | _ :: rest => includes_chars rest part
     end.
Definition includes (s part : string) : bool := includes_chars (chars s) (chars part).

(** [s.indexOf(c)] for a character. *)
Fixpoint indexOf (c : ascii) (s : list ascii) : option nat :=
  match s with
  | [] => None
  | x :: rest => if Ascii.eqb x c then Some O else option_map S (indexOf c rest)
  end.

(** *** Numbers read from strings

    The value of a numeric string is kept exactly, as [m * 10 ^ e]. *)
Inductive Number : Type :=
  | NaN
  | Infinity (negative : bool)
  | Finite (m e : Z).

Definition digit_val (radix : Z) (c : ascii) : option Z :=
  let n := code c in
  let v := if in_range 48 57 n then n - 48
           else if in_range 97 122 n then n - 87
           else if in_range 65 90 n then n - 55
           else 99 in
  if v <? radix then Some v else None.

(** The longest prefix of digits of [radix]: its value, how many digits it
    has, and what follows. *)
Fixpoint read_digits (radix : Z) (acc : Z) (count : nat) (s : list ascii) : Z * nat * list ascii :=
  match s with
  | c :: rest =>
      match digit_val radix c with
      | Some v => read_digits radix (acc * radix + v) (S count) rest
      | None => (acc, count, s)
      end
  | [] => (acc, count, s)
  end.

Definition strip_sign (s : list ascii) : bool * list ascii :=
  match s with
  | c :: rest =>
      if Ascii.eqb c "-"%char then (true, rest)
      else if Ascii.eqb c "+"%char then (false, rest)
      else (false, s)
  | [] => (false, s)
  end.

Definition hex_prefixed (s : list ascii) : option (list ascii) :=
  match s with
  | z :: x :: rest =>
      if Ascii.eqb z "0"%char && (Ascii.eqb x "x"%char || Ascii.eqb x "X"%char) then Some rest else None
  | _ => None
  end.

(** [parseInt(s)] without a radix; [None] is [NaN]. *)
Definition parseInt_string (s : list ascii) : option Z :=
  let '(neg, s1) := strip_sign (trimStart s) in
  let '(radix, s2) := match hex_prefixed s1 with Some rest => (16, rest) | None => (10, s1) end in
  let '(v, count, _) := read_digits radix 0 0 s2 in
  match count with
  | O => None
  | S _ => Some (if neg then - v else v)
  end.

Definition radix_prefixed (s : list ascii) : option (Z * list ascii) :=
  match s with
  | z :: x :: rest =>
      if Ascii.eqb z "0"%char then
        if Ascii.eqb x "x"%char || Ascii.eqb x "X"%char then Some (16, rest)
        else if Ascii.eqb x "o"%char || Ascii.eqb x "O"%char then Some (8, rest)
        else if Ascii.eqb x "b"%char || Ascii.eqb x "B"%char then Some (2, rest)
        else None
      else None
  | _ => None
  end.

(** The exponent part of a decimal literal, which must end the string. *)
Definition exponent (s : list ascii) : option Z :=
  match s with
  | [] => Some 0
  | c :: rest =>
      if Ascii.eqb c "e"%char || Ascii.eqb c "E"%char then
        let '(neg, rest1) := strip_sign rest in
        match read_digits 10 0 0 rest1 with
        | (v, S _, []) => Some (if neg then - v else v)
        | _ => None
        end
      else None
  end.

(** [Number(s)] for a string. *)
Definition StringToNumber (s : list ascii) : Number :=
  let t := trim s in
  match t with
  | [] => Finite 0 0
  | _ =>
      match radix_prefixed t with
      | Some (radix, rest) =>
          match read_digits radix 0 0 rest with
          | (v, S _, []) => Finite v 0
          | _ => NaN
          end
      | None =>
          let '(neg, t1) := strip_sign t in
          if String.eqb (str t1) "Infinity" then Infinity neg
          else
            let '(int_part, int_count, t2) := read_digits 10 0 0 t1 in
            let '(mantissa, frac_count, t3) :=
              match t2 with
              | c :: rest => if Ascii.eqb c "."%char then read_digits 10 int_part 0 rest
                             else (int_part, O, t2)
              | [] => (int_part, O, t2)
              end in
            match (int_count + frac_count)%nat, exponent t3 with
            | S _, Some e =>
                Finite (if neg then - mantissa else mantissa) (e - Z.of_nat frac_count)
            | _, _ => NaN
            end
      end
  end.

(** [String(v)] for an element of an array: [null] gives the empty string. *)
Fixpoint array_item_string (v : json) : list ascii :=
  match v with
  | JNull => []
  | JBool true => chars "true"
  | JBool false => chars "false"
  | JNum n => Json.Number_toString n
  | JStr s => chars s
  | JArr items => Json.join [","%char] (map array_item_string items)
  | JObj _ => chars "[object Object]"
  end.

(** [String(v)] *)
Definition ToString (v : JsVal) : list ascii :=
  match v with
  | None => chars "undefined"
  | Some JNull => chars "null"
  | Some v' => array_item_string v'
  end.

(** [Number(v)] *)
Definition ToNumber (v : JsVal) : Number :=
  match v with
  | None => NaN
  | Some JNull => Finite 0 0
  | Some (JBool b) => Finite (if b then 1 else 0) 0
  | Some (JNum n) => Finite n 0
  | Some (JStr s) => StringToNumber (chars s)
  | Some (JArr _) | Some (JObj _) => StringToNumber (ToString v)
  end.

(** The integer part, towards zero. *)
Definition truncate (m e : Z) : Z :=
  if 0 <=? e then m * 10 ^ e else Z.quot m (10 ^ (- e)).

(** [v >>> 0] *)
Definition ToUint32 (v : JsVal) : Z :=
  match ToNumber v with
  | Finite m e => (truncate m e) mod 2 ^ 32
  | _ => 0
  end.

(** [parseInt(v)]; [None] is [NaN]. *)
Definition parseInt (v : JsVal) : option Z := parseInt_string (ToString v).

(** [a !== b] on two results of [parseInt]: [NaN] differs from everything. *)
Definition number_neq (a b : option Z) : bool :=
  match a, b with
  | Some x, Some y => negb (x =? y)
  | _, _ => true
  end.

(** [v < z] for a Number [z]. *)
Definition lt_number (v : JsVal) (z : Z) : bool :=
  match ToNumber v with
  | NaN => false
  | Infinity negative => negative
  | Finite m e => if 0 <=? e then m * 10 ^ e <? z else m <? z * 10 ^ (- e)
  end.

(** [a === b]: two values parsed from different texts are never the
    same array or object. *)
Definition strict_eq (a b : JsVal) : bool :=
  match a, b with
  | None, None => true
  | Some JNull, Some JNull => true
  | Some (JBool x), Some (JBool y) => Bool.eqb x y
  | Some (JNum x), Some (JNum y) => x =? y
  | Some (JStr x), Some (JStr y) => String.eqb x y
  | _, _ => false
  end.

(** [a || b] *)
Definition or_else (a b : JsVal) : JsVal := if truthy a then a else b.

Definition from_hex2 (a b : ascii) : option Z :=
  match JsonParse.hex_val a, JsonParse.hex_val b with
  | Some x, Some y => Some (x * 16 + y)
  | _, _ => None
  end.

(** A [%XX] escape at the head of [s]: its byte and what follows. *)
Definition percent_byte (s : list ascii) : option (Z * list ascii) :=
  match s with
  | p :: a :: b :: rest =>
      if Ascii.eqb p "%"%char then option_map (fun v => (v, rest)) (from_hex2 a b) else None
  | _ => None
  end.

(** [n] continuation bytes, each written as an escape. *)
Fixpoint continuation (n : nat) (s : list ascii) : option (list Z * list ascii) :=
  match n with
  | O => Some ([], s)
  | S n' =>
      match percent_byte s with
      | Some (b, rest) =>
          if in_range 128 191 b then
            option_map (fun r => (b :: fst r, snd r)) (continuation n' rest)
          else None
      | None => None
      end
  end.

(** Whether a lead byte and its continuation bytes encode a code point. *)
Definition valid_utf8 (lead : Z) (cont : list Z) : bool :=
  match cont with
  | [_] => in_range 194 223 lead
  | [c1; _] =>
      if lead =? 224 then in_range 160 191 c1
      else if lead =? 237 then in_range 128 159 c1
      else in_range 225 239 lead
  | [c1; _; _] =>
      if lead =? 240 then in_range 144 191 c1
      else if lead =? 244 then in_range 128 143 c1
      else in_range 241 243 lead
  | _ => false
  end.

Fixpoint decodeURIComponent_chars (fuel : nat) (s : list ascii) : Completion (list ascii) :=
  match fuel with
  | O => Return []
  | S fuel' =>
      match s with
      | [] => Return []
      | c :: rest =>
          if Ascii.eqb c "%"%char then
            match percent_byte s with
            | None => Throw URIError
            | Some (b, rest1) =>
                if b <? 128 then
                  let! tail := decodeURIComponent_chars fuel' rest1 in
                  Return (char_of_code b :: tail)
                else
                  let n := if in_range 192 223 b then 1%nat
                           else if in_range 224 239 b then 2%nat
                           else if in_range 240 247 b then 3%nat
                           else 0%nat in
                  match n with
                  | O => Throw URIError
                  | _ =>
                      match continuation n rest1 with
                      | Some (cont, rest2) =>
                          if valid_utf8 b cont then
                            let! tail := decodeURIComponent_chars fuel' rest2 in
                            Return (char_of_code b :: map char_of_code cont ++ tail)
                          else Throw URIError
                      | None => Throw URIError
                      end
                  end
            end
          else
            let! tail := decodeURIComponent_chars fuel' rest in
            Return (c :: tail)
      end
  end.

(** [decodeURIComponent(s)]: a [URIError] on a malformed escape. *)
Definition decodeURIComponent (s : list ascii) : Completion (list ascii) :=
  decodeURIComponent_chars (length s) s.

Definition unreserved (c : ascii) : bool :=
  let n := code c in
  in_range 48 57 n || in_range 65 90 n || in_range 97 122 n
  || existsb (Z.eqb n) [45; 95; 46; 33; 126; 42; 39; 40; 41].

Definition upper_hex_digit (v : Z) : ascii :=
  nth (Z.to_nat v) (list_ascii_of_string "0123456789ABCDEF") "0"%char.

(** [encodeURIComponent(s)] *)
Definition encodeURIComponent (s : string) : string :=
  str (flat_map (fun c => if unreserved c then [c]
                          else ["%"%char; upper_hex_digit (code c / 16); upper_hex_digit (code c mod 16)])
                (chars s)).

End Js.

(** ** [auth/cookie.mjs] *)

Module Cookie.

Definition COOKIE_NAME : string := "tgl_wi_auth".
Definition COOKIE_TTL_SEC : Z := 60 * 60 * 24 * 7.

Definition cookieNameFor (instanceId : string) : string :=
  (COOKIE_NAME ++ "." ++ instanceId)%string.

(** One [name=value] pair of the header; a pair without [=] or with an
    empty name is skipped. *)
Definition add_pair (map : gmap string string) (pair : list ascii) : Completion (gmap string string) :=
  match Js.indexOf "="%char pair with
  | None => Return map
  | Some idx =>
      let k := Js.trim (firstn idx pair) in
      let v := Js.trim (skipn (S idx) pair) in
      match k with
      | [] => Return map
      | _ :: _ =>
          let! decoded := Js.decodeURIComponent v in
          Return (<[str k := str decoded]> map)
      end
  end.

(** [getCookieMap(cookieHeader = "")]: [None] is [undefined]. *)
Definition getCookieMap (cookieHeader : option string) : Completion (gmap string string) :=
  fold_left (fun acc pair => let! map := acc in add_pair map pair)
            (split_on ";"%char (chars (default "" cookieHeader)))
            (Return ∅).

(** [cookies.join("; ")] *)
Definition join_cookies (cookies : list string) : string :=
  str (Json.join (chars "; ") (map chars cookies)).

(** [buildAuthCookie({ name, token, maxAgeSec, path })] *)
Definition buildAuthCookie (name token : string) (maxAgeSec : Z) (path : string) : string :=
  str (Json.join (chars "; ")
         [chars name ++ "="%char :: chars (Js.encodeURIComponent token);
          chars "Max-Age=" ++ Json.Number_toString maxAgeSec;
          chars "Path=" ++ chars path;
          chars "Domain=.thegraphitelab.com";
          chars "HttpOnly";
          chars "Secure";
          chars "SameSite=Strict"]).

(** The names of the two cookies of the identity provider. *)
Definition COGNITO_ID_TOKEN_COOKIE : string := "tgl_web".
Definition COGNITO_REFRESH_TOKEN_COOKIE : string := "tgl_web_refresh".

(** [buildCookieDeletionCookie(name, path = "/")] *)
Definition buildCookieDeletionCookie (name path : string) : string :=
  str (Json.join (chars "; ")
         [chars name ++ ["="%char];
          chars "Max-Age=0";
          chars "Path=" ++ chars path;
          chars "Domain=.thegraphitelab.com";
          chars "HttpOnly";
          chars "Secure";
          chars "SameSite=Strict"]).

End Cookie.

(** ** Records read from the stores, and the request *)

Record Instance : Type := {
  id : string;
  WebhookID : string;
  authKey : option string;
  tokenVersion : JsVal;
  password : JsVal
}.

Record Webhook : Type := {
  ClientID : string;
  passwordProtected : bool;
  authenticationType : option string
}.

(** The parts of the Lambda event the handlers read.  [headers] and
    [queryStringParameters] are objects, or absent. *)
Record Event : Type := {
  path : option string;
  pathInstanceID : option string;
  queryStringParameters : option (list (string * string));
  headers : option (list (string * string));
  cookies : option (list string);
  body : option string
}.

(** [obj?.[k]] on an object of strings. *)
Fixpoint lookup_string (props : list (string * string)) (k : string) : option string :=
  match props with
  | [] => None
  | (k', v) :: rest => if String.eqb k' k then Some v else lookup_string rest k
  end.

Definition field (obj : option (list (string * string))) (k : string) : option string :=
  match obj with
  | Some props => lookup_string props k
  | None => None
  end.

(** [a || b] on strings that may be absent: the first non-empty one. *)
Definition first_given (a b : option string) : option string :=
  if Token.given a then a else b.

(** ** [auth/password.mjs]: the gate of the page handlers *)

Inductive Page : Type := PASSWORD_PAGE_HTML | COGNITO_LOGIN_PAGE_HTML | ACCESS_DENIED_PAGE_HTML.

Record CognitoResult : Type := {
  authenticated : bool;
  authorized : bool;
  tokens : JsVal;
  user : JsVal
}.

Inductive GateResult : Type :=
  | GateOk
  | GateOkCognito (cognitoTokens user : JsVal)
  | GateDenied (html : Page) (reason : option string).

Definition gate_ok (r : GateResult) : bool :=
  match r with
  | GateOk | GateOkCognito _ _ => true
  | GateDenied _ _ => false
  end.

Module Password.
Section Gate.

(** The secret store, and the clock read by [nowSec()]. *)
Variable getClientSecret : string -> Completion string.
Variable now : Z.
(** The external identity provider ([auth/cognito.mjs]). *)
Variable verifyCognitoAuthAndAuthorization : Event -> Instance -> Webhook -> Completion CognitoResult.

(** Step 1 of the gate: the legacy compact token of the query string. *)
Definition legacy_step (instance : Instance) (webhook : Webhook) (qsToken : string) : GateResult :=
  let attempt :=
    let! clientSecret := getClientSecret (ClientID webhook) in
    let! legacyKey := Token.deriveSigningKey (Some clientSecret) (authKey instance) in
    Return (Token.verifyCompactToken qsToken legacyKey (id instance)
              (Js.ToUint32 (tokenVersion instance)) now) in
  match catch (bind attempt (fun res => Return (Some res))) (fun _ => None) with
  | Some (CompactOk _ _) => GateOk
  | _ => GateDenied PASSWORD_PAGE_HTML None
  end.

(** Step 2 of the gate: the session cookie. *)
Definition cookie_step (instance : Instance) (webhook : Webhook) (cookieToken : string) : GateResult :=
  let attempt :=
    let! clientSecret := getClientSecret (ClientID webhook) in
    let! cookieKey := Token.deriveCookieSigningKey (Some clientSecret) (Some (id instance)) in
    let aud := ("wi:" ++ id instance)%string in
    match Token.verifyJwtHs256 cookieToken cookieKey "tgl" (Some aud) now 60 with
    | JwtFail _ => Return (GateDenied PASSWORD_PAGE_HTML None)
    | JwtOk payload =>
        let p := Js.or_else (Some payload) (Some (JObj [])) in
        if negb (strict_eq_string (get_prop_opt p "iid") (id instance))
        then Return (GateDenied PASSWORD_PAGE_HTML None)
        else if negb (Js.ToUint32 (get_prop_opt p "tv") =? Js.ToUint32 (tokenVersion instance))
        then Return (GateDenied PASSWORD_PAGE_HTML None)
        else Return GateOk
    end in
  catch attempt (fun _ => GateDenied PASSWORD_PAGE_HTML None).

(** The two steps, on the query token and the cookie token the request carries. *)
Definition password_flow (instance : Instance) (webhook : Webhook) (qsToken cookieToken : option string)
    : GateResult :=
  if Token.given qsToken && Token.given (authKey instance) then
    legacy_step instance webhook (default "" qsToken)
  else if Token.given cookieToken then
    cookie_step instance webhook (default "" cookieToken)
  else GateDenied PASSWORD_PAGE_HTML None.

(** [verifyAccessOrPasswordPage] of [src/auth/password.mjs]. *)
Definition verifyAccessOrPasswordPage (instance : Instance) (webhook : Webhook) (event : Event)
    : Completion GateResult :=
  if negb (passwordProtected webhook) then Return GateOk
  else
    let qsToken := field (queryStringParameters event) "token" in
    let! cookieMap :=
      Cookie.getCookieMap (first_given (field (headers event) "cookie") (field (headers event) "Cookie")) in
    let cookieToken := cookieMap !! Cookie.cookieNameFor (id instance) in
    Return (password_flow instance webhook qsToken cookieToken).

(** [verifyAccessOrPasswordPage] of the later revision, which first hands a
    webhook of authentication type ["user"] to the identity provider and
    reads the cookies of an HTTP API event. *)
Definition verifyAccessOrPasswordPage_v2 (instance : Instance) (webhook : Webhook) (event : Event)
    : Completion GateResult :=
  if Token.given (authenticationType webhook) && String.eqb (default "" (authenticationType webhook)) "user"
  then
    let! cognitoResult := verifyCognitoAuthAndAuthorization event instance webhook in
    if authenticated cognitoResult && authorized cognitoResult
    then Return (GateOkCognito (tokens cognitoResult) (user cognitoResult))
    else if authenticated cognitoResult && negb (authorized cognitoResult)
    then Return (GateDenied ACCESS_DENIED_PAGE_HTML (Some "unauthorized"))
    else Return (GateDenied COGNITO_LOGIN_PAGE_HTML (Some "not_authenticated"))
  else if negb (passwordProtected webhook) then Return GateOk
  else
    let qsToken := field (queryStringParameters event) "token" in
    let cookieSource :=
      match cookies event with
      | Some cs => Cookie.join_cookies cs
      | None =>
          default "" (first_given (first_given (field (headers event) "cookie")
                                               (field (headers event) "Cookie"))
                                  (Some ""))
      end in
    let! cookieMap := Cookie.getCookieMap (Some cookieSource) in
    let cookieToken := cookieMap !! Cookie.cookieNameFor (id instance) in
    Return (password_flow instance webhook qsToken cookieToken).

End Gate.
End Password.

(** ** [auth/jwt.mjs]: the gate of the API endpoints, and the CSRF check *)

Inductive ApiResult : Type :=
  | ApiOk (instance : Instance) (webhook : Webhook) (jwtPayload : json)
  | ApiFail (error : string).

Inductive CsrfResult : Type :=
  | CsrfOk
  | CsrfFail (error : string).

(** What the program reads of a parsed [URL]. *)
Record URL : Type := { protocol : string; host : string }.

Module Jwt.
Section Api.

(** The record store, the secret store, and two readings of the clock. *)
Variable loadInstance : string -> Completion (option Instance).
Variable loadWebhook : string -> Completion (option Webhook).
Variable getClientSecret : string -> Completion string.
Variable now now' : Z.

Definition verifyJWTForAPI_body (event : Event) (instanceId : string) : Completion ApiResult :=
  let! loaded := loadInstance instanceId in
  match loaded with
  | None => Return (ApiFail "Instance not found")
  | Some instance =>
      let! loadedWebhook := loadWebhook (WebhookID instance) in
      match loadedWebhook with
      | None => Return (ApiFail "Webhook not found")
      | Some webhook =>
          let! clientSecret := getClientSecret (ClientID webhook) in
          if String.eqb clientSecret "" then Return (ApiFail "Client configuration error")
          else
            let! cookieKey := Token.deriveCookieSigningKey (Some clientSecret) (Some instanceId) in
            let! cookieMap :=
              Cookie.getCookieMap
                (first_given (first_given (field (headers event) "cookie") (field (headers event) "Cookie"))
                             (Some "")) in
            let token := cookieMap !! Cookie.cookieNameFor instanceId in
            if negb (Token.given token) then Return (ApiFail "Authentication required")
            else
              let aud := ("wi:" ++ instanceId)%string in
              match Token.verifyJwtHs256 (default "" token) cookieKey "tgl" (Some aud) now 60 with
              | JwtFail _ => Return (ApiFail "Invalid authentication token")
              | JwtOk result_payload =>
                  let payload := Js.or_else (Some result_payload) (Some (JObj [])) in
                  if negb (strict_eq_string (get_prop_opt payload "iid") instanceId)
                  then Return (ApiFail "Instance ID mismatch")
                  else
                    let payloadVersion := Js.parseInt (get_prop_opt payload "tv") in
                    let expectedVersion :=
                      Js.parseInt (Js.or_else (tokenVersion instance) (Some (JNum 0))) in
                    if Js.number_neq payloadVersion expectedVersion
                    then Return (ApiFail "Token has been revoked")
                    else if truthy (get_prop_opt payload "exp")
                            && Js.lt_number (get_prop_opt payload "exp") now'
                    then Return (ApiFail "Token expired")
                    else Return (ApiOk instance webhook (default (JObj []) payload))
              end
      end
  end.

Definition verifyJWTForAPI (event : Event) (instanceId : string) : ApiResult :=
  catch (verifyJWTForAPI_body event instanceId) (fun _ => ApiFail "Internal error").

End Api.

Section Csrf.

(** [new URL(s)]: the parsed address, or the [TypeError] it throws. *)
Variable URL_parse : string -> Completion URL.

(** The loop that lower-cases the header names; a later header of the
    same lower-cased name replaces an earlier one. *)
Definition normalize (headers : option (list (string * string))) : gmap string string :=
  fold_left (fun acc kv => <[Js.toLowerCase (fst kv) := snd kv]> acc) (default [] headers) ∅.

Definition origin_check (allowedOrigins : list string) (origin : string) : Completion (option CsrfResult) :=
  let! originUrl := URL_parse origin in
  let originBase := (protocol originUrl ++ "//" ++ host originUrl)%string in
  if negb (existsb (fun allowed => Js.startsWith originBase allowed) allowedOrigins)
  then Return (Some (CsrfFail "Origin not allowed"))
  else Return None.

Definition validateCSRFHeaders (headers : option (list (string * string))) (allowedOrigins : list string)
    (requireXRW : bool) : CsrfResult :=
  let normalizedHeaders := normalize headers in
  let originResult :=
    if (0 <? length allowedOrigins)%nat then
      let origin := first_given (normalizedHeaders !! "origin") (normalizedHeaders !! "referer") in
      if negb (Token.given origin) then Some (CsrfFail "Missing Origin/Referer header")
      else catch (origin_check allowedOrigins (default "" origin))
                 (fun _ => Some (CsrfFail "Invalid Origin header"))
    else None in
  match originResult with
  | Some failure => failure
  | None =>
      if requireXRW then
        match normalizedHeaders !! "x-requested-with" with
        | Some xrw =>
            if String.eqb xrw "XMLHttpRequest" then CsrfOk
            else CsrfFail "Missing or invalid X-Requested-With header"
        | None => CsrfFail "Missing or invalid X-Requested-With header"
        end
      else CsrfOk
  end.

End Csrf.
End Jwt.

(** ** [handlers/post.mjs]: the password exchange *)

Record Response : Type := {
  statusCode : string;
  responseHeaders : list (string * string);
  responseBody : string
}.

Module Post.
Section Handler.

(** The markup of the pages, string constants of [auth/password.mjs]. *)
Variable markup : Page -> string.
Variable resolveInstanceId : option string -> Completion string.
Variable loadInstance : string -> Completion (option Instance).
Variable loadWebhook : string -> Completion (option Webhook).
Variable getClientSecret : string -> Completion string.
Variable now : Z.
Variable verifyAccessOrPasswordPage : Instance -> Webhook -> Event -> Completion GateResult.
Variable handleUploadUrlRequest handleUploadCompleteRequest : Event -> Completion Response.
(** What follows the gate: storing the submission and notifying subscribers. *)
Variable submit : Instance -> Webhook -> Event -> Completion Response.

Definition invalid_password : Response :=
  {| statusCode := "401";
     responseHeaders := [("Content-Type", "application/json")];
     responseBody := Json.stringify (JObj [("ok", JBool false); ("error", JStr "Invalid password")]) |}.

(** The value a missing record turns a property read into. *)
Definition required {A : Type} (x : option A) : Completion A :=
  match x with
  | Some a => Return a
  | None => Throw TypeError
  end.

Definition auth_exchange (instance : Instance) (webhook : Webhook) (event : Event) : Completion Response :=
  let! payload :=
    if Token.given (body event) then JsonParse.parse (default "" (body event))
    else Return (JObj []) in
  let provided := Js.or_else (get_prop_opt (Some payload) "password") (Some (JStr "")) in
  let expected := Js.or_else (password instance) (Some (JStr "")) in
  if negb (truthy provided) || negb (Js.strict_eq provided expected) then Return invalid_password
  else
    let! clientSecret := getClientSecret (ClientID webhook) in
    let! cookieKey := Token.deriveCookieSigningKey (Some clientSecret) (Some (id instance)) in
    let jwtCookie :=
      Token.createJwtHs256 cookieKey
        [("iid", JStr (id instance)); ("tv", JNum (Js.ToUint32 (tokenVersion instance)))]
        Cookie.COOKIE_TTL_SEC "tgl" (Some ("wi:" ++ id instance)%string) now in
    let setCookie :=
      Cookie.buildAuthCookie (Cookie.cookieNameFor (id instance)) jwtCookie Cookie.COOKIE_TTL_SEC
        "/instance/" in
    Return {| statusCode := "200";
              responseHeaders := [("Content-Type", "application/json"); ("Set-Cookie", setCookie)];
              responseBody := Json.stringify (JObj [("ok", JBool true)]) |}.

Definition handlePostRequest (event : Event) : Completion Response :=
  if match path event with Some p => Js.includes p "/upload-url" | None => false end
  then handleUploadUrlRequest event
  else if match path event with Some p => Js.includes p "/upload-complete" | None => false end
  then handleUploadCompleteRequest event
  else
    let rawPath := default "" (first_given (path event) (Some "")) in
    let isAuthExchange :=
      Js.endsWith rawPath "/auth"
      || match field (queryStringParameters event) "auth" with
         | Some a => String.eqb a "1"
         | None => false
         end in
    let greedy :=
      match pathInstanceID event with
      | Some g => Some (catch (bind (Js.decodeURIComponent (chars g)) (fun d => Return (str d)))
                              (fun _ => g))
      | None => None
      end in
    let! instanceID := resolveInstanceId greedy in
    let! loaded := loadInstance instanceID in
    let! instance := required loaded in
    let! loadedWebhook := loadWebhook (WebhookID instance) in
    let! webhook := required loadedWebhook in
    if isAuthExchange && passwordProtected webhook then auth_exchange instance webhook event
    else
      let! gate :=
        if passwordProtected webhook then verifyAccessOrPasswordPage instance webhook event
        else Return GateOk in
      if negb (gate_ok gate) then
        Return {| statusCode := "401";
                  responseHeaders := [("Content-Type", "text/html")];
                  responseBody := markup PASSWORD_PAGE_HTML |}
      else submit instance webhook event.

End Handler.
End Post.

(** ** [services/instance.mjs]: the instance a path names *)

Module InstanceService.
Section Store.

(** The query on the index [byWebhookByExternalID], limited to one item:
    the [id] of the item found, if any.  The two keys are the first two
    pieces of the path parameter. *)
Variable byWebhookByExternalID : option string -> option string -> Completion (option string).

(** [resolveInstanceId(greedy)] *)
Definition resolveInstanceId (greedy : option string) : Completion string :=
  if negb (Token.given greedy) then Throw Error
  else
    let given := default "" greedy in
    let stripped :=
      if Js.endsWith given "/auth"
      then str (firstn (length (chars given) - 5) (chars given))
      else given in
    if Js.includes stripped "/" then
      let pieces := String_split "/"%char stripped in
      let! found := byWebhookByExternalID (nth_error pieces 0) (nth_error pieces 1) in
      if negb (Token.given found) then Throw Error else Return (default "" found)
    else Return stripped.

End Store.
End InstanceService.

(** ** [handlers/get.mjs]: the page of an instance *)

Module Get.
Section Page.

Variable markup : Page -> string.
Variable resolveInstanceId : option string -> Completion string.
Variable loadInstance : string -> Completion (option Instance).
Variable loadWebhook : string -> Completion (option Webhook).
(** The record of the client, of which this handler reads nothing itself. *)
Variable Client : Type.
Variable loadClient : string -> Completion Client.
Variable getClientSecret : string -> Completion string.
Variable now : Z.
Variable verifyAccessOrPasswordPage : Instance -> Webhook -> Event -> Completion GateResult.
(** What follows the cookie: counting the visit, reading the last
    submission and filling the template, which gives the document. *)
Variable render : string -> Instance -> Webhook -> Client -> Completion string.

(** The [try] block that mints the session cookie: the headers of the answer. *)
Definition minted_headers (instance : Instance) (webhook : Webhook) : list (string * string) :=
  catch
    (let! clientSecret := getClientSecret (ClientID webhook) in
     let! cookieKey := Token.deriveCookieSigningKey (Some clientSecret) (Some (id instance)) in
     let jwtCookie :=
       Token.createJwtHs256 cookieKey
         [("iid", JStr (id instance)); ("tv", JNum (Js.ToUint32 (tokenVersion instance)))]
         Cookie.COOKIE_TTL_SEC "tgl" (Some ("wi:" ++ id instance)%string) now in
     let setCookie :=
       Cookie.buildAuthCookie (Cookie.cookieNameFor (id instance)) jwtCookie Cookie.COOKIE_TTL_SEC
         "/instance/" in
     Return [("Content-Type", "text/html"); ("Set-Cookie", setCookie)])
    (fun _ => [("Content-Type", "text/html")]).

Definition handleGetRequest (event : Event) : Completion Response :=
  if negb (match field (headers event) "accept" with
           | Some accept => Js.includes accept "text/html"
           | None => false
           end)
  then Throw Error
  else
    let greedy :=
      match pathInstanceID event with
      | Some g => Some (catch (bind (Js.decodeURIComponent (chars g)) (fun d => Return (str d)))
                              (fun _ => g))
      | None => None
      end in
    let! instanceID := resolveInstanceId greedy in
    let! loaded := loadInstance instanceID in
    let! instance := Post.required loaded in
    let! loadedWebhook := loadWebhook (WebhookID instance) in
    let! webhook := Post.required loadedWebhook in
    let! client := loadClient (ClientID webhook) in
    let! gate := verifyAccessOrPasswordPage instance webhook event in
    if negb (gate_ok gate) then
      Return {| statusCode := "200";
                responseHeaders := [("Content-Type", "text/html")];
                responseBody := markup PASSWORD_PAGE_HTML |}
    else
      let headers := minted_headers instance webhook in
      let! body := render instanceID instance webhook client in
      Return {| statusCode := "200"; responseHeaders := headers; responseBody := body |}.

End Page.
End Get.

(** ** [utils/s3.mjs] and the file paths [handlers/post.mjs] stores *)

Module S3.

(** The key and the path under which [handlePostRequest] stores an uploaded file. *)
Definition s3Key (FILE_PREFIX instanceID filename : string) : string :=
  (FILE_PREFIX ++ "/" ++ instanceID ++ "/" ++ filename)%string.
Definition s3FilePath (BUCKET key : string) : string := ("s3://" ++ BUCKET ++ "/" ++ key)%string.

Section Presigner.

(** [generatePresignedUrl(bucket, key)]; the bucket is [undefined] when
    the path has fewer than three pieces. *)
Variable generatePresignedUrl : option string -> string -> Completion string.

(** One turn of the loop of [getSignedUrlsForFiles]. *)
Definition signed_file (file : json) : Completion json :=
  let! filePath := get_prop_strict (Some file) "filePath" in
  match filePath with
  | None | Some JNull => Return file
  | Some (JStr p) =>
      if Js.startsWith p "s3://" then
        let pieces := split_on "/"%char (chars p) in
        let s3Bucket := option_map str (nth_error pieces 2) in
        let key := str (Json.join ["/"%char] (skipn 3 pieces)) in
        let! presignedUrl := generatePresignedUrl s3Bucket key in
        match file with
        | JObj props => Return (JObj (obj_set props "fileUrl" (JStr presignedUrl)))
        | _ => Return file
        end
      else Return file
  | Some _ => Throw TypeError
  end.

Fixpoint getSignedUrlsForFiles (files : list json) : Completion (list json) :=
  match files with
  | [] => Return []
  | file :: rest =>
      let! signed := signed_file file in
      let! out := getSignedUrlsForFiles rest in
      Return (signed :: out)
  end.

End Presigner.
End S3.

(** ** [handlers/uploadUrl.mjs]: upload URLs for a signed-in browser *)

(** What is sent to the presigner with a [PutObjectCommand]. *)
Record PutObject : Type := {
  Bucket : string;
  Key : string;
  ContentType : JsVal;
  metaInstanceId : string;
  metaUploadedAt : string;
  metaOriginalFilename : string
}.

Module UploadUrl.

(** The longest run of characters other than [/] at the head of [s], and
    what follows it. *)
Fixpoint segment (s : list ascii) : list ascii * list ascii :=
  match s with
  | [] => ([], [])
  | c :: rest =>
      if Ascii.eqb c "/"%char then ([], s)
      else let '(seg, tail) := segment rest in (c :: seg, tail)
  end.

(** [path?.match(/^\/instance\/([^\/]+)<endpoint>/)]: the first group of the
    match, for an [endpoint] that starts with [/]. *)
Definition path_instance (endpoint : string) (path : option string) : option string :=
  match path with
  | None => None
  | Some p =>
      match JsonParse.expect (chars "/instance/") (chars p) with
      | None => None
      | Some rest =>
          let '(seg, tail) := segment rest in
          match seg with
          | [] => None
          | _ :: _ => if String.prefix endpoint (str tail) then Some (str seg) else None
          end
      end
  end.

(** One UTF-16 code unit outside [[a-zA-Z0-9._-]] becomes [_].  On the
    UTF-8 bytes of the string: a continuation byte belongs to the unit of
    its lead byte, and a four-byte sequence is two units. *)
Definition sanitize_byte (c : ascii) : list ascii :=
  let n := code c in
  if Js.in_range 48 57 n || Js.in_range 65 90 n || Js.in_range 97 122 n
     || (n =? 46) || (n =? 95) || (n =? 45)
  then [c]
  else if Js.in_range 128 191 n then []
  else if 240 <=? n then ["_"%char; "_"%char]
  else ["_"%char].

(** [filename.replace(/[^a-zA-Z0-9._-]/g, "_")] *)
Definition sanitize (filename : string) : string := str (flat_map sanitize_byte (chars filename)).

Definition json_answer (status : string) (v : json) : Response :=
  {| statusCode := status;
     responseHeaders := [("Content-Type", "application/json")];
     responseBody := Json.stringify v |}.

Definition error_answer (status error : string) : Response :=
  json_answer status (JObj [("error", JStr error)]).

(** [parseInt(setting || fallback)] for a variable of the environment. *)
Definition int_setting (setting : option string) (fallback : string) : option Z :=
  Js.parseInt_string (chars (default "" (first_given setting (Some fallback)))).

Section Handlers.

(** The configuration read from the environment. *)
Variable ALLOWED_ORIGINS : list string.
Variable ENFORCE_ORIGIN REQUIRE_XRW : bool.
Variable MAX_UPLOAD_SIZE UPLOAD_URL_EXPIRY : option string.
Variable FILE_PREFIX BUCKET : string.

(** The stores behind [verifyJWTForAPI] and its two readings of the clock. *)
Variable URL_parse : string -> Completion URL.
Variable loadInstance : string -> Completion (option Instance).
Variable loadWebhook : string -> Completion (option Webhook).
Variable getClientSecret : string -> Completion string.
Variable now now' : Z.

(** The four readings of the clock in milliseconds, the eight random
    bytes, [Date.prototype.toISOString] and the presigner. *)
Variable t1 t2 t3 t4 : Z.
Variable randomBytes8 : Buffer.
Variable toISOString : Z -> Completion string.
Variable getSignedUrl : PutObject -> option Z -> Completion string.

(** The key under which the file is to be stored. *)
Definition upload_key (instanceId filename : string) : string :=
  (FILE_PREFIX ++ "/" ++ instanceId ++ "/"
     ++ str (Json.Number_toString t1) ++ "-" ++ Buffer_toString_hex randomBytes8 ++ "/"
     ++ sanitize filename)%string.

(** The part of [handleUploadUrlRequest] that follows the checks of the request. *)
Definition issue (instanceId filename : string) (finalContentType : JsVal) : Completion Response :=
  let s3Key := upload_key instanceId filename in
  let! uploadedAt := toISOString t2 in
  let putCommand :=
    {| Bucket := BUCKET; Key := s3Key; ContentType := finalContentType;
       metaInstanceId := instanceId; metaUploadedAt := uploadedAt;
       metaOriginalFilename := filename |} in
  let uploadUrlExpiry := int_setting UPLOAD_URL_EXPIRY "900" in
  let! uploadUrl := getSignedUrl putCommand uploadUrlExpiry in
  let! expiresAt :=
    match uploadUrlExpiry with
    | Some expiry => toISOString (t3 + expiry * 1000)
    | None => Throw RangeError
    end in
  let! uploadedat := toISOString t4 in
  Return
    {| statusCode := "200";
       responseHeaders := [("Content-Type", "application/json"); ("Cache-Control", "no-store")];
       responseBody :=
         Json.stringify
           (JObj [("uploadUrl", JStr uploadUrl);
                  ("fileKey", JStr s3Key);
                  ("bucket", JStr BUCKET);
                  ("expiresAt", JStr expiresAt);
                  ("method", JStr "PUT");
                  ("headers",
                   JObj [("Content-Type", default JNull finalContentType);
                         ("x-amz-server-side-encryption", JStr "AES256");
                         ("x-amz-meta-instanceid", JStr instanceId);
                         ("x-amz-meta-uploadedat", JStr uploadedat);
                         ("x-amz-meta-originalfilename", JStr filename)])]) |}.

(** The body of the request as both handlers read it: [JSON.parse(event.body || "{}")]. *)
Definition request_body (event : Event) : Completion json :=
  JsonParse.parse (default "" (first_given (body event) (Some "{}"))).

Definition upload_url_checked (event : Event) (instanceId : string) : Completion Response :=
  match request_body event with
  | Throw _ => Return (error_answer "400" "Invalid request body")
  | Return requestBody =>
      let! filename := get_prop_strict (Some requestBody) "filename" in
      let! contentType := get_prop_strict (Some requestBody) "contentType" in
      let! contentLength := get_prop_strict (Some requestBody) "contentLength" in
      match filename with
      | Some (JStr name) =>
          if String.eqb name "" then Return (error_answer "400" "Missing or invalid filename")
          else
            let finalContentType := Js.or_else contentType (Some (JStr "application/octet-stream")) in
            let maxSize := int_setting MAX_UPLOAD_SIZE "104857600" in
            let refused :=
              match contentLength with
              | None => false
              | Some (JNum n) =>
                  (n <=? 0) || match maxSize with Some m => m <? n | None => false end
              | Some _ => true
              end in
            if refused then
              Return (json_answer "400"
                        (JObj [("error", JStr "Invalid content length");
                               ("maxSize", match maxSize with Some m => JNum m | None => JNull end)]))
            else issue instanceId name finalContentType
      | _ => Return (error_answer "400" "Missing or invalid filename")
      end
  end.

Definition upload_url_body (event : Event) : Completion Response :=
  match path_instance "/upload-url" (path event) with
  | None => Return (error_answer "400" "Invalid path")
  | Some instanceId =>
      let csrfResult :=
        if ENFORCE_ORIGIN || REQUIRE_XRW
        then Jwt.validateCSRFHeaders URL_parse (headers event) ALLOWED_ORIGINS REQUIRE_XRW
        else CsrfOk in
      match csrfResult with
      | CsrfFail error => Return (error_answer "403" error)
      | CsrfOk =>
          match Jwt.verifyJWTForAPI loadInstance loadWebhook getClientSecret now now' event instanceId with
          | ApiFail error => Return (error_answer "401" error)
          | ApiOk _ _ _ => upload_url_checked event instanceId
          end
      end
  end.

Definition handleUploadUrlRequest (event : Event) : Response :=
  catch (upload_url_body event) (fun _ => error_answer "500" "Internal server error").

Definition upload_complete_body (event : Event) : Completion Response :=
  match path_instance "/upload-complete" (path event) with
  | None => Return (error_answer "400" "Invalid path")
  | Some instanceId =>
      match Jwt.verifyJWTForAPI loadInstance loadWebhook getClientSecret now now' event instanceId with
      | ApiFail error => Return (error_answer "401" error)
      | ApiOk _ _ _ =>
          match request_body event with
          | Throw _ => Return (error_answer "400" "Invalid request body")
          | Return requestBody =>
              let! fileKey := get_prop_strict (Some requestBody) "fileKey" in
              match fileKey with
              | Some (JStr key) =>
                  if String.eqb key "" then Return (error_answer "400" "Missing or invalid fileKey")
                  else
                    let expectedPrefix := (FILE_PREFIX ++ "/" ++ instanceId ++ "/")%string in
                    if negb (Js.startsWith key expectedPrefix)
                    then Return (error_answer "403" "Invalid fileKey for this instance")
                    else
                      Return (json_answer "200"
                                (JObj [("ok", JBool true);
                                       ("fileKey", JStr key);
                                       ("s3Url", JStr ("s3://" ++ BUCKET ++ "/" ++ key)%string)]))
              | _ => Return (error_answer "400" "Missing or invalid fileKey")
              end
          end
      end
  end.

Definition handleUploadCompleteRequest (event : Event) : Response :=
  catch (upload_complete_body event) (fun _ => error_answer "500" "Internal server error").

End Handlers.
End UploadUrl.

(** ** [auth/cognito.mjs]: the users of the identity provider *)

Module Cognito.

Definition COGNITO_ID_TOKEN_COOKIE : string := "tgl_web".
Definition COGNITO_REFRESH_TOKEN_COOKIE : string := "tgl_web_refresh".
Definition TOKEN_REFRESH_BUFFER_SEC : Z := 5 * 60.

(** The outcomes that carry neither tokens nor a user. *)
Definition unauthenticated : CognitoResult :=
  {| authenticated := false; authorized := false; tokens := None; user := None |}.

(** [{ idToken, refreshToken }]; a token that is [undefined] has no property. *)
Definition token_pair (idToken : option string) (refreshToken : string) : json :=
  JObj (match idToken with Some t => [("idToken", JStr t)] | None => [] end
        ++ [("refreshToken", JStr refreshToken)]).

Section Provider.

(** The verifier of the user pool: the claims of an ID token it accepts. *)
Variable idTokenVerifier_verify : option string -> Completion json.
(** [COGNITO_CONFIG.CLIENT_ID] *)
Variable CLIENT_ID : option string.
(** The [REFRESH_TOKEN_AUTH] call for a client and a refresh token: the
    [IdToken] of the [AuthenticationResult], when the response has one. *)
Variable refresh_token_auth : string -> string -> Completion (option (option string)).
(** The item of the users table under a key. *)
Variable users_item : JsVal -> Completion JsVal.
Variable now : Z.

(** [loadUser(userId)] of [services/user.mjs] *)
Definition loadUser (userId : JsVal) : JsVal :=
  catch (let! item := users_item userId in Return (Js.or_else item (Some JNull)))
        (fun _ => Some JNull).

(** [verifyCognitoToken(idToken)]: the payload when the result is [ok]. *)
Definition verifyCognitoToken (idToken : option string) : option json :=
  catch (let! payload := idTokenVerifier_verify idToken in Return (Some payload)) (fun _ => None).

(** [refreshCognitoTokens(refreshToken)]: the new ID token when the result is [ok]. *)
Definition refreshCognitoTokens (refreshToken : string) : option (option string) :=
  if negb (Token.given CLIENT_ID) then None
  else catch (refresh_token_auth (default "" CLIENT_ID) refreshToken) (fun _ => None).

(** [isTokenExpiringSoon(payload)]; the difference [expiresAt - now] is exact. *)
Definition isTokenExpiringSoon (payload : json) : Completion bool :=
  let! exp := get_prop_strict (Some payload) "exp" in
  Return (negb (truthy exp) || Js.lt_number exp (now + TOKEN_REFRESH_BUFFER_SEC)).

(** The refresh both branches attempt: the result returned when the new
    token verifies. *)
Definition refreshed (refreshToken : string) : option CognitoResult :=
  match refreshCognitoTokens refreshToken with
  | Some idToken =>
      match verifyCognitoToken idToken with
      | Some _ =>
          Some {| authenticated := true; authorized := false;
                  tokens := Some (token_pair idToken refreshToken); user := None |}
      | None => None
      end
  | None => None
  end.

Definition verifyCognitoAuthAndAuthorization (event : Event) (instance : Instance) (webhook : Webhook)
    : Completion CognitoResult :=
  let cookieSource :=
    match cookies event with
    | Some cs => Cookie.join_cookies cs
    | None =>
        default "" (first_given (first_given (field (headers event) "cookie")
                                             (field (headers event) "Cookie"))
                                (Some ""))
    end in
  let! cookieMap := Cookie.getCookieMap (Some cookieSource) in
  let idToken := cookieMap !! COGNITO_ID_TOKEN_COOKIE in
  let refreshToken := cookieMap !! COGNITO_REFRESH_TOKEN_COOKIE in
  if negb (Token.given idToken) then Return unauthenticated
  else
    match verifyCognitoToken idToken with
    | None =>
        match (if Token.given refreshToken then refreshed (default "" refreshToken) else None) with
        | Some result => Return result
        | None => Return unauthenticated
        end
    | Some payload =>
        let! soon := if Token.given refreshToken then isTokenExpiringSoon payload else Return false in
        match (if soon then refreshed (default "" refreshToken) else None) with
        | Some result => Return result
        | None =>
            let! userId := get_prop_strict (Some payload) "sub" in
            let found := loadUser userId in
            if negb (truthy found)
            then Return {| authenticated := true; authorized := false; tokens := None; user := None |}
            else
              let isAuthorized :=
                strict_eq_string (get_prop_opt found "type") "admin"
                || strict_eq_string (get_prop_opt found "ClientID") (ClientID webhook) in
              Return {| authenticated := true; authorized := isAuthorized; tokens := None;
                        user := found |}
        end
    end.

End Provider.
End Cognito.

(** ** [index.mjs]: the entry point *)

(** An answer with the [cookies] array of the HTTP API. *)
Record Answer : Type := {
  answer : Response;
  answerCookies : option (list string)
}.

(** The event as the Lambda receives it: what [normalizeEvent] reads next
    to the parts the handlers read.  [http_method] and [http_path] are
    [requestContext.http.method] and [requestContext.http.path], [proxy] is
    [pathParameters.proxy], and [pathInstanceID] of [request] is
    [pathParameters.instanceID]. *)
Record LambdaEvent : Type := {
  http_method : option string;
  http_path : option string;
  rawPath : option string;
  httpMethod : option string;
  proxy : option string;
  isBase64Encoded : bool;
  request : Event
}.

Module Index.

(** [headers[k] = v] on an object of strings: a header that is there keeps its place. *)
Fixpoint assign (headers : list (string * string)) (k v : string) : list (string * string) :=
  match headers with
  | [] => [(k, v)]
  | (k', v') :: rest =>
      if String.eqb k' k then (k, v) :: rest else (k', v') :: assign rest k v
  end.

(** [normalizeHeaders(headers)]: every header under its lower-case name and under its own. *)
Definition normalizeHeaders (headers : list (string * string)) : list (string * string) :=
  fold_left (fun normalized kv =>
               assign (assign normalized (Js.toLowerCase (fst kv)) (snd kv)) (fst kv) (snd kv))
            headers [].

(** [normalizeEvent(event)] *)
Definition normalizeEvent (event : LambdaEvent) : LambdaEvent :=
  match http_method event with
  | None => event
  | Some method =>
      let proxyPath := first_given (proxy event) (pathInstanceID (request event)) in
      let proxyPath :=
        if Token.given proxyPath && Js.startsWith (default "" proxyPath) "instance/"
        then Some (str (skipn 9 (chars (default "" proxyPath))))
        else proxyPath in
      let body := default "" (first_given (body (request event)) (Some "")) in
      let body :=
        if isBase64Encoded event && negb (String.eqb body "")
        then Buffer_toString_utf8 (Base64.decode body)
        else body in
      let path :=
        first_given (first_given (first_given (rawPath event) (http_path event))
                                 (path (request event)))
                    (Some "/") in
      {| http_method := http_method event;
         http_path := http_path event;
         rawPath := path;
         httpMethod := Some method;
         proxy := if Token.given proxyPath then proxyPath else proxy event;
         isBase64Encoded := false;
         request :=
           {| path := path;
              pathInstanceID :=
                if Token.given proxyPath then proxyPath else pathInstanceID (request event);
              queryStringParameters := Some (default [] (queryStringParameters (request event)));
              headers := Some (normalizeHeaders (default [] (headers (request event))));
              cookies := cookies (request event);
              body := Some body |} |}
  end.

Definition method_not_allowed : Response :=
  {| statusCode := "405";
     responseHeaders := [("Content-Type", "text/html")];
     responseBody := "Method Not Allowed. This service only supports GET and POST requests." |}.

(** The answer of the [catch] block. *)
Definition failure (markup : Page -> string) (path : string) : Response :=
  {| statusCode := "400";
     responseHeaders := [("Content-Type", "text/html")];
     responseBody :=
       if Js.includes path "/webhooks/instances/" then markup PASSWORD_PAGE_HTML
       else "Internal Server Error" |}.

(** [{ ...under, ...over }] *)
Definition spread (under over : list (string * string)) : list (string * string) :=
  fold_left (fun acc kv => assign acc (fst kv) (snd kv)) over under.

Definition allowedOrigins : list string :=
  ["https://web.thegraphitelab.com"; "https://webhooks.thegraphitelab.com"].

Definition addCorsHeaders (response : Answer) (origin : string) : Answer :=
  let isAllowedOrigin := negb (String.eqb origin "") && existsb (String.eqb origin) allowedOrigins in
  let corsOrigin := if isAllowedOrigin then origin else if String.eqb origin "*" then "*" else origin in
  let corsHeaders :=
    [("Access-Control-Allow-Origin", corsOrigin);
     ("Access-Control-Allow-Methods", "GET, POST, OPTIONS");
     ("Access-Control-Allow-Headers", "Content-Type, Authorization, Cookie, Accept");
     ("Access-Control-Allow-Credentials", if isAllowedOrigin then "true" else "false");
     ("Access-Control-Max-Age", "86400")] in
  {| answer :=
       {| statusCode := statusCode (answer response);
          responseHeaders := spread (responseHeaders (answer response)) corsHeaders;
          responseBody := responseBody (answer response) |};
     answerCookies := answerCookies response |}.

Definition logout : Answer :=
  {| answer :=
       {| statusCode := "200";
          responseHeaders := [("Content-Type", "application/json")];
          responseBody := Json.stringify (JObj [("ok", JBool true)]) |};
     answerCookies :=
       Some [Cookie.buildCookieDeletionCookie Cookie.COGNITO_ID_TOKEN_COOKIE "/";
             Cookie.buildCookieDeletionCookie Cookie.COGNITO_REFRESH_TOKEN_COOKIE "/"] |}.

Section Entry.

Variable markup : Page -> string.

(** [handler(event)] of the first revision, on the method of the request
    and what the handlers read of it. *)
Definition handler (handleGetRequest handlePostRequest : Event -> Completion Response)
    (httpMethod : option string) (event : Event) : Response :=
  catch
    (match httpMethod with
     | Some method =>
         if String.eqb method "GET" then handleGetRequest event
         else if String.eqb method "POST" then handlePostRequest event
         else Return method_not_allowed
     | None => Return method_not_allowed
     end)
    (fun _ => failure markup (default "" (first_given (path event) (Some "")))).

(** [handler(event)] of the later revision, on the normalised event: its
    method, its [rawPath], and what the handlers read of it. *)
Definition handler_v2 (handleGetRequest handlePostRequest : Event -> Completion Answer)
    (httpMethod rawPath : option string) (normalizedEvent : Event) : Answer :=
  let requestOrigin :=
    default "" (first_given (first_given (field (headers normalizedEvent) "origin")
                                         (field (headers normalizedEvent) "Origin"))
                            (Some "*")) in
  let path := default "" (first_given (first_given (path normalizedEvent) rawPath) (Some "")) in
  let plain r := {| answer := r; answerCookies := None |} in
  catch
    (match httpMethod with
     | Some method =>
         if String.eqb method "GET" then
           let! response := handleGetRequest normalizedEvent in
           Return (addCorsHeaders response requestOrigin)
         else if String.eqb method "POST" then
           if Js.endsWith path "/logout" || String.eqb path "/logout" then Return logout
           else
             let! response := handlePostRequest normalizedEvent in
             Return (addCorsHeaders response requestOrigin)
         else Return (addCorsHeaders (plain method_not_allowed) requestOrigin)
     | None => Return (addCorsHeaders (plain method_not_allowed) requestOrigin)
     end)
    (fun _ => addCorsHeaders (plain (failure markup path)) requestOrigin).

(** [handler(event)] of the later revision. *)
Definition handler_http (handleGetRequest handlePostRequest : Event -> Completion Answer)
    (event : LambdaEvent) : Answer :=
  let normalizedEvent := normalizeEvent event in
  handler_v2 handleGetRequest handlePostRequest (httpMethod normalizedEvent)
    (rawPath normalizedEvent) (request normalizedEvent).

End Entry.
End Index.

(** ** [utils/html.mjs]: the last submission inside the page *)

Module Html.

(** [s.replace(/c/g, text)] for one character [c] and a text without [$]. *)
Definition replace_char (c : ascii) (text : string) (s : list ascii) : list ascii :=
  flat_map (fun x => if Ascii.eqb x c then chars text else [x]) s.

(** The text that stands for the submission: its JSON with [<], [>], [&],
    ['] and the double quote written as [\uXXXX]. *)
Definition safe (postEvent : json) : list ascii :=
  replace_char dquote "\u0022"
    (replace_char "'"%char "\u0027"
       (replace_char "&"%char "\u0026"
          (replace_char ">"%char "\u003e"
             (replace_char "<"%char "\u003c" (Json.stringify_chars postEvent))))).

(** What a replacement text stands for at one match of a pattern without
    groups: [$$] is a dollar sign, [$&] the match, [$`] what precedes the
    match and [$'] what follows it. *)
Fixpoint substitution (template matched before after : list ascii) : list ascii :=
  match template with
  | [] => []
  | c :: rest =>
      if Ascii.eqb c "$"%char then
        match rest with
        | d :: rest' =>
            if Ascii.eqb d "$"%char then "$"%char :: substitution rest' matched before after
            else if Ascii.eqb d "&"%char then matched ++ substitution rest' matched before after
            else if Ascii.eqb d "`"%char then before ++ substitution rest' matched before after
            else if Ascii.eqb d "'"%char then after ++ substitution rest' matched before after
            else c :: substitution rest matched before after
        | [] => [c]
        end
      else c :: substitution rest matched before after
  end.

(** [s.replace(/pattern/g, template)] for a pattern of literal characters,
    from the point where [before] has been read and [skip] characters of
    the last match remain. *)
Fixpoint replace_from (pattern template before s : list ascii) (skip : nat) : list ascii :=
  match s with
  | [] => []
  | c :: rest =>
      match skip with
      | S k => replace_from pattern template (before ++ [c]) rest k
      | O =>
          if String.prefix (str pattern) (str s) then
            substitution template pattern before (skipn (length pattern) s)
              ++ replace_from pattern template (before ++ [c]) rest (length pattern - 1)
          else c :: replace_from pattern template (before ++ [c]) rest 0
      end
  end.

(** [replaceHtmlWithEvent(htmlString, postEvent)] *)
Definition replaceHtmlWithEvent (htmlString : string) (postEvent : json) : string :=
  str (replace_from (chars "{{postEvent}}") (safe postEvent) [] (chars htmlString) 0).

End Html.

(** * Vocabulary of the statements

    The notions the properties below are stated with, and the measures
    and invariants their proofs use.  None of them is part of the program. *)

(** ** Base64 *)

Module Base64Terms.
Import Base64 Token.

(** The sextets [encode] writes, without the padding. *)
Fixpoint all_sextets (bs : Buffer) : list Z :=
  match bs with
  | [] => []
  | [a] => [Z_of_byte a / 4; (Z_of_byte a mod 4) * 16]
  | [a; b] =>
      [Z_of_byte a / 4; (Z_of_byte a mod 4) * 16 + Z_of_byte b / 16; (Z_of_byte b mod 16) * 4]
  | a :: b :: c :: rest => sextets3 (Z_of_byte a) (Z_of_byte b) (Z_of_byte c) ++ all_sextets rest
  end.

Definition padding (bs : Buffer) : nat :=
  match (length bs mod 3)%nat with
  | 1%nat => 2%nat
  | 2%nat => 1%nat
  | _ => 0%nat
  end.

Definition is_sextet (v : Z) : Prop := 0 <= v < 64.

Definition url_char (v : Z) : ascii := to_url_char (char_of_sextet v).

Definition sextet_ok (v : Z) : bool :=
  match unbase64 (from_url_char (url_char v)) with
  | Some w => w =? v
  | None => false
  end
  && negb (Ascii.eqb (url_char v) "="%char)
  && negb (Ascii.eqb (from_url_char (url_char v)) "="%char)
  && negb (Ascii.eqb (url_char v) "."%char).

End Base64Terms.

Import Base64Terms.

(** ** The compact token on the wire *)

Definition field32 (wire : Buffer) (off : nat) : Z :=
  match readUInt32BE wire off with Return v => v | Throw _ => 0 end.

Definition field8 (wire : Buffer) (off : nat) : Z :=
  match readUInt8 wire off with Return v => v | Throw _ => 0 end.

(** What [verifyCompactToken] computes on a decoded token of 34 bytes. *)
Definition mac_input (wire : Buffer) (instanceId : string) (tokenVersion : Z) : Buffer :=
  [byte_of_Z (field8 wire 0); byte_of_Z (field8 wire 1)] ++ subarray wire 2 10 ++ subarray wire 10 18
    ++ Buffer_from_utf8 instanceId ++ u32 (ToUint32 tokenVersion).

Definition expected_tag (wire key : Buffer) (instanceId : string) (tokenVersion : Z) : Buffer :=
  subarray (Sha256.hmac key (mac_input wire instanceId tokenVersion)) 0 16.

Definition verify_wire (wire key : Buffer) (instanceId : string) (tokenVersion nowSec : Z) : CompactResult :=
  if negb (length wire =? 34)%nat then CompactFail "len"
  else if negb (field8 wire 0 =? 1) then CompactFail "ver"
  else if negb (Buffer_equals (expected_tag wire key instanceId tokenVersion) (subarray wire 18 34))
  then CompactFail "mac"
  else if negb (Z.land (field8 wire 1) 1 =? 0) then
    if field32 wire 6 =? 3600 then CompactOk None (Some (field32 wire 2 + field32 wire 6))
    else if field32 wire 2 + field32 wire 6 <? nowSec then CompactFail "exp"
    else CompactOk (Some (field32 wire 2)) (Some (field32 wire 2 + field32 wire 6))
  else CompactOk (Some (field32 wire 2)) None.

(** ** JSON texts *)

Module JsonTerms.
Import Json JsonParse.

Definition not_digit_head (rest : list ascii) : Prop :=
  match rest with
  | [] => True
  | c :: _ => digit_cons c = None
  end.

(** The characters a number can start with. *)
Definition number_start (c : ascii) : bool := Ascii.eqb c "-"%char || is_digit c.

(** What may follow a value inside a text that [stringify] wrote. *)
Definition delimited (rest : list ascii) : Prop :=
  match rest with
  | [] => True
  | c :: _ => c = ","%char \/ c = "]"%char \/ c = "}"%char
  end.

(** Fuel that [value] needs to read back what [stringify] wrote. *)
Fixpoint need (v : json) : nat :=
  match v with
  | JArr items => S (list_sum (map (fun x => S (need x)) items))
  | JObj props => S (list_sum (map (fun kv => S (need (snd kv))) props))
  | _ => 1%nat
  end.

Definition value_start (c : ascii) : bool :=
  number_start c || existsb (Ascii.eqb c) ["n"; "t"; "f"; dquote; "["; "{"]%char.

(** A value that [value] reads back from its text, given enough fuel. *)
Definition reads_back (v : json) : Prop :=
  forall fuel rest, (need v <= fuel)%nat -> delimited rest ->
                    value fuel (stringify_chars v ++ rest) = Some (v, rest).

Definition member_chars (kv : string * json) : list ascii :=
  quote (fst kv) ++ ":"%char :: stringify_chars (snd kv).

End JsonTerms.

Import JsonTerms.

(** ** Tokens *)

Definition no_dot (l : list ascii) : Prop := Forall (fun c => Ascii.eqb c "."%char = false) l.

Definition added_key (k : string) : bool :=
  String.eqb k "iat" || String.eqb k "iss" || String.eqb k "aud" || String.eqb k "exp".



Definition header_ok (header : json) : bool :=
  strict_eq_string (get_prop_opt (Some header) "alg") "HS256"
  && strict_eq_string (get_prop_opt (Some header) "typ") "JWT".

(** The value of a digit string, most significant digit first. *)
Fixpoint horner (acc : Z) (d : Decimal.uint) : Z :=
  match d with
  | Decimal.Nil => acc
  | Decimal.D0 l => horner (acc * 10 + 0) l
  | Decimal.D1 l => horner (acc * 10 + 1) l
  | Decimal.D2 l => horner (acc * 10 + 2) l
  | Decimal.D3 l => horner (acc * 10 + 3) l
  | Decimal.D4 l => horner (acc * 10 + 4) l
  | Decimal.D5 l => horner (acc * 10 + 5) l
  | Decimal.D6 l => horner (acc * 10 + 6) l
  | Decimal.D7 l => horner (acc * 10 + 7) l
  | Decimal.D8 l => horner (acc * 10 + 8) l
  | Decimal.D9 l => horner (acc * 10 + 9) l
  end.

(** ** Requests and what the gates read from them *)


(** The legacy compact token of the request verifies. *)
Definition legacy_verified (getClientSecret : string -> Completion string) (now : Z)
    (instance : Instance) (webhook : Webhook) (qsToken : string) : Prop :=
  exists secret key iat exp,
    getClientSecret (ClientID webhook) = Return secret
    /\ Token.deriveSigningKey (Some secret) (authKey instance) = Return key
    /\ Token.verifyCompactToken qsToken key (id instance) (Js.ToUint32 (tokenVersion instance)) now
       = CompactOk iat exp.

Definition api_cookie_header (event : Event) : option string :=
  first_given (first_given (field (headers event) "cookie") (field (headers event) "Cookie")) (Some "").

Definition is_user (webhook : Webhook) : bool :=
  Token.given (authenticationType webhook) && String.eqb (default "" (authenticationType webhook)) "user".

Definition query_token (event : Event) : option string := field (queryStringParameters event) "token".

Definition cookie_header (event : Event) : option string :=
  first_given (field (headers event) "cookie") (field (headers event) "Cookie").

Definition cookie_source (event : Event) : option string :=
  Some (match cookies event with
        | Some cs => Cookie.join_cookies cs
        | None => default "" (first_given (cookie_header event) (Some ""))
        end).

(** The header the origin check reads: [Origin], or else [Referer]. *)
Definition chosen_origin (headers : option (list (string * string))) : option string :=
  first_given (Jwt.normalize headers !! "origin") (Jwt.normalize headers !! "referer").

Definition origin_base (u : URL) : string := (protocol u ++ "//" ++ host u)%string.

Definition xrw_result (headers : option (list (string * string))) (requireXRW : bool) : CsrfResult :=
  if requireXRW then
    match Jwt.normalize headers !! "x-requested-with" with
    | Some xrw =>
        if String.eqb xrw "XMLHttpRequest" then CsrfOk
        else CsrfFail "Missing or invalid X-Requested-With header"
    | None => CsrfFail "Missing or invalid X-Requested-With header"
    end
  else CsrfOk.

(** The request is a password exchange: not an upload call, and either
    its path ends in [/auth] or its query says [auth=1]. *)
Definition is_auth_exchange (event : Event) : bool :=
  negb (match path event with Some p => Js.includes p "/upload-url" | None => false end)
  && negb (match path event with Some p => Js.includes p "/upload-complete" | None => false end)
  && (Js.endsWith (default "" (first_given (path event) (Some ""))) "/auth"
      || match field (queryStringParameters event) "auth" with
         | Some a => String.eqb a "1"
         | None => false
         end).

Definition greedy_id (event : Event) : option string :=
  match pathInstanceID event with
  | Some g => Some (catch (bind (Js.decodeURIComponent (chars g)) (fun d => Return (str d)))
                          (fun _ => g))
  | None => None
  end.

(** The records the handler loads for the request. *)
Definition loads (resolveInstanceId : option string -> Completion string)
    (loadInstance : string -> Completion (option Instance))
    (loadWebhook : string -> Completion (option Webhook))
    (event : Event) (instance : Instance) (webhook : Webhook) : Prop :=
  exists instanceID,
    resolveInstanceId (greedy_id event) = Return instanceID
    /\ loadInstance instanceID = Return (Some instance)
    /\ loadWebhook (WebhookID instance) = Return (Some webhook).

(** The body of the request as the exchange reads it. *)
Definition request_payload (event : Event) : Completion json :=
  if Token.given (body event) then JsonParse.parse (default "" (body event)) else Return (JObj []).


(** ** The scenario of the specification

    Instance [I1] of a password-protected webhook, tenant secret [s3cr3t];
    a session token minted at second 1000 for ten minutes. *)

Module Scenario.

Definition secret : string := "s3cr3t".
Definition getClientSecret (clientId : string) : Completion string := Return secret.

Definition instance_at (counter : JsVal) : Instance :=
  {| id := "I1"; WebhookID := "W1"; authKey := Some "legacy-key-material";
     tokenVersion := counter; password := Some (JStr "open sesame") |}.

Definition webhook : Webhook :=
  {| ClientID := "C1"; passwordProtected := true; authenticationType := None |}.

Definition loadInstance (counter : JsVal) (instanceId : string) : Completion (option Instance) :=
  Return (Some (instance_at counter)).
Definition loadWebhook (webhookId : string) : Completion (option Webhook) := Return (Some webhook).
Definition cognito (e : Event) (i : Instance) (w : Webhook) : Completion CognitoResult := Throw Error.

Definition cookieKey : Buffer :=
  Sha256.hmac (Buffer_from_utf8 secret) (Buffer_from_utf8 "JWT_COOKIE|I1").

Definition legacyKey : Buffer :=
  Sha256.hmac (Buffer_from_utf8 secret) (Buffer_from_utf8 "legacy-key-material").

Definition nonce : Buffer := [x01; x02; x03; x04; x05; x06; x07; x08].

(** The session token of a given [tv] claim. *)
Definition session_token (tv : json) : string :=
  Token.createJwtHs256 cookieKey [("iid", JStr "I1"); ("tv", tv)] 600 "tgl" (Some "wi:I1") 1000.

(** A GET of the instance page with the given query token and [Cookie] header. *)
Definition request (token cookie : option string) : Event :=
  {| path := Some "/instance/I1";
     pathInstanceID := Some "I1";
     queryStringParameters := option_map (fun t => [("token", t)]) token;
     headers := option_map (fun c => [("cookie", c)]) cookie;
     cookies := None;
     body := None |}.

Definition session_cookie (tv : json) : string := ("tgl_wi_auth.I1=" ++ session_token tv)%string.

(** A POST to the exchange endpoint with the given body. *)
Definition exchange (body : option string) : Event :=
  {| path := Some "/instance/I1/auth";
     pathInstanceID := Some "I1";
     queryStringParameters := None;
     headers := None;
     cookies := None;
     body := body |}.

(** Addresses of the form [scheme://host/...], which is all the examples
    of the specification need of the URL parser: the scheme and the host in
    lower case; anything else is reported as unparsable. *)
Fixpoint scheme_and_rest (s : list ascii) : option (list ascii * list ascii) :=
  match s with
  | c :: rest =>
      if Ascii.eqb c ":"%char then
        match rest with
        | s1 :: s2 :: rest' =>
            if Ascii.eqb s1 "/"%char && Ascii.eqb s2 "/"%char then Some ([], rest') else None
        | _ => None
        end
      else option_map (fun r => (c :: fst r, snd r)) (scheme_and_rest rest)
  | [] => None
  end.

Fixpoint authority (s : list ascii) : list ascii :=
  match s with
  | c :: rest =>
      if Ascii.eqb c "/"%char || Ascii.eqb c "?"%char || Ascii.eqb c "#"%char then []
      else c :: authority rest
  | [] => []
  end.

Definition URL_parse (s : string) : Completion URL :=
  match scheme_and_rest (chars s) with
  | Some (scheme, rest) =>
      match scheme, authority rest with
      | _ :: _, (_ :: _) as h =>
          Return {| protocol := (Js.toLowerCase (str scheme) ++ ":")%string;
                    host := Js.toLowerCase (str h) |}
      | _, _ => Throw TypeError
      end
  | None => Throw TypeError
  end.

End Scenario.

(** ** More vocabulary: the claims of a signed token *)

(** What [verifyJwtHs256] makes of the payload of a token whose header and
    signature it has accepted. *)
Definition claims_verdict (payload : json) (iss : string) (aud : option string) (now skew : Z) : JwtResult :=
  match payload with
  | JNull => JwtFail "parse"
  | _ =>
      if negb (String.eqb iss "") && negb (strict_eq_string (get_prop payload "iss") iss)
      then JwtFail "iss"
      else if Token.given aud && negb (Token.audOk (get_prop payload "aud") (default "" aud))
      then JwtFail "aud"
      else if number_lt (now + skew) (get_prop payload "nbf") then JwtFail "nbf"
      else if number_le (get_prop payload "exp") (now - skew) then JwtFail "exp"
      else JwtOk payload
  end.

(** The characters of URL-safe base64: letters, digits, [-] and [_]. *)
Definition url_safe (c : ascii) : bool :=
  let n := code c in
  Js.in_range 48 57 n || Js.in_range 65 90 n || Js.in_range 97 122 n || (n =? 45) || (n =? 95).

(** The characters of a signed token: URL-safe base64 and the dot. *)
Definition plain (c : ascii) : bool := url_safe c || (code c =? 46).

(** A character below 128 that is not ASCII white space. *)
Definition solid (c : ascii) : bool :=
  (code c <? 128) && negb (Js.in_range 9 13 (code c) || (code c =? 32)).


(** The characters [encodeURIComponent] writes. *)
Definition encoded_char (c : ascii) : bool := Js.unreserved c || Ascii.eqb c "%"%char.

(** ** More vocabulary: the session the handlers mint *)

(** The claims [handlePostRequest] and [handleGetRequest] sign. *)
Definition session_claims (instance : Instance) : list (string * json) :=
  [("iid", JStr (id instance)); ("tv", JNum (Js.ToUint32 (tokenVersion instance)))].

(** The session token minted at [now] under the client secret [secret]. *)
Definition session_jwt (secret : string) (instance : Instance) (now : Z) : string :=
  Token.createJwtHs256
    (Sha256.hmac (Buffer_from_utf8 secret) (Buffer_from_utf8 ("JWT_COOKIE|" ++ id instance)%string))
    (session_claims instance) Cookie.COOKIE_TTL_SEC "tgl" (Some ("wi:" ++ id instance)%string) now.

(** The answer of a successful password exchange that sets [token]. *)
Definition exchange_ok (instance : Instance) (token : string) : Response :=
  {| statusCode := "200";
     responseHeaders :=
       [("Content-Type", "application/json");
        ("Set-Cookie",
         Cookie.buildAuthCookie (Cookie.cookieNameFor (id instance)) token Cookie.COOKIE_TTL_SEC
           "/instance/")];
     responseBody := Json.stringify (JObj [("ok", JBool true)]) |}.

(** The [Cookie] header a client sends back for a session token. *)
Definition session_cookie_pair (instance : Instance) (token : string) : string :=
  (Cookie.cookieNameFor (id instance) ++ "=" ++ Js.encodeURIComponent token)%string.

(** ** More vocabulary: paths and uploads *)

(** What [resolveInstanceId] makes of a webhook and an external id: the
    id the query finds, an error when it finds none or an empty one. *)
Definition composite_id (query : option string -> option string -> Completion (option string))
    (webhookID externalID : string) : Completion string :=
  let! found := query (Some webhookID) (Some externalID) in
  match found with
  | Some id => if String.eqb id "" then Throw Error else Return id
  | None => Throw Error
  end.

(** ** More vocabulary: the answers of the page handler *)

(** The request says it accepts HTML. *)
Definition accepts_html (event : Event) : bool :=
  match field (headers event) "accept" with
  | Some accept => Js.includes accept "text/html"
  | None => false
  end.

(** A page: status 200, the given headers and document. *)
Definition page (headers : list (string * string)) (document : string) : Response :=
  {| statusCode := "200"; responseHeaders := headers; responseBody := document |}.

Definition html_headers : list (string * string) := [("Content-Type", "text/html")].

(** The headers that set [token] as the session cookie of the instance. *)
Definition session_headers (instance : Instance) (token : string) : list (string * string) :=
  [("Content-Type", "text/html");
   ("Set-Cookie",
    Cookie.buildAuthCookie (Cookie.cookieNameFor (id instance)) token Cookie.COOKIE_TTL_SEC
      "/instance/")].

(** ** More vocabulary: uploads *)

(** The characters a sanitised file name is made of. *)
Definition filename_char (c : ascii) : bool :=
  let n := code c in
  Js.in_range 48 57 n || Js.in_range 65 90 n || Js.in_range 97 122 n
  || (n =? 46) || (n =? 95) || (n =? 45).

(** The folder of an instance in the bucket. *)
Definition instance_folder (FILE_PREFIX instanceId : string) : string :=
  (FILE_PREFIX ++ "/" ++ instanceId ++ "/")%string.

(** The answer that confirms an upload. *)
Definition confirmed (BUCKET key : string) : Response :=
  UploadUrl.json_answer "200"
    (JObj [("ok", JBool true); ("fileKey", JStr key);
           ("s3Url", JStr ("s3://" ++ BUCKET ++ "/" ++ key)%string)]).

(** ** More vocabulary: the entry point *)

(** The origin the entry point answers to: the [origin] header, or else
    [Origin], or else [*]. *)
Definition request_origin (event : Event) : string :=
  default "" (first_given (first_given (field (headers event) "origin")
                                       (field (headers event) "Origin"))
                          (Some "*")).

(** The path the entry point routes on. *)
Definition request_path (rawPath : option string) (event : Event) : string :=
  default "" (first_given (first_given (path event) rawPath) (Some "")).

Definition header (a : Answer) (name : string) : option string :=
  lookup_string (responseHeaders (answer a)) name.

(** The request is a submission: not an upload call and not a password exchange. *)
Definition is_submission (event : Event) : bool :=
  negb (match path event with Some p => Js.includes p "/upload-url" | None => false end)
  && negb (match path event with Some p => Js.includes p "/upload-complete" | None => false end)
  && negb (is_auth_exchange event).

(** The answer of [handlePostRequest] to a submission the gate refuses. *)
Definition refused (markup : Page -> string) : Response :=
  {| statusCode := "401";
     responseHeaders := [("Content-Type", "text/html")];
     responseBody := markup PASSWORD_PAGE_HTML |}.

(** ** More vocabulary: text inside a page *)

(** A character that is neither [<], [>], [&], ['] nor the double quote. *)
Definition harmless (c : ascii) : bool :=
  negb (existsb (Ascii.eqb c) ["<"%char; ">"%char; "&"%char; "'"%char; dquote]).

(** The placeholder of the last submission. *)
Definition placeholder : string := "{{postEvent}}".

(** ** More of the scenario: a browser that asks for the page *)

Module Visit.

(** A GET of the page of [I1] that accepts HTML, with the given [Cookie] header. *)
Definition request (cookie : option string) : Event :=
  {| path := Some "/instance/I1";
     pathInstanceID := Some "I1";
     queryStringParameters := None;
     headers := Some (("accept", "text/html,application/xhtml+xml")
                        :: match cookie with Some c => [("cookie", c)] | None => [] end);
     cookies := None;
     body := None |}.

Definition resolveInstanceId (greedy : option string) : Completion string :=
  InstanceService.resolveInstanceId (fun _ _ => Return None) greedy.
Definition loadClient (clientId : string) : Completion unit := Return tt.
Definition render (instanceID : string) (i : Instance) (w : Webhook) (c : unit) : Completion string :=
  Return ("<p>" ++ instanceID ++ "</p>")%string.
Definition markup (p : Page) : string :=
  match p with
  | PASSWORD_PAGE_HTML => "<form>password</form>"
  | COGNITO_LOGIN_PAGE_HTML => "<form>login</form>"
  | ACCESS_DENIED_PAGE_HTML => "<p>denied</p>"
  end.

(** The session cookie of [I1] minted at second 1000, as the browser sends it back. *)
Definition cookie : string :=
  session_cookie_pair (Scenario.instance_at (Some (JNum 0)))
    (session_jwt "s3cr3t" (Scenario.instance_at (Some (JNum 0))) 1000).

(** A POST to an upload endpoint of [I1] from a signed-in script. *)
Definition upload (endpoint : string) (payload : json) : Event :=
  {| path := Some ("/instance/I1" ++ endpoint)%string;
     pathInstanceID := Some "I1";
     queryStringParameters := None;
     headers := Some [("cookie", cookie); ("X-Requested-With", "XMLHttpRequest")];
     cookies := None;
     body := Some (Json.stringify payload) |}.

Definition FILE_PREFIX : string := "public/clientWebhookInstanceFiles".
Definition BUCKET : string := "tgltoolboxuserfiles210135-staging".
Definition toISOString (t : Z) : Completion string := Return "1970-01-01T00:33:20.000Z".
Definition getSignedUrl (command : PutObject) (expiresIn : option Z) : Completion string :=
  Return ("https://s3.test/" ++ Key command)%string.

(** A webhook for the users of the identity provider, and a provider that
    rejects the token [old], refreshes it to [new] and accepts that. *)
Definition user_webhook : Webhook :=
  {| ClientID := "C1"; passwordProtected := false; authenticationType := Some "user" |}.
Definition verify (idToken : option string) : Completion json :=
  if decide (idToken = Some "new") then Return (JObj [("sub", JStr "u1"); ("exp", JNum 9000)])
  else Throw Error.
Definition refresh_token_auth (clientId refreshToken : string) : Completion (option (option string)) :=
  Return (Some (Some "new")).
Definition users_item (userId : JsVal) : Completion JsVal :=
  Return (Some (JObj [("id", JStr "u1"); ("type", JStr "admin")])).
Definition signed_in : Event :=
  {| path := Some "/instance/I1";
     pathInstanceID := Some "I1";
     queryStringParameters := None;
     headers := Some [("origin", "https://elsewhere.test")];
     cookies := Some ["tgl_web=old"; "tgl_web_refresh=r1"];
     body := None |}.

End Visit.

(** * Facts about the embedding *)

(** ** The embedding on known values *)

Example sha256_constants :
  firstn 2 Sha256.K = [0x428a2f98; 0x71374491]
  /\ last Sha256.K 0 = 0xc67178f2
  /\ length Sha256.K = 64%nat
  /\ Sha256.ha Sha256.init = 0x6a09e667
  /\ Sha256.hh Sha256.init = 0x5be0cd19.
Proof. vm_compute. repeat split. Qed.

Example sha256_abc :
  Buffer_toString_hex (Sha256.sha256 (Buffer_from_utf8 "abc"))
  = "ba7816bf8f01cfea414140de5dae2223b00361a396177a9cb410ff61f20015ad".
Proof. vm_compute. reflexivity. Qed.

Example hmac_rfc4231_case2 :
  Buffer_toString_hex (Sha256.hmac (Buffer_from_utf8 "Jefe") (Buffer_from_utf8 "what do ya want for nothing?"))
  = "5bdcc146bf60754e6a042426089575c75a003f089d2739839dec58b964ec3843".
Proof. vm_compute. reflexivity. Qed.

Example base64_foobar :
  Base64.encode (Buffer_from_utf8 "fooba") = "Zm9vYmE="
  /\ Base64.decode "Zm9vYmE=" = Buffer_from_utf8 "fooba"
  /\ Base64.decode "Zm9v YmE" = Buffer_from_utf8 "fooba".
Proof. vm_compute. repeat split. Qed.

Example json_roundtrip_example :
  let v := JObj [("iid", JStr "I1"); ("tv", JNum 0); ("iat", JNum 1000); ("n", JNum (-12));
                 ("a", JArr [JNull; JBool true; JStr (String dquote (String (char_of_code 10) "x"))])] in
  Json.stringify v
    = str (chars "{" ++ Json.quote "iid" ++ chars ":" ++ Json.quote "I1" ++ chars ","
            ++ Json.quote "tv" ++ chars ":0," ++ Json.quote "iat" ++ chars ":1000,"
            ++ Json.quote "n" ++ chars ":-12," ++ Json.quote "a" ++ chars ":[null,true,"
            ++ [dquote; backslash; dquote; backslash; "n"%char; "x"%char; dquote] ++ chars "]}")
  /\ JsonParse.parse (Json.stringify v) = Return v
  /\ JsonParse.parse " [ 1 , 2 ] " = Return (JArr [JNum 1; JNum 2])
  /\ JsonParse.parse "01" = Throw SyntaxError
  /\ JsonParse.parse "{" = Throw SyntaxError
  /\ JsonParse.parse "-0" = Return (JNum 0).
Proof. vm_compute. repeat split. Qed.

Example js_conversions :
  Js.parseInt (Some (JStr "7x")) = Some 7
  /\ Js.ToUint32 (Some (JStr "7x")) = 0
  /\ Js.ToUint32 (Some (JStr " 42 ")) = 42
  /\ Js.ToUint32 (Some (JStr "1.5e3")) = 1500
  /\ Js.ToUint32 (Some (JStr "0x10")) = 16
  /\ Js.ToUint32 (Some (JNum (-1))) = 4294967295
  /\ Js.parseInt (Some (JStr "  -12px")) = Some (-12)
  /\ Js.parseInt (Some (JStr "0x1f")) = Some 31
  /\ Js.parseInt None = None
  /\ Js.parseInt (Some (JArr [JNum 7; JNum 8])) = Some 7
  /\ Js.ToUint32 (Some (JArr [JNum 7; JNum 8])) = 0
  /\ Js.decodeURIComponent (chars "a%2Eb%C3%A9") = Return (chars "a.b" ++ [char_of_code 195; char_of_code 169])
  /\ Js.decodeURIComponent (chars "%") = Throw URIError
  /\ Js.decodeURIComponent (chars "%C3%28") = Throw URIError
  /\ Js.trim (chars "  a b  ") = chars "a b"
  /\ Js.encodeURIComponent "a.b=c;d" = "a.b%3Dc%3Bd".
Proof. vm_compute. repeat split. Qed.

(** ** Bytes and buffers *)

Lemma Z_of_byte_range (b : byte) : 0 <= Z_of_byte b < 256.
Proof.
  unfold Z_of_byte. pose proof (Byte.to_N_bounded b). lia.
Qed.

Lemma byte_of_Z_of_byte (b : byte) : byte_of_Z (Z_of_byte b) = b.
Proof.
  unfold byte_of_Z. pose proof (Z_of_byte_range b) as Hr.
  rewrite Z.mod_small by exact Hr.
  unfold Z_of_byte. rewrite N2Z.id, Byte.of_to_N. reflexivity.
Qed.

Lemma Z_of_byte_of_Z (z : Z) : Z_of_byte (byte_of_Z z) = z mod 256.
Proof.
  unfold byte_of_Z, Z_of_byte.
  assert (Hr : 0 <= z mod 256 < 256) by (apply Z.mod_pos_bound; lia).
  destruct (Byte.of_N (Z.to_N (z mod 256))) as [b|] eqn:E.
  - apply Byte.to_of_N in E. rewrite E. rewrite Z2N.id; lia.
  - apply Byte.of_N_None_iff in E. lia.
Qed.

Lemma Z_of_byte_of_Z_small (z : Z) : 0 <= z < 256 -> Z_of_byte (byte_of_Z z) = z.
Proof. intros H. rewrite Z_of_byte_of_Z. apply Z.mod_small; exact H. Qed.

Lemma byte_of_Z_inj_small (x y : Z) :
  0 <= x < 256 -> 0 <= y < 256 -> byte_of_Z x = byte_of_Z y -> x = y.
Proof.
  intros Hx Hy E. apply (f_equal Z_of_byte) in E.
  rewrite !Z_of_byte_of_Z_small in E by assumption. exact E.
Qed.

Lemma length_u32 (n : Z) : length (u32 n) = 4%nat.
Proof. reflexivity. Qed.

Lemma ToUint32_range (n : Z) : 0 <= ToUint32 n < 2 ^ 32.
Proof. unfold ToUint32. apply Z.mod_pos_bound. lia. Qed.

Lemma ToUint32_idem (n : Z) : ToUint32 (ToUint32 n) = ToUint32 n.
Proof. unfold ToUint32. apply Z.mod_mod. lia. Qed.

Lemma readUInt32BE_u32 (n : Z) (pre post : Buffer) :
  readUInt32BE (pre ++ u32 n ++ post) (length pre) = Return (ToUint32 n).
Proof.
  unfold readUInt32BE. rewrite skipn_app, skipn_all, Nat.sub_diag. simpl.
  pose proof (ToUint32_range n) as Hr. set (m := ToUint32 n) in *.
  rewrite !Z_of_byte_of_Z. f_equal.
  change (2 ^ 24) with 16777216. change (2^16) with 65536. change (2^8) with 256.
  change (2 ^ 32) with 4294967296 in Hr.
  rewrite (Z.mod_small (m / 16777216)) by (split; [apply Z.div_pos; lia | apply Z.div_lt_upper_bound; lia]).
  Z.div_mod_to_equations. lia.
Qed.

(** Base64 *)
Module Base64Facts.
Import Base64.

Lemma list_ind3 {A : Type} (P : list A -> Prop) :
  P [] -> (forall a, P [a]) -> (forall a b, P [a; b]) ->
  (forall a b c l, P l -> P (a :: b :: c :: l)) ->
  forall l, P l.
Proof.
  intros H0 H1 H2 H3 l.
  enough (H : P l /\ (forall a, P (a :: l)) /\ (forall a b, P (a :: b :: l))) by apply H.
  induction l as [|x l IH].
  - repeat split; auto.
  - destruct IH as (IH0 & IH1 & IH2). repeat split; auto.
Qed.

Lemma all_sextets_range (bs : Buffer) : Forall is_sextet (all_sextets bs).
Proof.
  induction bs as [|a|a b|a b c l IH] using list_ind3; simpl.
  - constructor.
  - pose proof (Z_of_byte_range a). repeat constructor; unfold is_sextet; Z.div_mod_to_equations; lia.
  - pose proof (Z_of_byte_range a). pose proof (Z_of_byte_range b).
    repeat constructor; unfold is_sextet; Z.div_mod_to_equations; lia.
  - pose proof (Z_of_byte_range a). pose proof (Z_of_byte_range b). pose proof (Z_of_byte_range c).
    repeat (constructor; [unfold is_sextet; Z.div_mod_to_equations; lia|]). exact IH.
Qed.

Lemma encode_chars (bs : Buffer) :
  chars (encode bs) = map char_of_sextet (all_sextets bs) ++ repeat "="%char (padding bs).
Proof.
  induction bs as [|a|a b|a b c l IH] using list_ind3.
  - reflexivity.
  - simpl. rewrite Z.div_0_l by lia. rewrite Z.add_0_r. reflexivity.
  - simpl. rewrite Z.div_0_l by lia. rewrite Z.add_0_r. reflexivity.
  - change (chars (encode (a :: b :: c :: l)))
      with (map char_of_sextet (sextets3 (Z_of_byte a) (Z_of_byte b) (Z_of_byte c)) ++ chars (encode l)).
    rewrite IH. cbn [all_sextets]. rewrite map_app, <- app_assoc.
    replace (padding (a :: b :: c :: l)) with (padding l); [reflexivity|].
    unfold padding. cbn [length].
    replace (S (S (S (length l)))) with (length l + 1 * 3)%nat by lia.
    rewrite Nat.Div0.mod_add. reflexivity.
Qed.

Lemma byte_of_Z_eq (x : Z) (b : byte) : x = Z_of_byte b -> byte_of_Z x = b.
Proof. intros ->. apply byte_of_Z_of_byte. Qed.

Lemma bytes_of_all_sextets (bs : Buffer) : bytes_of_sextets (all_sextets bs) = bs.
Proof.
  induction bs as [|a|a b|a b c l IH] using list_ind3.
  - reflexivity.
  - cbn [all_sextets bytes_of_sextets]. f_equal.
    apply byte_of_Z_eq. pose proof (Z_of_byte_range a). Z.div_mod_to_equations. lia.
  - cbn [all_sextets bytes_of_sextets].
    pose proof (Z_of_byte_range a). pose proof (Z_of_byte_range b).
    f_equal; [|f_equal]; apply byte_of_Z_eq; Z.div_mod_to_equations; lia.
  - cbn [all_sextets sextets3 app bytes_of_sextets]. rewrite IH.
    pose proof (Z_of_byte_range a). pose proof (Z_of_byte_range b). pose proof (Z_of_byte_range c).
    f_equal; [|f_equal; [|f_equal]]; apply byte_of_Z_eq; Z.div_mod_to_equations; lia.
Qed.

Import Token.

Lemma sextet_ok_all (v : Z) : is_sextet v -> sextet_ok v = true.
Proof.
  intros Hv.
  assert (H : forallb sextet_ok (map Z.of_nat (seq 0 64)) = true) by (vm_compute; reflexivity).
  rewrite forallb_forall in H. apply H.
  apply in_map_iff. exists (Z.to_nat v). unfold is_sextet in Hv. split; [lia|].
  apply in_seq. lia.
Qed.

Lemma strip_trailing_eq_repeat (k : nat) : strip_trailing_eq (repeat "="%char k) = [].
Proof. induction k as [|k IH]; simpl; [reflexivity|]. rewrite IH. reflexivity. Qed.

Lemma strip_trailing_eq_app (l : list ascii) (k : nat) :
  Forall (fun c => Ascii.eqb c "="%char = false) l ->
  strip_trailing_eq (l ++ repeat "="%char k) = l.
Proof.
  induction 1 as [|c l Hc Hl IH]; simpl.
  - apply strip_trailing_eq_repeat.
  - rewrite IH. rewrite Hc. destruct l; reflexivity.
Qed.

Lemma chars_str (l : list ascii) : chars (str l) = l.
Proof. apply list_ascii_of_string_of_list_ascii. Qed.

Lemma str_chars (s : string) : str (chars s) = s.
Proof. apply string_of_list_ascii_of_string. Qed.

Lemma map_to_url_repeat (k : nat) :
  map to_url_char (repeat "="%char k) = repeat "="%char k.
Proof. induction k as [|k IH]; [reflexivity|]. cbn [repeat map]. rewrite IH. reflexivity. Qed.

Lemma b64url_chars (bs : Buffer) : chars (b64url bs) = map url_char (all_sextets bs).
Proof.
  unfold b64url. rewrite chars_str, encode_chars, map_app.
  rewrite map_to_url_repeat.
  rewrite map_map. apply strip_trailing_eq_app.
  apply Forall_map. eapply Forall_impl; [|apply all_sextets_range].
  intros v Hv. apply sextet_ok_all in Hv. unfold sextet_ok in Hv.
  apply andb_prop in Hv as [Hv _]. apply andb_prop in Hv as [Hv _]. apply andb_prop in Hv as [_ Hv].
  apply negb_true_iff in Hv. exact Hv.
Qed.

Lemma sextets_padded (l : list Z) (k : nat) :
  Forall is_sextet l ->
  sextets (str (map from_url_char (map url_char l) ++ repeat "="%char k)) = l.
Proof.
  induction 1 as [|v l Hv Hl IH].
  - destruct k; reflexivity.
  - apply sextet_ok_all in Hv. unfold sextet_ok in Hv.
    apply andb_prop in Hv as [Hv _]. apply andb_prop in Hv as [Hv Hne]. apply andb_prop in Hv as [Hv _].
    apply negb_true_iff in Hne.
    cbn [map app str string_of_list_ascii sextets]. fold (str (map from_url_char (map url_char l) ++ repeat "="%char k)).
    rewrite Hne.
    destruct (unbase64 (from_url_char (url_char v))) as [w|]; [|discriminate].
    apply Z.eqb_eq in Hv. subst w. rewrite IH. reflexivity.
Qed.

(** Decoding what [b64url] wrote gives the bytes back. *)
Lemma fromB64url_b64url (bs : Buffer) : fromB64url (b64url bs) = bs.
Proof.
  unfold fromB64url, decode. rewrite b64url_chars.
  rewrite sextets_padded by apply all_sextets_range.
  apply bytes_of_all_sextets.
Qed.

(** [b64url] writes no dot. *)
Lemma b64url_no_dot (bs : Buffer) :
  Forall (fun c => Ascii.eqb c "."%char = false) (chars (b64url bs)).
Proof.
  rewrite b64url_chars. apply Forall_map. eapply Forall_impl; [|apply all_sextets_range].
  intros v Hv. apply sextet_ok_all in Hv. unfold sextet_ok in Hv.
  apply andb_prop in Hv as [_ Hv]. apply negb_true_iff in Hv. exact Hv.
Qed.
End Base64Facts.

Import Base64Facts.

(** ** The compact token on the wire *)

Lemma length_hmac (key msg : Buffer) : length (Sha256.hmac key msg) = 32%nat.
Proof. unfold Sha256.hmac, Sha256.sha256. reflexivity. Qed.

Lemma Buffer_equals_eq (a b : Buffer) : Buffer_equals a b = true <-> a = b.
Proof.
  revert b. induction a as [|x a IH]; intros [|y b]; simpl; split; try congruence; try discriminate.
  - intros H. apply andb_prop in H as [Hx Hab]. apply Byte.byte_dec_bl in Hx. apply IH in Hab. congruence.
  - intros H. injection H as -> ->. apply andb_true_intro. split; [apply Byte.byte_dec_lb; reflexivity | apply IH; reflexivity].
Qed.

Lemma Buffer_equals_refl (a : Buffer) : Buffer_equals a a = true.
Proof. apply Buffer_equals_eq. reflexivity. Qed.

Lemma length_tag (key msg : Buffer) : length (subarray (Sha256.hmac key msg) 0 16) = 16%nat.
Proof. unfold subarray. rewrite length_firstn, length_skipn, length_hmac. reflexivity. Qed.

Ltac explode l H :=
  repeat (destruct l as [|? l]; [discriminate H|]; cbn [length] in H; apply Nat.succ_inj in H);
  destruct l; [clear H|discriminate H].

Lemma u32_value (n : Z) :
  forall b0 b1 b2 b3, u32 n = [b0; b1; b2; b3] ->
  Z_of_byte b0 * 2 ^ 24 + Z_of_byte b1 * 2 ^ 16 + Z_of_byte b2 * 2 ^ 8 + Z_of_byte b3 = ToUint32 n.
Proof.
  intros b0 b1 b2 b3 H.
  pose proof (readUInt32BE_u32 n [] []) as R. rewrite app_nil_r in R. cbn [app length] in R.
  rewrite H in R. unfold readUInt32BE in R. cbn [skipn] in R. congruence.
Qed.

Local Opaque Sha256.hmac.

Lemma verifyCompactToken_wire (token : string) (key : Buffer) (instanceId : string) (tv nowSec : Z) :
  Token.verifyCompactToken token key instanceId tv nowSec
  = verify_wire (Token.fromB64url token) key instanceId tv nowSec.
Proof.
  unfold Token.verifyCompactToken, Token.verifyCompactToken_body, verify_wire.
  cbv zeta. set (wire := Token.fromB64url token). clearbody wire.
  destruct (length wire =? 34)%nat eqn:Hlen;
    change (1 + 1 + 4 + 4 + 8 + 16)%nat with 34%nat; rewrite Hlen; [|reflexivity].
  apply Nat.eqb_eq in Hlen. explode wire Hlen.
  unfold expected_tag, mac_input, field8, field32.
  cbn [readUInt8 readUInt32BE nth_error skipn bind catch negb subarray firstn Nat.sub app].
  repeat match goal with |- context [if ?c then _ else _] => destruct c; try reflexivity end.
Qed.


(** C5.  [verifyCompactToken] recomputes the truncated tag over the fields
    the token carries and compares it with the 16 bytes at the end of the
    token: the result is the failure [mac] exactly when the token decodes to
    34 bytes of version 1 and the two tags differ.  The comparison is
    [expected.equals(sig)] ([Buffer_equals]); [timingSafeEqual], which the
    verifier of the signed session tokens calls, is not used here. *)
Theorem verifyCompactToken_mac_iff (token : string) (key : Buffer) (instanceId : string) (tokenVersion nowSec : Z) :
  let wire := Token.fromB64url token in
  Token.verifyCompactToken token key instanceId tokenVersion nowSec = CompactFail "mac"
  <-> (length wire = 34%nat /\ field8 wire 0 = 1
       /\ expected_tag wire key instanceId tokenVersion <> subarray wire 18 34).
Proof.
  intros wire. rewrite verifyCompactToken_wire. fold wire. unfold verify_wire.
  destruct (length wire =? 34)%nat eqn:Hlen; cbn [negb].
  2: { apply Nat.eqb_neq in Hlen. split; [discriminate | tauto]. }
  apply Nat.eqb_eq in Hlen.
  destruct (field8 wire 0 =? 1) eqn:Hver; cbn [negb].
  2: { apply Z.eqb_neq in Hver. split; [discriminate | tauto]. }
  apply Z.eqb_eq in Hver.
  destruct (Buffer_equals (expected_tag wire key instanceId tokenVersion) (subarray wire 18 34)) eqn:Heq;
    cbn [negb].
  - apply Buffer_equals_eq in Heq.
    split; [|tauto].
    repeat match goal with |- context [if ?c then _ else _] => destruct c end; discriminate.
  - split; [intros _|reflexivity]. repeat split; try assumption.
    intros E. apply Buffer_equals_eq in E. congruence.
Qed.




(** ** JSON texts read back *)

Module JsonFacts.
Import Json JsonParse.

Lemma string_body_step (fuel : nat) (c : ascii) (rest : list ascii) :
  string_body (S fuel) (c :: rest)
  = if Ascii.eqb c dquote then Some ([], rest)
    else if Ascii.eqb c backslash then
      match rest with
      | [] => None
      | e :: rest1 =>
          if Ascii.eqb e "u"%char then
            match rest1 with
            | h1 :: h2 :: h3 :: h4 :: rest2 =>
                match hex4_val h1 h2 h3 h4 with
                | None => None
                | Some u =>
                    let '(cp, rest3) :=
                      if is_high_surrogate u then
                        match read_low_surrogate rest2 with
                        | Some (lo, r) => (65536 + (u - 55296) * 1024 + (lo - 56320), r)
                        | None => (u, rest2)
                        end
                      else (u, rest2) in
                    match string_body fuel rest3 with
                    | Some (body, after) => Some (utf8 cp ++ body, after)
                    | None => None
                    end
                end
            | _ => None
            end
          else
            match simple_escape e with
            | None => None
            | Some x =>
                match string_body fuel rest1 with
                | Some (body, after) => Some (x :: body, after)
                | None => None
                end
            end
      end
    else if code c <? 32 then None
    else
      match string_body fuel rest with
      | Some (body, after) => Some (c :: body, after)
      | None => None
      end.
Proof. reflexivity. Qed.

Lemma string_body_escape_char (c : ascii) (fuel : nat) (tail body after : list ascii) :
  string_body fuel tail = Some (body, after) ->
  string_body (S fuel) (escape_char c ++ tail) = Some (c :: body, after).
Proof.
  intros H.
  destruct c as [[] [] [] [] [] [] [] []];
    match goal with
    | |- context [escape_char ?c] =>
        let e := eval vm_compute in (escape_char c) in change (escape_char c) with e
    end;
    cbn [app]; rewrite string_body_step; cbv -[string_body]; rewrite H; reflexivity.
Qed.

Lemma length_escape_char (c : ascii) : (1 <= length (escape_char c))%nat.
Proof. destruct c as [[] [] [] [] [] [] [] []]; vm_compute; lia. Qed.

Lemma length_escaped (cs : list ascii) : (length cs <= length (flat_map escape_char cs))%nat.
Proof.
  induction cs as [|c cs IH]; [reflexivity|].
  cbn [flat_map length]. rewrite length_app. pose proof (length_escape_char c). lia.
Qed.

Lemma string_body_quoted (cs : list ascii) (n : nat) (rest : list ascii) :
  (length cs < n)%nat ->
  string_body n (flat_map escape_char cs ++ dquote :: rest) = Some (cs, rest).
Proof.
  revert n. induction cs as [|c cs IH]; intros n Hn; (destruct n as [|n]; [lia|]).
  - reflexivity.
  - cbn [flat_map]. rewrite <- app_assoc. apply string_body_escape_char.
    apply IH. cbn [length] in Hn. lia.
Qed.

(** *** Numbers *)

Lemma read_uint_digits (d : Decimal.uint) (rest : list ascii) :
  not_digit_head rest -> read_uint (digits_of_uint d ++ rest) = (d, rest).
Proof.
  intros H. induction d as [|d IH|d IH|d IH|d IH|d IH|d IH|d IH|d IH|d IH|d IH];
    cbn [digits_of_uint app].
  - destruct rest as [|c rest]; [reflexivity|]. cbn [read_uint]. cbn in H. rewrite H. reflexivity.
  - cbn [read_uint]. change (digit_cons "0"%char) with (Some Decimal.D0). rewrite IH. reflexivity.
  - cbn [read_uint]. change (digit_cons "1"%char) with (Some Decimal.D1). rewrite IH. reflexivity.
  - cbn [read_uint]. change (digit_cons "2"%char) with (Some Decimal.D2). rewrite IH. reflexivity.
  - cbn [read_uint]. change (digit_cons "3"%char) with (Some Decimal.D3). rewrite IH. reflexivity.
  - cbn [read_uint]. change (digit_cons "4"%char) with (Some Decimal.D4). rewrite IH. reflexivity.
  - cbn [read_uint]. change (digit_cons "5"%char) with (Some Decimal.D5). rewrite IH. reflexivity.
  - cbn [read_uint]. change (digit_cons "6"%char) with (Some Decimal.D6). rewrite IH. reflexivity.
  - cbn [read_uint]. change (digit_cons "7"%char) with (Some Decimal.D7). rewrite IH. reflexivity.
  - cbn [read_uint]. change (digit_cons "8"%char) with (Some Decimal.D8). rewrite IH. reflexivity.
  - cbn [read_uint]. change (digit_cons "9"%char) with (Some Decimal.D9). rewrite IH. reflexivity.
Qed.

Lemma to_uint_normal (m : N) : Decimal.unorm (N.to_uint m) = N.to_uint m.
Proof.
  rewrite <- (DecimalN.Unsigned.of_to m) at 2. symmetry. apply DecimalN.Unsigned.to_of.
Qed.

Lemma digits_head (d : Decimal.uint) :
  d <> Decimal.Nil ->
  exists c l, digits_of_uint d = c :: l /\ is_digit c = true.
Proof.
  destruct d; intros H; try congruence; cbn [digits_of_uint]; eexists; eexists; split; reflexivity.
Qed.

Lemma number_printed (n : Z) (rest : list ascii) :
  delimited rest -> number (Number_toString n ++ rest) = Some (n, rest).
Proof.
  intros Hd.
  assert (Hnd : not_digit_head rest).
  { destruct rest as [|c rest]; [exact I|]. cbn in Hd |- *. destruct Hd as [-> | [-> | ->]]; reflexivity. }
  assert (Htail : forall d (v : Decimal.uint -> Z), Decimal.unorm d = d ->
            (let '(d', rest') := read_uint (digits_of_uint d ++ rest) in
             if negb (if Decimal.uint_eq_dec d' (Decimal.unorm d') then true else false) then None
             else match rest' with
                  | c :: _ =>
                      if Ascii.eqb c "."%char || Ascii.eqb c "e"%char || Ascii.eqb c "E"%char then None
                      else Some (v d', rest')
                  | [] => Some (v d', rest')
                  end) = Some (v d, rest)).
  { intros d v Hnorm. rewrite read_uint_digits by exact Hnd.
    destruct (Decimal.uint_eq_dec d (Decimal.unorm d)) as [_|Hne]; [|congruence].
    cbn [negb]. destruct rest as [|c rest]; [reflexivity|].
    cbn in Hd. destruct Hd as [-> | [-> | ->]]; reflexivity. }
  unfold Number_toString, number.
  destruct (n <? 0) eqn:Hneg.
  - apply Z.ltb_lt in Hneg. cbn [app].
    change (Ascii.eqb "-"%char "-"%char) with true. cbv iota beta.
    rewrite (Htail _ (fun d => - Z.of_N (N.of_uint d))) by apply to_uint_normal.
    rewrite DecimalN.Unsigned.of_to. f_equal. f_equal. lia.
  - apply Z.ltb_ge in Hneg.
    destruct (digits_head (N.to_uint (Z.to_N n))) as (c & l & E & Hc).
    { rewrite <- to_uint_normal. apply DecimalFacts.unorm_nonnil. }
    assert (Hminus : Ascii.eqb c "-"%char = false).
    { destruct (Ascii.eqb_spec c "-"%char) as [->|]; [discriminate Hc | reflexivity]. }
    rewrite E. cbn [app]. rewrite Hminus. cbv iota beta.
    change (c :: l ++ rest) with ((c :: l) ++ rest). rewrite <- E.
    rewrite (Htail _ (fun d => Z.of_N (N.of_uint d))) by apply to_uint_normal.
    rewrite DecimalN.Unsigned.of_to. f_equal. f_equal. lia.
Qed.

Lemma Number_toString_head (n : Z) :
  exists c l, Number_toString n = c :: l /\ number_start c = true.
Proof.
  unfold Number_toString. destruct (n <? 0).
  - eexists; eexists; split; reflexivity.
  - destruct (digits_head (N.to_uint (Z.to_N n))) as (c & l & E & Hc).
    { rewrite <- to_uint_normal. apply DecimalFacts.unorm_nonnil. }
    exists c, l. split; [exact E|]. unfold number_start. rewrite Hc. apply orb_true_r.
Qed.

(** *** Values *)

Section Induction.
Variable P : json -> Prop.
Hypothesis Hnull : P JNull.
Hypothesis Hbool : forall b, P (JBool b).
Hypothesis Hnum : forall n, P (JNum n).
Hypothesis Hstr : forall s, P (JStr s).
Hypothesis Harr : forall items, Forall P items -> P (JArr items).
Hypothesis Hobj : forall props, Forall (fun kv => P (snd kv)) props -> P (JObj props).

(** Induction on a value with the property at hand for every item of an
    array and every member of an object. *)
Lemma json_nested_ind (v : json) : P v.
Proof.
  revert v. fix IH 1. intros [| b | n | s | items | props].
  - exact Hnull.
  - apply Hbool.
  - apply Hnum.
  - apply Hstr.
  - apply Harr. induction items as [|x l IHl]; constructor; [apply IH | exact IHl].
  - apply Hobj. induction props as [|kv l IHl]; constructor; [apply IH | exact IHl].
Qed.
End Induction.

Lemma value_start_facts (c : ascii) :
  value_start c = true ->
  is_ws c = false /\ Ascii.eqb c "]"%char = false /\ Ascii.eqb c "}"%char = false.
Proof. destruct c as [[] [] [] [] [] [] [] []]; vm_compute; intros H; try discriminate H; auto. Qed.

Lemma stringify_head (v : json) :
  exists c l, stringify_chars v = c :: l /\ value_start c = true.
Proof.
  destruct v as [|[]|n|s|items|props]; cbn [stringify_chars];
    try (eexists; eexists; split; reflexivity).
  destruct (Number_toString_head n) as (c & l & E & Hc). exists c, l. split; [exact E|].
  unfold value_start. rewrite Hc. reflexivity.
Qed.

Lemma skip_ws_start (c : ascii) (l : list ascii) : is_ws c = false -> skip_ws (c :: l) = c :: l.
Proof. intros H. cbn [skip_ws]. rewrite H. reflexivity. Qed.

Lemma skip_ws_delimited (rest : list ascii) : delimited rest -> skip_ws rest = rest.
Proof.
  destruct rest as [|c rest]; [reflexivity|]. intros [-> | [-> | ->]]; reflexivity.
Qed.

Lemma value_number (f : nat) (c : ascii) (l : list ascii) :
  number_start c = true ->
  value (S f) (c :: l) = match number (c :: l) with
                         | Some (n, after) => Some (JNum n, after)
                         | None => None
                         end.
Proof.
  destruct c as [[] [] [] [] [] [] [] []]; intros H; try discriminate H; reflexivity.
Qed.

Lemma value_string (f : nat) (rest : list ascii) :
  value (S f) (dquote :: rest) = match string_body (S (length rest)) rest with
                                 | Some (body, after) => Some (JStr (str body), after)
                                 | None => None
                                 end.
Proof. reflexivity. Qed.

Lemma value_array (f : nat) (rest : list ascii) :
  value (S f) ("["%char :: rest)
  = match skip_ws rest with
    | c' :: rest' =>
        if Ascii.eqb c' "]"%char then Some (JArr [], rest')
        else match elements f rest with
             | Some (items, after) => Some (JArr items, after)
             | None => None
             end
    | [] => None
    end.
Proof. reflexivity. Qed.

Lemma value_object (f : nat) (rest : list ascii) :
  value (S f) ("{"%char :: rest)
  = match skip_ws rest with
    | c' :: rest' =>
        if Ascii.eqb c' "}"%char then Some (JObj [], rest')
        else match members f rest with
             | Some (props, after) =>
                 Some (JObj (fold_left (fun acc kv => obj_set acc (fst kv) (snd kv)) props []), after)
             | None => None
             end
    | [] => None
    end.
Proof. reflexivity. Qed.

Lemma elements_step (f : nat) (s : list ascii) :
  elements (S f) s
  = match value f s with
    | None => None
    | Some (v, after) =>
        match skip_ws after with
        | c :: rest =>
            if Ascii.eqb c ","%char then
              match elements f rest with
              | Some (vs, after') => Some (v :: vs, after')
              | None => None
              end
            else if Ascii.eqb c "]"%char then Some ([v], rest)
            else None
        | [] => None
        end
    end.
Proof. reflexivity. Qed.

Lemma members_step (f : nat) (rest : list ascii) :
  members (S f) (dquote :: rest)
  = match string_body (S (length rest)) rest with
    | None => None
    | Some (key, after_key) =>
        match skip_ws after_key with
        | colon :: rest1 =>
            if Ascii.eqb colon ":"%char then
              match value f rest1 with
              | None => None
              | Some (v, after) =>
                  match skip_ws after with
                  | c :: rest2 =>
                      if Ascii.eqb c ","%char then
                        match members f rest2 with
                        | Some (kvs, after') => Some ((str key, v) :: kvs, after')
                        | None => None
                        end
                      else if Ascii.eqb c "}"%char then Some ([(str key, v)], rest2)
                      else None
                  | [] => None
                  end
              end
            else None
        | [] => None
        end
    end.
Proof. reflexivity. Qed.

Lemma elements_printed (x : json) (xs : list json) (f : nat) (rest : list ascii) :
  Forall reads_back (x :: xs) ->
  (list_sum (map (fun x => S (need x)) (x :: xs)) <= f)%nat ->
  elements f (join [","%char] (map stringify_chars (x :: xs)) ++ "]"%char :: rest)
  = Some (x :: xs, rest).
Proof.
  revert x f. induction xs as [|y ys IH]; intros x f Hall Hf.
  - simpl in Hf. cbn [map join]. destruct f as [|f]; [lia|].
    rewrite elements_step. inversion Hall as [|? ? Hx _]; subst.
    rewrite Hx by (lia || (cbn; auto)). reflexivity.
  - inversion Hall as [|? ? Hx Hrest]; subst.
    simpl in Hf. destruct f as [|f]; [lia|].
    change (join [","%char] (map stringify_chars (x :: y :: ys)))
      with (stringify_chars x ++ [","%char] ++ join [","%char] (map stringify_chars (y :: ys))).
    rewrite <- !app_assoc. rewrite elements_step.
    rewrite Hx by (lia || (cbn; auto)). cbn [app skip_ws].
    change (is_ws ","%char) with false. cbv iota.
    change (Ascii.eqb ","%char ","%char) with true. cbv iota.
    rewrite IH by (assumption || (simpl; lia)). reflexivity.
Qed.

Lemma members_printed (x : string * json) (xs : list (string * json)) (f : nat) (rest : list ascii) :
  Forall (fun kv => reads_back (snd kv)) (x :: xs) ->
  (list_sum (map (fun kv => S (need (snd kv))) (x :: xs)) <= f)%nat ->
  members f (join [","%char] (map member_chars (x :: xs)) ++ "}"%char :: rest)
  = Some (x :: xs, rest).
Proof.
  revert x f. induction xs as [|y ys IH]; intros [k v] f Hall Hf.
  - simpl in Hf. cbn [map join]. destruct f as [|f]; [lia|].
    inversion Hall as [|? ? Hx _]; subst. cbn [snd] in Hx.
    unfold member_chars, quote. cbn [fst snd app]. rewrite <- !app_assoc. cbn [app].
    rewrite members_step.
    rewrite string_body_quoted by (rewrite length_app; pose proof (length_escaped (chars k)); lia).
    cbn [skip_ws]. change (is_ws ":"%char) with false. cbv iota.
    change (Ascii.eqb ":"%char ":"%char) with true. cbv iota.
    rewrite Hx by (lia || (cbn; auto)). rewrite str_chars. reflexivity.
  - inversion Hall as [|? ? Hx Hrest]; subst. cbn [snd] in Hx.
    simpl in Hf. destruct f as [|f]; [lia|].
    change (join [","%char] (map member_chars ((k, v) :: y :: ys)))
      with (member_chars (k, v) ++ [","%char] ++ join [","%char] (map member_chars (y :: ys))).
    unfold member_chars at 1, quote. cbn [fst snd app]. rewrite <- !app_assoc. cbn [app].
    rewrite members_step.
    rewrite string_body_quoted by (rewrite length_app; pose proof (length_escaped (chars k)); lia).
    cbn [skip_ws]. change (is_ws ":"%char) with false. cbv iota.
    change (Ascii.eqb ":"%char ":"%char) with true. cbv iota.
    rewrite Hx by (lia || (cbn; auto)). cbn [app skip_ws].
    change (is_ws ","%char) with false. cbv iota.
    change (Ascii.eqb ","%char ","%char) with true. cbv iota.
    rewrite IH by (assumption || (simpl; lia)). rewrite str_chars. reflexivity.
Qed.

Lemma obj_set_fresh (props : list (string * json)) (k : string) (v : json) :
  existsb (String.eqb k) (map fst props) = false -> obj_set props k v = props ++ [(k, v)].
Proof.
  induction props as [|[k' v'] props IH]; cbn [map fst existsb obj_set app]; [reflexivity|].
  intros H. apply orb_false_elim in H as [Hk Hrest].
  rewrite String.eqb_sym, Hk. rewrite IH by exact Hrest. reflexivity.
Qed.

Lemma existsb_app_false {A : Type} (f : A -> bool) (l1 l2 : list A) :
  existsb f l1 = false -> existsb f l2 = false -> existsb f (l1 ++ l2) = false.
Proof. intros H1 H2. rewrite existsb_app, H1, H2. reflexivity. Qed.

Lemma fold_obj_set (props acc : list (string * json)) :
  distinct (map fst props) = true ->
  forallb (fun k => negb (existsb (String.eqb k) (map fst acc))) (map fst props) = true ->
  fold_left (fun a kv => obj_set a (fst kv) (snd kv)) props acc = acc ++ props.
Proof.
  revert acc. induction props as [|[k v] props IH]; intros acc Hd Hfresh.
  - cbn. rewrite app_nil_r. reflexivity.
  - cbn [map fst distinct forallb fold_left snd] in *.
    apply andb_prop in Hd as [Hk Hd]. apply andb_prop in Hfresh as [Hka Hfresh].
    apply negb_true_iff in Hk, Hka.
    rewrite obj_set_fresh by exact Hka.
    rewrite IH; [rewrite <- app_assoc; reflexivity | exact Hd |].
    apply forallb_forall. intros k' Hin. rewrite forallb_forall in Hfresh.
    specialize (Hfresh k' Hin). apply negb_true_iff in Hfresh. apply negb_true_iff.
    rewrite map_app. apply existsb_app_false; [exact Hfresh|].
    cbn [map fst existsb]. rewrite orb_false_r.
    destruct (String.eqb_spec k' k) as [->|]; [|reflexivity].
    exfalso. rewrite <- not_true_iff_false in Hk. apply Hk.
    apply existsb_exists. exists k. split; [exact Hin | apply String.eqb_refl].
Qed.

Lemma fold_obj_set_nil (props : list (string * json)) :
  distinct (map fst props) = true ->
  fold_left (fun a kv => obj_set a (fst kv) (snd kv)) props [] = props.
Proof.
  intros H. rewrite fold_obj_set; [reflexivity | exact H |].
  apply forallb_forall. intros; reflexivity.
Qed.

Lemma well_formed_reads_back (v : json) : well_formed v = true -> reads_back v.
Proof.
  induction v as [| b | n | s | items IH | props IH] using json_nested_ind;
    intros Hwf fuel rest Hfuel Hd; (destruct fuel as [|f]; [cbn in Hfuel; lia|]).
  - reflexivity.
  - destruct b; reflexivity.
  - cbn [stringify_chars].
    destruct (Number_toString_head n) as (c & l & E & Hc).
    pose proof (number_printed n rest Hd) as Hn. rewrite E in Hn |- *. cbn [app] in Hn |- *.
    rewrite value_number by exact Hc. rewrite Hn. reflexivity.
  - cbn [stringify_chars]. unfold quote. cbn [app]. rewrite <- app_assoc. cbn [app].
    rewrite value_string.
    rewrite string_body_quoted by (rewrite length_app; pose proof (length_escaped (chars s)); lia).
    rewrite str_chars. reflexivity.
  - cbn [stringify_chars app]. rewrite <- app_assoc. cbn [app]. rewrite value_array.
    destruct items as [|x xs]; [reflexivity|].
    assert (Hall : Forall reads_back (x :: xs)).
    { cbn [well_formed] in Hwf. rewrite forallb_forall in Hwf.
      rewrite Forall_forall in IH |- *. intros y Hy. apply IH; [exact Hy|]. apply Hwf. exact Hy. }
    destruct (stringify_head x) as (c & l & E & Hc).
    apply value_start_facts in Hc as (Hws & Hb & _).
    assert (Ehead : exists l', join [","%char] (map stringify_chars (x :: xs)) ++ "]"%char :: rest = c :: l').
    { destruct xs; cbn [map join]; rewrite E; eexists; reflexivity. }
    destruct Ehead as (l' & Ehead).
    rewrite Ehead at 1. rewrite skip_ws_start by exact Hws. rewrite Hb.
    rewrite elements_printed; [reflexivity | exact Hall |].
    cbn [need] in Hfuel. lia.
  - cbn [stringify_chars app]. rewrite <- app_assoc. cbn [app]. rewrite value_object.
    destruct props as [|x xs]; [reflexivity|].
    cbn [well_formed] in Hwf. apply andb_prop in Hwf as [Hdist Hwf].
    assert (Hall : Forall (fun kv => reads_back (snd kv)) (x :: xs)).
    { rewrite forallb_forall in Hwf.
      rewrite Forall_forall in IH |- *. intros y Hy. apply IH; [exact Hy|]. apply Hwf. exact Hy. }
    assert (Ehead : exists l', join [","%char]
                                 (map (fun kv => quote (fst kv) ++ ":"%char :: stringify_chars (snd kv)) (x :: xs))
                                 ++ "}"%char :: rest = dquote :: l').
    { destruct xs; cbn [map join]; unfold quote; cbn [app]; eexists; reflexivity. }
    destruct Ehead as (l' & Ehead).
    rewrite Ehead at 1. cbn [skip_ws]. change (is_ws dquote) with false. cbv iota.
    change (Ascii.eqb dquote "}"%char) with false. cbv iota.
    change (map (fun kv => quote (fst kv) ++ ":"%char :: stringify_chars (snd kv)) (x :: xs))
      with (map member_chars (x :: xs)).
    rewrite members_printed; [|exact Hall | cbn [need] in Hfuel; lia].
    rewrite fold_obj_set_nil by exact Hdist. reflexivity.
Qed.

Lemma length_join (sep : list ascii) (ls : list (list ascii)) :
  (1 <= length sep)%nat ->
  (list_sum (map (fun l => S (length l)) ls) <= S (length (join sep ls)))%nat.
Proof.
  intros Hsep. induction ls as [|l ls IH]; [simpl; lia|].
  destruct ls as [|l' ls]; [simpl; lia|].
  change (join sep (l :: l' :: ls)) with (l ++ sep ++ join sep (l' :: ls)).
  change (list_sum (map (fun l => S (length l)) (l :: l' :: ls)))
    with (S (length l) + list_sum (map (fun l => S (length l)) (l' :: ls)))%nat.
  rewrite !length_app. lia.
Qed.

Lemma list_sum_le {A : Type} (f g : A -> nat) (l : list A) :
  Forall (fun x => f x <= g x)%nat l -> (list_sum (map f l) <= list_sum (map g l))%nat.
Proof. induction 1; simpl; lia. Qed.

Lemma need_le_length (v : json) : (need v <= length (stringify_chars v))%nat.
Proof.
  induction v as [| b | n | s | items IH | props IH] using json_nested_ind.
  - simpl; lia.
  - destruct b; simpl; lia.
  - destruct (Number_toString_head n) as (c & l & E & _). cbn [need stringify_chars]. rewrite E.
    simpl; lia.
  - cbn [need stringify_chars]. unfold quote. cbn [length]. lia.
  - cbn [need stringify_chars length]. rewrite length_app. cbn [length].
    pose proof (length_join [","%char] (map stringify_chars items) (le_n 1)) as Hj.
    rewrite map_map in Hj.
    assert (Hs : (list_sum (map (fun x => S (need x)) items)
                  <= list_sum (map (fun x => S (length (stringify_chars x))) items))%nat).
    { apply list_sum_le. eapply Forall_impl; [|exact IH]. cbn. intros; lia. }
    lia.
  - cbn [need stringify_chars length]. rewrite length_app. cbn [length].
    pose proof (length_join [","%char]
                  (map (fun kv => quote (fst kv) ++ ":"%char :: stringify_chars (snd kv)) props)
                  (le_n 1)) as Hj.
    rewrite map_map in Hj.
    assert (Hs : (list_sum (map (fun kv => S (need (snd kv))) props)
                  <= list_sum (map (fun kv => S (length (quote (fst kv) ++ ":"%char :: stringify_chars (snd kv)))) props))%nat).
    { apply list_sum_le. eapply Forall_impl; [|exact IH]. cbn. intros kv H.
      rewrite length_app. cbn [length]. lia. }
    lia.
Qed.

(** [JSON.parse(JSON.stringify(v))] is [v]. *)
Theorem parse_stringify (v : json) : well_formed v = true -> parse (stringify v) = Return v.
Proof.
  intros Hwf. unfold parse, stringify. rewrite chars_str.
  pose proof (well_formed_reads_back v Hwf (S (length (stringify_chars v))) []) as H.
  rewrite app_nil_r in H. rewrite H; [reflexivity | | exact I].
  pose proof (need_le_length v). lia.
Qed.
End JsonFacts.

Import JsonFacts.

(** ** Signed tokens *)

Lemma chars_append (a b : string) : chars (a ++ b)%string = chars a ++ chars b.
Proof.
  unfold chars. induction a as [|c a IH]; [reflexivity|].
  change (String c a ++ b)%string with (String c (a ++ b)).
  cbn [list_ascii_of_string app]. f_equal. exact IH.
Qed.

Lemma string_app_assoc (a b c : string) : (a ++ (b ++ c) = (a ++ b) ++ c)%string.
Proof.
  induction a as [|x a IH]; [reflexivity|].
  change (String x a ++ (b ++ c))%string with (String x (a ++ (b ++ c))).
  change ((String x a ++ b) ++ c)%string with (String x ((a ++ b) ++ c)).
  f_equal. exact IH.
Qed.

Lemma split_on_no_dot (l : list ascii) : no_dot l -> split_on "."%char l = [l].
Proof.
  induction 1 as [|c l Hc Hl IH]; [reflexivity|]. cbn [split_on]. rewrite Hc, IH. reflexivity.
Qed.

Lemma split_on_dot (a b : list ascii) :
  no_dot a -> split_on "."%char (a ++ "."%char :: b) = a :: split_on "."%char b.
Proof.
  induction 1 as [|c l Hc Hl IH]; cbn [app split_on].
  - reflexivity.
  - rewrite Hc, IH. reflexivity.
Qed.

Lemma String_split_token (h p s : string) :
  no_dot (chars h) -> no_dot (chars p) -> no_dot (chars s) ->
  String_split "."%char (h ++ "." ++ p ++ "." ++ s)%string = [h; p; s].
Proof.
  intros Hh Hp Hs. unfold String_split.
  rewrite !chars_append. change (chars ".") with ["."%char]. cbn [app].
  rewrite split_on_dot by exact Hh. rewrite split_on_dot by exact Hp.
  rewrite split_on_no_dot by exact Hs. cbn [map]. rewrite !str_chars. reflexivity.
Qed.

Lemma utf8_roundtrip (s : string) : Buffer_toString_utf8 (Buffer_from_utf8 s) = s.
Proof. apply string_of_list_byte_of_string. Qed.

Lemma b64uDecodeJson_encode (v : json) :
  Json.well_formed v = true -> Token.b64uDecodeJson (Token.b64uEncodeJson v) = Return v.
Proof.
  intros Hwf. unfold Token.b64uDecodeJson, Token.b64uEncodeJson.
  rewrite fromB64url_b64url, utf8_roundtrip. apply parse_stringify. exact Hwf.
Qed.

(** Objects *)
Lemma obj_get_set_same (props : list (string * json)) (k : string) (v : json) :
  obj_get (obj_set props k v) k = Some v.
Proof.
  induction props as [|[k' v'] props IH]; cbn [obj_set obj_get].
  - rewrite String.eqb_refl. reflexivity.
  - destruct (String.eqb k' k) eqn:E; cbn [obj_get].
    + rewrite String.eqb_refl. reflexivity.
    + rewrite E. exact IH.
Qed.

Lemma obj_get_set_other (props : list (string * json)) (k k' : string) (v : json) :
  k' <> k -> obj_get (obj_set props k v) k' = obj_get props k'.
Proof.
  intros Hne. induction props as [|[k0 v0] props IH]; cbn [obj_set obj_get].
  - destruct (String.eqb_spec k k'); [congruence | reflexivity].
  - destruct (String.eqb_spec k0 k) as [->|Hk0]; cbn [obj_get].
    + destruct (String.eqb_spec k k'); [congruence | reflexivity].
    + destruct (String.eqb k0 k'); [reflexivity | exact IH].
Qed.

Lemma keys_obj_set (props : list (string * json)) (k : string) (v : json) (k' : string) :
  existsb (String.eqb k') (map fst (obj_set props k v))
  = existsb (String.eqb k') (map fst props) || String.eqb k' k.
Proof.
  induction props as [|[k0 v0] props IH]; cbn [obj_set map fst existsb].
  - rewrite orb_false_r. reflexivity.
  - destruct (String.eqb_spec k0 k) as [->|Hne]; cbn [map fst existsb].
    + destruct (String.eqb k' k); cbn; [reflexivity|]. rewrite orb_false_r. reflexivity.
    + rewrite IH. rewrite orb_assoc. reflexivity.
Qed.

Lemma distinct_obj_set (props : list (string * json)) (k : string) (v : json) :
  Json.distinct (map fst props) = true -> Json.distinct (map fst (obj_set props k v)) = true.
Proof.
  induction props as [|[k0 v0] props IH]; cbn [obj_set map fst Json.distinct]; [reflexivity|].
  intros H. apply andb_prop in H as [Hk0 Hd].
  destruct (String.eqb_spec k0 k) as [->|Hne]; cbn [map fst Json.distinct].
  - rewrite Hk0, Hd. reflexivity.
  - rewrite keys_obj_set. apply negb_true_iff in Hk0. rewrite Hk0. cbn [orb].
    destruct (String.eqb_spec k0 k); [contradiction|]. cbn [negb andb]. apply IH. exact Hd.
Qed.

Lemma well_formed_obj_set (props : list (string * json)) (k : string) (v : json) :
  Json.well_formed (JObj props) = true -> Json.well_formed v = true ->
  Json.well_formed (JObj (obj_set props k v)) = true.
Proof.
  cbn [Json.well_formed]. intros H Hv. apply andb_prop in H as [Hd Hall].
  apply andb_true_intro. split; [apply distinct_obj_set; exact Hd|].
  clear Hd. induction props as [|[k0 v0] props IH]; cbn [obj_set forallb snd].
  - rewrite Hv. reflexivity.
  - cbn [forallb snd] in Hall. apply andb_prop in Hall as [H0 Hall].
    destruct (String.eqb k0 k); cbn [forallb snd].
    + rewrite Hv, Hall. reflexivity.
    + rewrite H0. apply IH. exact Hall.
Qed.

Lemma well_formed_jwt_body (claims : list (string * json)) (ttl : Z) (iss : string) (aud : option string)
    (iat : Z) :
  Json.well_formed (JObj claims) = true ->
  Json.well_formed (JObj (Token.jwt_body claims ttl iss aud iat)) = true.
Proof.
  intros H. unfold Token.jwt_body.
  destruct (0 <? ttl); destruct (Token.given aud);
    repeat (apply well_formed_obj_set; [|reflexivity]); exact H.
Qed.

(** The claims of a signed body: what [createJwtHs256] sets, and the input
    claims under every other key. *)
Lemma jwt_body_get (claims : list (string * json)) (ttl : Z) (iss : string) (aud : option string) (iat : Z) :
  let body := Token.jwt_body claims ttl iss aud iat in
  obj_get body "iat" = Some (JNum iat)
  /\ obj_get body "iss" = Some (JStr iss)
  /\ obj_get body "aud" = (if Token.given aud then Some (JStr (default "" aud)) else obj_get claims "aud")
  /\ obj_get body "exp" = (if 0 <? ttl then Some (JNum (iat + ttl)) else obj_get claims "exp")
  /\ (forall k, added_key k = false -> obj_get body k = obj_get claims k).
Proof.
  unfold Token.jwt_body.
  destruct (0 <? ttl); destruct (Token.given aud); cbv zeta;
    repeat split;
    try (intros k Hk; unfold added_key in Hk;
         repeat (apply orb_false_elim in Hk as [Hk ?]);
         repeat match goal with H : String.eqb _ _ = false |- _ => apply String.eqb_neq in H end);
    repeat first [ rewrite obj_get_set_same | rewrite obj_get_set_other by congruence ];
    reflexivity.
Qed.

Lemma jwt_header_encoded : Token.b64uDecodeJson (Token.b64uEncodeJson Token.jwt_header) = Return Token.jwt_header.
Proof. apply b64uDecodeJson_encode. reflexivity. Qed.

(** What verifying a freshly signed token comes to. *)
Lemma verify_created (key : Buffer) (claims : list (string * json)) (ttl : Z) (iss : string)
    (aud : option string) (iat now skew : Z) :
  Json.well_formed (JObj claims) = true ->
  let body := Token.jwt_body claims ttl iss aud iat in
  Token.verifyJwtHs256 (Token.createJwtHs256 key claims ttl iss aud iat) key iss aud now skew
  = if number_lt (now + skew) (obj_get body "nbf") then JwtFail "nbf"
    else if number_le (obj_get body "exp") (now - skew) then JwtFail "exp"
    else JwtOk (JObj body).
Proof.
  intros Hwf body.
  pose proof (well_formed_jwt_body claims ttl iss aud iat Hwf) as Hbody. fold body in Hbody.
  destruct (jwt_body_get claims ttl iss aud iat) as (Hiat & Hiss & Haud & Hexp & Hother).
  fold body in Hiat, Hiss, Haud, Hexp, Hother.
  unfold Token.verifyJwtHs256, Token.verifyJwtHs256_body, Token.createJwtHs256. cbv zeta.
  fold body.
  set (h := Token.b64uEncodeJson Token.jwt_header).
  set (p := Token.b64uEncodeJson (JObj body)).
  assert (Esplit : forall s, no_dot (chars s) ->
            String_split "."%char ((h ++ "." ++ p) ++ "." ++ s)%string = [h; p; s]).
  { intros s Hs.
    replace ((h ++ "." ++ p) ++ "." ++ s)%string with (h ++ "." ++ p ++ "." ++ s)%string
      by (rewrite !string_app_assoc; reflexivity).
    apply String_split_token; [apply b64url_no_dot | apply b64url_no_dot | exact Hs]. }
  rewrite Esplit by apply b64url_no_dot.
  subst h. rewrite jwt_header_encoded. cbn [bind].
  change (strict_eq_string (get_prop_opt (Some Token.jwt_header) "alg") "HS256") with true.
  change (strict_eq_string (get_prop_opt (Some Token.jwt_header) "typ") "JWT") with true.
  cbn [negb orb]. rewrite fromB64url_b64url.
  rewrite Nat.eqb_refl. cbn [negb]. unfold timingSafeEqual. rewrite Nat.eqb_refl.
  rewrite Buffer_equals_refl. cbn [bind negb].
  subst p. rewrite b64uDecodeJson_encode by exact Hbody. cbn [bind get_prop_strict get_prop].
  rewrite Hiss. cbn [strict_eq_string]. rewrite String.eqb_refl. cbn [negb].
  assert (E1 : (if negb (String.eqb iss "") then Return false else Return false)
               = (Return false : Completion bool)) by (destruct (String.eqb iss ""); reflexivity).
  rewrite E1. cbn [bind].
  assert (E2 : (if Token.given aud
                then Return (negb (Token.audOk (obj_get body "aud") (default "" aud)))
                else Return false) = (Return false : Completion bool)).
  { destruct (Token.given aud); [|reflexivity]. rewrite Haud.
    cbn [Token.audOk]. rewrite String.eqb_refl. reflexivity. }
  rewrite E2. cbn [bind].
  destruct (number_lt (now + skew) (obj_get body "nbf")); [reflexivity|].
  destruct (number_le (obj_get body "exp") (now - skew)); reflexivity.
Qed.

(** ** The structure of [verifyJwtHs256] *)

(** One step of a case analysis that follows the control flow of a body
    written with [bind], [catch] and conditionals. *)
Ltac flow_step :=
  match goal with
  | |- context [bind ?c _] =>
      lazymatch c with
      | Return _ => cbn [bind]
      | Throw _ => cbn [bind]
      | _ => let E := fresh "E" in destruct c eqn:E; cbn [bind catch]
      end
  | |- context [catch (Return _) _] => cbn [catch]
  | |- context [catch (Throw _) _] => cbn [catch]
  | |- context [if ?b then _ else _] => let E := fresh "E" in destruct b eqn:E
  end.





(** ** Conversions of numbers *)

Module JsFacts.
Import Json Js.

Lemma horner_pos (d : Decimal.uint) (p : positive) :
  horner (Z.pos p) d = Z.pos (Pos.of_uint_acc d p).
Proof.
  revert p. induction d; intros p; cbn [horner Pos.of_uint_acc]; [reflexivity|..];
    match goal with
    | |- horner ?x _ = Z.pos (Pos.of_uint_acc _ ?q) =>
        replace x with (Z.pos q) by lia; apply IHd
    end.
Qed.

Lemma horner_zero (d : Decimal.uint) : horner 0 d = Z.of_N (N.of_uint d).
Proof.
  unfold N.of_uint. induction d; cbn [horner Pos.of_uint]; [reflexivity|exact IHd|..];
    match goal with
    | |- horner ?x _ = Z.of_N (N.pos (Pos.of_uint_acc _ ?q)) =>
        change x with (Z.pos q); rewrite horner_pos; reflexivity
    end.
Qed.

Lemma read_digits_printed (d : Decimal.uint) (acc : Z) (count : nat) :
  read_digits 10 acc count (digits_of_uint d)
  = (horner acc d, (count + length (digits_of_uint d))%nat, []).
Proof.
  revert acc count.
  induction d; intros acc count; cbn [digits_of_uint horner length];
    [cbn [read_digits]; rewrite Nat.add_0_r; reflexivity|..];
    cbn [read_digits];
    match goal with
    | |- context [digit_val 10 ?c] =>
        let v := eval vm_compute in (digit_val 10 c) in change (digit_val 10 c) with v
    end;
    cbv iota beta; rewrite IHd; rewrite Nat.add_succ_r; reflexivity.
Qed.

Lemma trimStart_number (c : ascii) (l : list ascii) :
  number_start c = true -> trimStart (c :: l) = c :: l.
Proof.
  intros H. unfold trimStart. cbn [length drop_while_ws].
  assert (E : ws_len (c :: l) = 0%nat).
  { destruct c as [[] [] [] [] [] [] [] []]; try discriminate H;
      destruct l as [|? [|? ?]]; reflexivity. }
  rewrite E. reflexivity.
Qed.

Lemma hex_prefixed_digits (d : Decimal.uint) : hex_prefixed (digits_of_uint d) = None.
Proof. destruct d as [|d|d|d|d|d|d|d|d|d|d]; try reflexivity; destruct d; reflexivity. Qed.

Lemma strip_sign_digits (d : Decimal.uint) :
  strip_sign (digits_of_uint d) = (false, digits_of_uint d).
Proof. destruct d; reflexivity. Qed.

Lemma digits_nonempty (m : N) : (1 <= length (digits_of_uint (N.to_uint m)))%nat.
Proof.
  destruct (JsonFacts.digits_head (N.to_uint m)) as (c & l & E & _).
  - rewrite <- JsonFacts.to_uint_normal. apply DecimalFacts.unorm_nonnil.
  - rewrite E. cbn [length]. lia.
Qed.

(** [parseInt] of an integer is that integer. *)
Lemma parseInt_number (n : Z) : parseInt (Some (JNum n)) = Some n.
Proof.
  unfold parseInt, ToString. cbn [array_item_string].
  destruct (JsonFacts.Number_toString_head n) as (c & l & E & Hc).
  unfold parseInt_string. rewrite E, trimStart_number by exact Hc. rewrite <- E.
  unfold Number_toString. destruct (n <? 0) eqn:Hneg.
  - apply Z.ltb_lt in Hneg. cbn [strip_sign].
    change (Ascii.eqb "-"%char "-"%char) with true. cbv iota.
    rewrite hex_prefixed_digits, read_digits_printed.
    pose proof (digits_nonempty (Z.to_N (- n))) as Hlen.
    destruct (0 + length (digits_of_uint (N.to_uint (Z.to_N (- n)))))%nat eqn:Ecount; [lia|].
    rewrite horner_zero, DecimalN.Unsigned.of_to. f_equal. lia.
  - apply Z.ltb_ge in Hneg. rewrite strip_sign_digits, hex_prefixed_digits, read_digits_printed.
    pose proof (digits_nonempty (Z.to_N n)) as Hlen.
    destruct (0 + length (digits_of_uint (N.to_uint (Z.to_N n))))%nat eqn:Ecount; [lia|].
    rewrite horner_zero, DecimalN.Unsigned.of_to. f_equal. lia.
Qed.

Lemma ToUint32_number (n : Z) : Js.ToUint32 (Some (JNum n)) = n mod 2 ^ 32.
Proof. unfold Js.ToUint32, ToNumber, truncate. cbn [Z.leb Z.compare]. rewrite Z.pow_0_r, Z.mul_1_r. reflexivity. Qed.

End JsFacts.

Import JsFacts.

(** ** The cookie step of the page gate *)

Lemma createJwtHs256_split (key : Buffer) (claims : list (string * json)) (ttl : Z) (iss : string)
    (aud : option string) (iat : Z) :
  String_split "."%char (Token.createJwtHs256 key claims ttl iss aud iat)
  = [Token.b64uEncodeJson Token.jwt_header;
     Token.b64uEncodeJson (JObj (Token.jwt_body claims ttl iss aud iat));
     Token.b64url (Sha256.hmac key (Buffer_from_utf8
        (Token.b64uEncodeJson Token.jwt_header ++ "."
           ++ Token.b64uEncodeJson (JObj (Token.jwt_body claims ttl iss aud iat)))%string))].
Proof.
  unfold Token.createJwtHs256. cbv zeta.
  set (h := Token.b64uEncodeJson Token.jwt_header).
  set (p := Token.b64uEncodeJson (JObj (Token.jwt_body claims ttl iss aud iat))).
  set (s := Token.b64url _).
  replace ((h ++ "." ++ p) ++ "." ++ s)%string with (h ++ "." ++ p ++ "." ++ s)%string
    by (rewrite !string_app_assoc; reflexivity).
  apply String_split_token; apply b64url_no_dot.
Qed.


Section PasswordGate.
Variable getClientSecret : string -> Completion string.
Variable now : Z.
Variable cognito : Event -> Instance -> Webhook -> Completion CognitoResult.



End PasswordGate.

(** ** The API gate, and the entry of the page gate *)

Section ApiGate.
Variable loadInstance : string -> Completion (option Instance).
Variable loadWebhook : string -> Completion (option Webhook).
Variable getClientSecret : string -> Completion string.
Variable now now' : Z.


Lemma or_else_counter (n : Z) : Js.parseInt (Js.or_else (Some (JNum n)) (Some (JNum 0))) = Some n.
Proof.
  unfold Js.or_else. cbn [truthy]. destruct (n =? 0) eqn:E; cbn [negb].
  - apply Z.eqb_eq in E. subst n. apply parseInt_number.
  - apply parseInt_number.
Qed.


End ApiGate.

Section PasswordGateEntry.
Variable getClientSecret : string -> Completion string.
Variable now : Z.
Variable cognito : Event -> Instance -> Webhook -> Completion CognitoResult.

Lemma verifyAccessOrPasswordPage_flow (instance : Instance) (webhook : Webhook) (event : Event) :
  passwordProtected webhook = true ->
  Password.verifyAccessOrPasswordPage getClientSecret now instance webhook event
  = (let! cookieMap := Cookie.getCookieMap (cookie_header event) in
     Return (Password.password_flow getClientSecret now instance webhook (query_token event)
               (cookieMap !! Cookie.cookieNameFor (id instance)))).
Proof. intros Hp. unfold Password.verifyAccessOrPasswordPage. rewrite Hp. reflexivity. Qed.

Lemma verifyAccessOrPasswordPage_v2_flow (instance : Instance) (webhook : Webhook) (event : Event) :
  is_user webhook = false ->
  passwordProtected webhook = true ->
  Password.verifyAccessOrPasswordPage_v2 getClientSecret now cognito instance webhook event
  = (let! cookieMap := Cookie.getCookieMap (cookie_source event) in
     Return (Password.password_flow getClientSecret now instance webhook (query_token event)
               (cookieMap !! Cookie.cookieNameFor (id instance)))).
Proof.
  intros Hu Hp. unfold Password.verifyAccessOrPasswordPage_v2. fold (is_user webhook).
  rewrite Hu, Hp. reflexivity.
Qed.

Lemma legacy_step_verdict (instance : Instance) (webhook : Webhook) (qsToken : string) :
  (Password.legacy_step getClientSecret now instance webhook qsToken = GateOk
   /\ legacy_verified getClientSecret now instance webhook qsToken)
  \/ (Password.legacy_step getClientSecret now instance webhook qsToken = GateDenied PASSWORD_PAGE_HTML None
      /\ ~ legacy_verified getClientSecret now instance webhook qsToken).
Proof.
  unfold Password.legacy_step, legacy_verified.
  destruct (getClientSecret (ClientID webhook)) as [secret|] eqn:Hs; cbn [bind catch].
  2: { right. split; [reflexivity|]. intros (? & ? & ? & ? & H & _). discriminate. }
  destruct (Token.deriveSigningKey (Some secret) (authKey instance)) as [key|] eqn:Hk; cbn [bind catch].
  2: { right. split; [reflexivity|]. intros (? & ? & ? & ? & H1 & H2 & _). congruence. }
  destruct (Token.verifyCompactToken qsToken key (id instance) (Js.ToUint32 (tokenVersion instance)) now)
    as [iat exp|reason] eqn:Hv.
  - left. split; [reflexivity|]. exists secret, key, iat, exp. auto.
  - right. split; [reflexivity|]. intros (? & ? & ? & ? & H1 & H2 & H3). congruence.
Qed.

Lemma password_flow_legacy (instance : Instance) (webhook : Webhook) (qsToken : string)
    (cookieToken : option string) :
  Token.given (Some qsToken) = true -> Token.given (authKey instance) = true ->
  Password.password_flow getClientSecret now instance webhook (Some qsToken) cookieToken
  = Password.legacy_step getClientSecret now instance webhook qsToken.
Proof. intros Hq Ha. unfold Password.password_flow. rewrite Hq, Ha. reflexivity. Qed.
End PasswordGateEntry.

(** ** The CSRF check and the password exchange *)

Section CsrfFacts.
Variable URL_parse : string -> Completion URL.

Lemma normalize_absent (headers : option (list (string * string))) (k : string) :
  Forall (fun kv => Js.toLowerCase (fst kv) <> k) (default [] headers) ->
  Jwt.normalize headers !! k = None.
Proof.
  unfold Jwt.normalize. generalize (default [] headers). intros l Hl.
  assert (G : forall acc : gmap string string,
             fold_left (fun a kv => <[Js.toLowerCase (fst kv) := snd kv]> a) l acc !! k = acc !! k).
  { induction Hl as [|kv l Hkv Hl IH]; intros acc; cbn [fold_left]; [reflexivity|].
    rewrite IH. apply lookup_insert_ne. exact Hkv. }
  rewrite G. apply lookup_empty.
Qed.

Lemma validate_missing (headers : option (list (string * string))) (allowed : list string)
    (requireXRW : bool) :
  allowed <> [] ->
  Token.given (chosen_origin headers) = false ->
  Jwt.validateCSRFHeaders URL_parse headers allowed requireXRW
  = CsrfFail "Missing Origin/Referer header".
Proof.
  intros Hne Hg. unfold Jwt.validateCSRFHeaders. cbv zeta. fold (chosen_origin headers).
  destruct allowed as [|a allowed]; [congruence|]. cbn [length Nat.ltb Nat.leb].
  rewrite Hg. reflexivity.
Qed.

Lemma validate_origin (headers : option (list (string * string))) (allowed : list string)
    (requireXRW : bool) (origin : string) :
  allowed <> [] ->
  chosen_origin headers = Some origin ->
  Token.given (Some origin) = true ->
  Jwt.validateCSRFHeaders URL_parse headers allowed requireXRW
  = match URL_parse origin with
    | Throw _ => CsrfFail "Invalid Origin header"
    | Return u =>
        if existsb (fun a => Js.startsWith (origin_base u) a) allowed
        then xrw_result headers requireXRW
        else CsrfFail "Origin not allowed"
    end.
Proof.
  intros Hne Hc Hg. unfold Jwt.validateCSRFHeaders. cbv zeta. fold (chosen_origin headers).
  destruct allowed as [|a allowed]; [congruence|]. cbn [length Nat.ltb Nat.leb].
  rewrite Hc, Hg. cbn [negb]. change (default "" (Some origin)) with origin.
  unfold Jwt.origin_check. destruct (URL_parse origin) as [u|e]; cbn [bind catch]; [|reflexivity].
  fold (origin_base u).
  destruct (existsb (fun a => Js.startsWith (origin_base u) a) (a :: allowed)); reflexivity.
Qed.
End CsrfFacts.

Section PostFacts.
Variable markup : Page -> string.
Variable resolveInstanceId : option string -> Completion string.
Variable loadInstance : string -> Completion (option Instance).
Variable loadWebhook : string -> Completion (option Webhook).
Variable getClientSecret : string -> Completion string.
Variable now : Z.
Variable gate : Instance -> Webhook -> Event -> Completion GateResult.
Variable uploadUrl uploadComplete : Event -> Completion Response.
Variable submit : Instance -> Webhook -> Event -> Completion Response.

Lemma handlePostRequest_exchange (event : Event) (instance : Instance) (webhook : Webhook) :
  is_auth_exchange event = true ->
  loads resolveInstanceId loadInstance loadWebhook event instance webhook ->
  passwordProtected webhook = true ->
  Post.handlePostRequest markup resolveInstanceId loadInstance loadWebhook getClientSecret now gate
    uploadUrl uploadComplete submit event
  = Post.auth_exchange getClientSecret now instance webhook event.
Proof.
  intros Hx (iid & Hr & Hi & Hw) Hp. unfold is_auth_exchange in Hx.
  apply andb_prop in Hx as [Hx Hauth]. apply andb_prop in Hx as [Hu Hc].
  apply negb_true_iff in Hu, Hc.
  unfold Post.handlePostRequest. rewrite Hu, Hc. cbv zeta. fold (greedy_id event).
  rewrite Hr. cbn [bind]. rewrite Hi. cbn [bind Post.required]. rewrite Hw. cbn [bind Post.required].
  rewrite Hauth, Hp. reflexivity.
Qed.


End PostFacts.

(** * The properties of the specification *)

(** ** The scenario, end to end *)

(** The session token of the scenario, minted at second 1000 for ten
    minutes with revocation counter 0: the page gate lets it through at
    second 1500, denies it at second 1700 (past expiry and clock skew) and
    denies it once the counter is 1; with no clock skew the verifier gives
    the reason [exp]. *)
Example scenario_end_to_end :
  let gate counter now := Password.cookie_step Scenario.getClientSecret now (Scenario.instance_at counter)
                            Scenario.webhook (Scenario.session_token (JNum 0)) in
  gate (Some (JNum 0)) 1500 = GateOk
  /\ gate (Some (JNum 0)) 1700 = GateDenied PASSWORD_PAGE_HTML None
  /\ gate (Some (JNum 1)) 1200 = GateDenied PASSWORD_PAGE_HTML None
  /\ Token.verifyJwtHs256 (Scenario.session_token (JNum 0)) Scenario.cookieKey "tgl" (Some "wi:I1") 1700 0
     = JwtFail "exp".
Proof. vm_compute. repeat split. Qed.

(** ** Signing and verifying a session token *)

(** [fromB64url] undoes [b64url] on every buffer. *)
Theorem b64url_roundtrip (buf : Buffer) : Token.fromB64url (Token.b64url buf) = buf.
Proof. apply fromB64url_b64url. Qed.


Lemma verifyJwtHs256_exp_inv (token : string) (key : Buffer) (iss : string) (aud : option string)
    (now skew : Z) :
  Token.verifyJwtHs256 token key iss aud now skew = JwtFail "exp" ->
  exists h p s payload e,
    String_split "."%char token = [h; p; s]
    /\ Token.b64uDecodeJson p = Return payload
    /\ get_prop payload "exp" = Some (JNum e)
    /\ e <= now - skew.
Proof.
  unfold Token.verifyJwtHs256, Token.verifyJwtHs256_body.
  destruct (String_split "."%char token) as [|h [|p [|s [|x l]]]]; try discriminate.
  destruct (Token.b64uDecodeJson h) as [header|]; cbn [bind catch]; [|discriminate].
  destruct (_ || _); [discriminate|].
  destruct (if negb _ then _ else _) as [[|]|]; cbn [bind catch negb]; try discriminate.
  destruct (Token.b64uDecodeJson p) as [payload|] eqn:Hp; cbn [bind catch]; [|discriminate].
  intros H. exists h, p, s, payload.
  assert (G : exists e, get_prop payload "exp" = Some (JNum e) /\ e <= now - skew).
  { revert H. repeat flow_step; try discriminate; intros _.
    all: destruct payload as [| | | | |props]; cbn [get_prop_strict] in *; try discriminate;
      repeat match goal with H : Return _ = Return _ |- _ => injection H as <- end;
      cbn [get_prop number_le] in *; try discriminate.
    all: destruct (obj_get props "exp") as [[| |n| | |]|]; cbn [number_le] in *; try discriminate;
      exists n; split; [reflexivity | apply Z.leb_le; assumption]. }
  destruct G as (e & He & Hle). exists e. auto.
Qed.

(** C10, for claims without an [exp] of their own.  Signing with [ttlSec <= 0] adds no [exp]: when the
    claims carry none of their own, the token carries none, never fails with
    reason [exp], and (when the claims carry no [nbf] either) verifies at
    every clock reading.  In general [verifyJwtHs256] fails with [exp] only
    on a payload whose [exp] is a number not later than the clock. *)
Theorem jwt_without_ttl_never_expires (key : Buffer) (claims : list (string * json)) (ttl : Z)
    (iss : string) (aud : option string) (issuedAt : Z) :
  Json.well_formed (JObj claims) = true ->
  ttl <= 0 ->
  obj_get claims "exp" = None ->
  let token := Token.createJwtHs256 key claims ttl iss aud issuedAt in
  obj_get (Token.jwt_body claims ttl iss aud issuedAt) "exp" = None
  /\ (forall now skew, Token.verifyJwtHs256 token key iss aud now skew <> JwtFail "exp")
  /\ (obj_get claims "nbf" = None ->
      forall now skew,
        Token.verifyJwtHs256 token key iss aud now skew
        = JwtOk (JObj (Token.jwt_body claims ttl iss aud issuedAt)))
  /\ (forall anyToken anyKey iss' aud' now skew,
         Token.verifyJwtHs256 anyToken anyKey iss' aud' now skew = JwtFail "exp" ->
         exists h p s payload e,
           String_split "."%char anyToken = [h; p; s]
           /\ Token.b64uDecodeJson p = Return payload
           /\ get_prop payload "exp" = Some (JNum e)
           /\ e <= now - skew).
Proof.
  intros Hwf Httl Hexp token. subst token.
  destruct (jwt_body_get claims ttl iss aud issuedAt) as (_ & _ & _ & Hexp' & Hother).
  assert (Epos : (0 <? ttl) = false) by (apply Z.ltb_ge; exact Httl).
  rewrite Epos, Hexp in Hexp'.
  split; [exact Hexp'|]. split; [|split].
  - intros now skew. rewrite verify_created by exact Hwf. cbv zeta. rewrite Hexp'. cbn [number_le].
    destruct (number_lt _ _); discriminate.
  - intros Hnbf now skew. rewrite verify_created by exact Hwf. cbv zeta.
    rewrite Hexp', (Hother "nbf" eq_refl), Hnbf. reflexivity.
  - intros. eapply verifyJwtHs256_exp_inv. eassumption.
Qed.

(** ** Revocation in the two gates *)




(** ** The legacy token of the query string *)




(** On a password-protected webhook, when the request carries a query
    token and the instance has legacy key material, and the [Cookie] header
    can be parsed, the gate (in both revisions) allows exactly when the
    compact token verifies and otherwise denies with the password page; the
    verdict does not depend on any cookie. *)
Theorem query_token_short_circuits_cookies
    (getClientSecret : string -> Completion string) (now : Z)
    (cognito : Event -> Instance -> Webhook -> Completion CognitoResult)
    (instance : Instance) (webhook : Webhook) (event : Event) (qsToken : string) :
  passwordProtected webhook = true ->
  query_token event = Some qsToken ->
  Token.given (Some qsToken) = true ->
  Token.given (authKey instance) = true ->
  let verdict := Password.legacy_step getClientSecret now instance webhook qsToken in
  ((verdict = GateOk /\ legacy_verified getClientSecret now instance webhook qsToken)
   \/ (verdict = GateDenied PASSWORD_PAGE_HTML None
       /\ ~ legacy_verified getClientSecret now instance webhook qsToken))
  /\ (forall cookieMap,
         Cookie.getCookieMap (cookie_header event) = Return cookieMap ->
         Password.verifyAccessOrPasswordPage getClientSecret now instance webhook event = Return verdict)
  /\ (forall cookieMap,
         is_user webhook = false ->
         Cookie.getCookieMap (cookie_source event) = Return cookieMap ->
         Password.verifyAccessOrPasswordPage_v2 getClientSecret now cognito instance webhook event
         = Return verdict).
Proof.
  intros Hp Hq Hgq Hga verdict. split; [apply legacy_step_verdict|]. split.
  - intros cookieMap Hc. rewrite verifyAccessOrPasswordPage_flow by exact Hp.
    rewrite Hc, Hq. cbn [bind]. rewrite password_flow_legacy by assumption. reflexivity.
  - intros cookieMap Hu Hc. rewrite verifyAccessOrPasswordPage_v2_flow by assumption.
    rewrite Hc, Hq. cbn [bind]. rewrite password_flow_legacy by assumption. reflexivity.
Qed.

(** The query token is garbage and the cookie holds a valid session: denied. *)
Lemma query_token_short_circuits_cookies_witness :
  Password.verifyAccessOrPasswordPage Scenario.getClientSecret 1500 (Scenario.instance_at (Some (JNum 0)))
    Scenario.webhook (Scenario.request (Some "garbage") (Some (Scenario.session_cookie (JNum 0))))
  = Return (GateDenied PASSWORD_PAGE_HTML None)
  /\ Password.verifyAccessOrPasswordPage Scenario.getClientSecret 1500 (Scenario.instance_at (Some (JNum 0)))
       Scenario.webhook (Scenario.request None (Some (Scenario.session_cookie (JNum 0))))
     = Return GateOk.
Proof.
  split; [|vm_compute; reflexivity].
  destruct (query_token_short_circuits_cookies Scenario.getClientSecret 1500 Scenario.cognito
              (Scenario.instance_at (Some (JNum 0))) Scenario.webhook
              (Scenario.request (Some "garbage") (Some (Scenario.session_cookie (JNum 0))))
              "garbage" eq_refl eq_refl eq_refl eq_refl) as (_ & Hv1 & _).
  rewrite (Hv1 (<["tgl_wi_auth.I1" := Scenario.session_token (JNum 0)]> ∅)).
  - vm_compute. reflexivity.
  - vm_compute. reflexivity.
Defined.

(** C4.  The gate parses the [Cookie] header before it looks at the query
    token, and outside its [try] blocks.  On a request whose query token
    verifies and whose [Cookie] header is [theme=%], it therefore neither
    allows nor denies: [decodeURIComponent] throws [URIError] out of the gate.
    The API gate, which parses the same header inside its [try], answers the
    same header with a failure. *)
Lemma gate_throws_on_malformed_cookie :
  let token := Token.makeCompactToken Scenario.legacyKey "I1" 0 1000 3600 Scenario.nonce in
  let instance := Scenario.instance_at (Some (JNum 0)) in
  let event := Scenario.request (Some token) (Some "theme=%") in
  Password.verifyAccessOrPasswordPage Scenario.getClientSecret 1500 instance Scenario.webhook event
  = Throw URIError
  /\ Password.verifyAccessOrPasswordPage_v2 Scenario.getClientSecret 1500 Scenario.cognito instance
       Scenario.webhook event
     = Throw URIError
  /\ Password.legacy_step Scenario.getClientSecret 1500 instance Scenario.webhook token = GateOk
  /\ Jwt.verifyJWTForAPI (Scenario.loadInstance (Some (JNum 0))) Scenario.loadWebhook
       Scenario.getClientSecret 1500 1500 event "I1"
     = ApiFail "Internal error".
Proof. cbv zeta. repeat split; vm_compute; reflexivity. Qed.

(** The compact token of the scenario with the first byte of its tag
    changed, and with the last one changed: both fail with [mac]. *)
Example compact_tag_mismatch :
  Token.makeCompactToken Scenario.legacyKey "I1" 0 1000 3600 Scenario.nonce
  = "AQEAAAPoAAAOEAECAwQFBgcIwzkjt7P3Jl_hLSDJHJXI6A"
  /\ Token.verifyCompactToken "AQEAAAPoAAAOEAECAwQFBgcIxzkjt7P3Jl_hLSDJHJXI6A" Scenario.legacyKey "I1" 0 1500
     = CompactFail "mac"
  /\ Token.verifyCompactToken "AQEAAAPoAAAOEAECAwQFBgcIwzkjt7P3Jl_hLSDJHJXI6Q" Scenario.legacyKey "I1" 0 1500
     = CompactFail "mac".
Proof. vm_compute. repeat split. Qed.

(** ** Headers and failures of verification *)






(** C10 does not hold of every claims object: one that has an [exp] of its own
    keeps it when signed with [ttlSec = 0], and the token then fails with
    reason [exp]. *)
Lemma claims_exp_survives_signing :
  obj_get (Token.jwt_body [("exp", JNum 5)] 0 "tgl" (Some "wi:I1") 1000) "exp" = Some (JNum 5)
  /\ Token.verifyJwtHs256
       (Token.createJwtHs256 Scenario.cookieKey [("exp", JNum 5)] 0 "tgl" (Some "wi:I1") 1000)
       Scenario.cookieKey "tgl" (Some "wi:I1") 1000 0
     = JwtFail "exp".
Proof. split; vm_compute; reflexivity. Qed.

Lemma jwt_without_ttl_never_expires_witness :
  Token.verifyJwtHs256
    (Token.createJwtHs256 Scenario.cookieKey [("iid", JStr "I1"); ("tv", JNum 0)] 0 "tgl" (Some "wi:I1") 1000)
    Scenario.cookieKey "tgl" (Some "wi:I1") 99999999999 0
  = JwtOk (JObj [("iid", JStr "I1"); ("tv", JNum 0); ("iat", JNum 1000); ("iss", JStr "tgl");
                 ("aud", JStr "wi:I1")]).
Proof.
  pose proof (jwt_without_ttl_never_expires Scenario.cookieKey [("iid", JStr "I1"); ("tv", JNum 0)] 0 "tgl"
                (Some "wi:I1") 1000 eq_refl) as H.
  cbv zeta in H. destruct H as (_ & _ & Hok & _).
  - discriminate.
  - reflexivity.
  - rewrite Hok; reflexivity.
Defined.

(** ** Origins and the password exchange *)

(** C8.  With a non-empty list of allowed origins, [validateCSRFHeaders]
    fails with the missing-origin error when no header is named [Origin] or
    [Referer] in any letter case; with the invalid-origin error when the
    header it reads ([Origin], or else [Referer]) does not parse as a URL;
    and with the origin-not-allowed error unless scheme and host of the
    parsed header start with one of the allowed prefixes, in which case only
    the [X-Requested-With] rule remains.  In particular
    [https://app.example.com/path] passes against the prefix
    [https://app.example.com], and [https://evil.example.com] does not. *)
Theorem csrf_origin_rules (URL_parse : string -> Completion URL)
    (headers : option (list (string * string))) (allowedOrigins : list string) (requireXRW : bool) :
  allowedOrigins <> [] ->
  let result := Jwt.validateCSRFHeaders URL_parse headers allowedOrigins requireXRW in
  (Forall (fun kv => Js.toLowerCase (fst kv) <> "origin" /\ Js.toLowerCase (fst kv) <> "referer")
          (default [] headers) ->
   result = CsrfFail "Missing Origin/Referer header")
  /\ (forall origin e,
         chosen_origin headers = Some origin -> origin <> "" ->
         URL_parse origin = Throw e ->
         result = CsrfFail "Invalid Origin header")
  /\ (forall origin u,
         chosen_origin headers = Some origin -> origin <> "" ->
         URL_parse origin = Return u ->
         (existsb (fun allowed => Js.startsWith (origin_base u) allowed) allowedOrigins = false ->
          result = CsrfFail "Origin not allowed")
         /\ (existsb (fun allowed => Js.startsWith (origin_base u) allowed) allowedOrigins = true ->
             result = xrw_result headers requireXRW))
  /\ (URL_parse "https://app.example.com/path"
      = Return {| protocol := "https:"; host := "app.example.com" |} ->
      Jwt.validateCSRFHeaders URL_parse (Some [("Origin", "https://app.example.com/path")])
        ["https://app.example.com"] false
      = CsrfOk)
  /\ (URL_parse "https://evil.example.com"
      = Return {| protocol := "https:"; host := "evil.example.com" |} ->
      Jwt.validateCSRFHeaders URL_parse (Some [("Origin", "https://evil.example.com")])
        ["https://app.example.com"] false
      = CsrfFail "Origin not allowed").
Proof.
  intros Hne result. subst result.
  assert (Hgiven : forall origin : string, origin <> "" -> Token.given (Some origin) = true).
  { intros origin H. unfold Token.given, Token.missing_or_empty. apply negb_true_iff.
    apply String.eqb_neq. exact H. }
  assert (Hexample : forall value : string,
             value <> "" -> chosen_origin (Some [("Origin", value)]) = Some value).
  { intros value Hv. unfold chosen_origin, Jwt.normalize. cbn [default]. unfold Datatypes.id.
    cbn [fold_left fst snd].
    change (Js.toLowerCase "Origin") with "origin".
    rewrite lookup_insert_eq. unfold first_given. rewrite (Hgiven value Hv). reflexivity. }
  split; [|split; [|split; [|split]]].
  - intros Habsent. apply validate_missing; [exact Hne|].
    unfold chosen_origin. rewrite !normalize_absent; [reflexivity | |].
    + eapply Forall_impl; [|exact Habsent]. cbn. tauto.
    + eapply Forall_impl; [|exact Habsent]. cbn. tauto.
  - intros origin e Hc Ho Hparse.
    rewrite (validate_origin URL_parse headers allowedOrigins requireXRW origin Hne Hc (Hgiven _ Ho)).
    rewrite Hparse. reflexivity.
  - intros origin u Hc Ho Hparse.
    rewrite (validate_origin URL_parse headers allowedOrigins requireXRW origin Hne Hc (Hgiven _ Ho)).
    rewrite Hparse. split; intros ->; reflexivity.
  - intros Hparse.
    rewrite (validate_origin URL_parse _ _ false "https://app.example.com/path");
      [| discriminate | apply Hexample; discriminate | reflexivity].
    rewrite Hparse. reflexivity.
  - intros Hparse.
    rewrite (validate_origin URL_parse _ _ false "https://evil.example.com");
      [| discriminate | apply Hexample; discriminate | reflexivity].
    rewrite Hparse. reflexivity.
Qed.

Lemma csrf_origin_rules_witness :
  Jwt.validateCSRFHeaders Scenario.URL_parse (Some [("Origin", "https://app.example.com/path")])
    ["https://app.example.com"] false
  = CsrfOk
  /\ Jwt.validateCSRFHeaders Scenario.URL_parse (Some [("Origin", "https://evil.example.com")])
       ["https://app.example.com"] false
     = CsrfFail "Origin not allowed"
  /\ Jwt.validateCSRFHeaders Scenario.URL_parse (Some [("Accept", "text/html")])
       ["https://app.example.com"] false
     = CsrfFail "Missing Origin/Referer header".
Proof.
  pose proof (csrf_origin_rules Scenario.URL_parse (Some [("Accept", "text/html")])
                ["https://app.example.com"] false) as H.
  cbv zeta in H. destruct H as (Hmissing & _ & _ & Hpass & Hevil); [discriminate|].
  split; [apply Hpass; vm_compute; reflexivity|].
  split; [apply Hevil; vm_compute; reflexivity|].
  apply Hmissing. repeat constructor; vm_compute; discriminate.
Defined.



(** * More of the program *)

(** ** The claims of a signed token *)

(** ** Signed tokens under other expectations *)

(** A token of three segments whose header is the expected one and whose
    third segment is the tag of the first two is judged by its payload. *)
Lemma verifyJwtHs256_of_parts (token : string) (key : Buffer) (iss : string) (aud : option string)
    (now skew : Z) (h p s : string) (header payload : json) :
  String_split "."%char token = [h; p; s] ->
  Token.b64uDecodeJson h = Return header ->
  header_ok header = true ->
  Token.fromB64url s = Sha256.hmac key (Buffer_from_utf8 (h ++ "." ++ p)%string) ->
  Token.b64uDecodeJson p = Return payload ->
  Token.verifyJwtHs256 token key iss aud now skew = claims_verdict payload iss aud now skew.
Proof.
  intros Hsplit Hh Hok Hsig Hp.
  unfold Token.verifyJwtHs256, Token.verifyJwtHs256_body. rewrite Hsplit, Hh. cbn [bind].
  unfold header_ok in Hok. apply andb_prop in Hok as [Ha Ht]. rewrite Ha, Ht. cbn [negb orb].
  rewrite Hsig, Nat.eqb_refl. cbn [negb]. unfold timingSafeEqual. rewrite Nat.eqb_refl, Buffer_equals_refl.
  cbn [bind negb]. rewrite Hp. cbn [bind].
  unfold claims_verdict.
  destruct payload as [|b|n|x|items|props]; cbn [get_prop_strict get_prop bind catch].
  1: { destruct (negb (String.eqb iss "")); cbn [bind catch]; [reflexivity|].
       destruct (Token.given aud); reflexivity. }
  all: destruct (negb (String.eqb iss "")); cbn [bind andb];
    try (destruct (negb (strict_eq_string _ iss)); cbn [bind catch]; [reflexivity|]);
    (destruct (Token.given aud); cbn [bind andb];
     [destruct (negb (Token.audOk _ _)); cbn [bind catch]; [reflexivity|]|]);
    (destruct (number_lt _ _); cbn [bind catch]; [reflexivity|]);
    (destruct (number_le _ _); reflexivity).
Qed.

(** What the verifier answers to a token that [createJwtHs256] wrote, under
    the key it was signed with and any expected issuer and audience. *)
Lemma verify_created_expecting (key : Buffer) (claims : list (string * json)) (ttl : Z) (iss iss' : string)
    (aud aud' : option string) (iat now skew : Z) :
  Json.well_formed (JObj claims) = true ->
  let body := Token.jwt_body claims ttl iss aud iat in
  Token.verifyJwtHs256 (Token.createJwtHs256 key claims ttl iss aud iat) key iss' aud' now skew
  = if negb (String.eqb iss' "") && negb (String.eqb iss iss') then JwtFail "iss"
    else if Token.given aud' && negb (Token.audOk (obj_get body "aud") (default "" aud'))
    then JwtFail "aud"
    else if number_lt (now + skew) (obj_get body "nbf") then JwtFail "nbf"
    else if number_le (obj_get body "exp") (now - skew) then JwtFail "exp"
    else JwtOk (JObj body).
Proof.
  intros Hwf body.
  pose proof (well_formed_jwt_body claims ttl iss aud iat Hwf) as Hbody. fold body in Hbody.
  destruct (jwt_body_get claims ttl iss aud iat) as (_ & Hiss & _).
  fold body in Hiss.
  rewrite (verifyJwtHs256_of_parts (Token.createJwtHs256 key claims ttl iss aud iat) key iss' aud' now skew
             (Token.b64uEncodeJson Token.jwt_header) (Token.b64uEncodeJson (JObj body))
             (Token.b64url (Sha256.hmac key (Buffer_from_utf8
                (Token.b64uEncodeJson Token.jwt_header ++ "." ++ Token.b64uEncodeJson (JObj body))%string)))
             Token.jwt_header (JObj body)).
  - unfold claims_verdict. cbn [get_prop]. rewrite Hiss. cbn [strict_eq_string]. reflexivity.
  - apply createJwtHs256_split.
  - apply jwt_header_encoded.
  - reflexivity.
  - apply fromB64url_b64url.
  - apply b64uDecodeJson_encode. exact Hbody.
Qed.



(** X5.  A token that [createJwtHs256] signed for an issuer and an audience is
    refused by [verifyJwtHs256], under the very key it was signed with, when
    the verifier expects another issuer (reason [iss]) or another audience
    (reason [aud]); a token signed without an audience, whose claims name
    none, is refused by a verifier that expects one. *)
Theorem jwt_issuer_and_audience_are_checked (key : Buffer) (claims : list (string * json)) (ttl : Z)
    (iss iss' : string) (aud aud' : option string) (iat now skew : Z) :
  Json.well_formed (JObj claims) = true ->
  let token := Token.createJwtHs256 key claims ttl iss aud iat in
  (iss' <> "" -> iss' <> iss -> Token.verifyJwtHs256 token key iss' aud' now skew = JwtFail "iss")
  /\ (Token.given aud' = true -> Token.given aud = true -> aud' <> aud ->
      Token.verifyJwtHs256 token key iss aud' now skew = JwtFail "aud")
  /\ (Token.given aud' = true -> Token.given aud = false -> obj_get claims "aud" = None ->
      Token.verifyJwtHs256 token key iss aud' now skew = JwtFail "aud").
Proof.
  intros Hwf token. subst token.
  destruct (jwt_body_get claims ttl iss aud iat) as (_ & _ & Haud & _).
  assert (Hsame : negb (String.eqb iss "") && negb (String.eqb iss iss) = false).
  { rewrite String.eqb_refl. cbn. apply andb_false_r. }
  split; [|split].
  - intros Hne Hdiff. rewrite verify_created_expecting by exact Hwf. cbv zeta.
    apply String.eqb_neq in Hne. rewrite Hne.
    assert (E : String.eqb iss iss' = false) by (apply String.eqb_neq; congruence).
    rewrite E. reflexivity.
  - intros Hg' Hg Hdiff. rewrite verify_created_expecting by exact Hwf. cbv zeta.
    rewrite Hsame, Hg', Haud, Hg.
    destruct aud as [a|]; [|discriminate Hg]. destruct aud' as [a'|]; [|discriminate Hg'].
    change (default "" (Some a)) with a. change (default "" (Some a')) with a'.
    cbn [andb Token.audOk].
    assert (E : String.eqb a a' = false) by (apply String.eqb_neq; congruence).
    rewrite E. reflexivity.
  - intros Hg' Hg Hnone. rewrite verify_created_expecting by exact Hwf. cbv zeta.
    rewrite Hsame, Hg', Haud, Hg, Hnone. reflexivity.
Qed.

Lemma jwt_issuer_and_audience_are_checked_witness :
  Token.verifyJwtHs256 (Scenario.session_token (JNum 0)) Scenario.cookieKey "other" (Some "wi:I1") 1500 60
  = JwtFail "iss"
  /\ Token.verifyJwtHs256 (Scenario.session_token (JNum 0)) Scenario.cookieKey "tgl" (Some "wi:I2") 1500 60
     = JwtFail "aud".
Proof.
  pose proof (jwt_issuer_and_audience_are_checked Scenario.cookieKey [("iid", JStr "I1"); ("tv", JNum 0)]
                600 "tgl" "other" (Some "wi:I1") (Some "wi:I1") 1000 1500 60 eq_refl) as H1.
  pose proof (jwt_issuer_and_audience_are_checked Scenario.cookieKey [("iid", JStr "I1"); ("tv", JNum 0)]
                600 "tgl" "tgl" (Some "wi:I1") (Some "wi:I2") 1000 1500 60 eq_refl) as H2.
  cbv zeta in H1, H2. destruct H1 as (Hiss & _). destruct H2 as (_ & Haud & _).
  split.
  - apply Hiss; discriminate.
  - apply Haud; [reflexivity | reflexivity | discriminate].
Defined.



(** ** Compact tokens and keys *)

(** ** Compact tokens without expiry, and the shape of a token *)

Lemma make_wire_unlimited (key : Buffer) (iid : string) (tv iat ttl : Z) (nonce : Buffer) :
  length nonce = 8%nat -> ttl <= 0 ->
  exists sig,
    length sig = 16%nat
    /\ Token.fromB64url (Token.makeCompactToken key iid tv iat ttl nonce)
        = [x01; x00] ++ u32 iat ++ u32 0 ++ nonce ++ sig
    /\ sig = subarray (Sha256.hmac key ([x01; x00] ++ u32 iat ++ u32 0 ++ nonce
                                          ++ Buffer_from_utf8 iid ++ u32 (ToUint32 tv))) 0 16.
Proof.
  intros Hn Httl. unfold Token.makeCompactToken. cbv zeta.
  assert (E : (0 <? ttl) = false) by (apply Z.ltb_ge; exact Httl). rewrite E.
  eexists. split; [|split; [apply fromB64url_b64url | reflexivity]].
  apply length_tag.
Qed.

Lemma verify_made_unlimited (key : Buffer) (iid : string) (tv iat ttl nowSec : Z) (nonce : Buffer) :
  length nonce = 8%nat -> ttl <= 0 ->
  Token.verifyCompactToken (Token.makeCompactToken key iid tv iat ttl nonce) key iid tv nowSec
  = CompactOk (Some (ToUint32 iat)) None.
Proof.
  intros Hn Httl. rewrite verifyCompactToken_wire.
  destruct (make_wire_unlimited key iid tv iat ttl nonce Hn Httl) as (sig & Hsig & -> & Esig).
  explode nonce Hn.
  destruct (u32 iat) as [|i0 [|i1 [|i2 [|i3 [|]]]]] eqn:Eiat; try discriminate.
  destruct (u32 0) as [|t0 [|t1 [|t2 [|t3 [|]]]]] eqn:Ettl; try discriminate.
  pose proof (u32_value iat _ _ _ _ Eiat) as Viat.
  unfold verify_wire.
  assert (Hlen : (length ([x01; x00] ++ [i0; i1; i2; i3] ++ [t0; t1; t2; t3]
                     ++ [b; b0; b1; b2; b3; b4; b5; b6] ++ sig) =? 34)%nat = true).
  { cbn [app length]. rewrite Hsig. reflexivity. }
  rewrite Hlen. cbn [negb].
  unfold expected_tag, mac_input, field8, field32.
  cbn [app readUInt8 readUInt32BE nth_error skipn subarray firstn Nat.sub].
  change (firstn 0 sig) with (@nil byte). change (skipn 0 sig) with sig.
  rewrite (@firstn_all2 _ 16 sig) by (rewrite Hsig; lia). cbn [app].
  change (byte_of_Z (Z_of_byte x01)) with x01. change (byte_of_Z (Z_of_byte x00)) with x00.
  change (Z_of_byte x01) with 1. change (Z_of_byte x00) with 0. cbn [Z.eqb Pos.eqb negb Z.land].
  unfold subarray in Esig. cbn [app Nat.sub] in Esig. rewrite <- Esig. rewrite Buffer_equals_refl. cbn [negb].
  rewrite Viat. reflexivity.
Qed.

Lemma url_char_safe (v : Z) : is_sextet v -> url_safe (url_char v) = true.
Proof.
  intros Hv.
  assert (H : forallb (fun v => url_safe (url_char v)) (map Z.of_nat (seq 0 64)) = true)
    by (vm_compute; reflexivity).
  rewrite forallb_forall in H. apply H.
  apply in_map_iff. exists (Z.to_nat v). unfold is_sextet in Hv. split; [lia|].
  apply in_seq. lia.
Qed.

Lemma b64url_url_safe (buf : Buffer) : forallb url_safe (chars (Token.b64url buf)) = true.
Proof.
  rewrite b64url_chars. apply forallb_forall. intros c Hc.
  apply in_map_iff in Hc as (v & <- & Hv).
  apply url_char_safe. pose proof (all_sextets_range buf) as H.
  rewrite Forall_forall in H. apply H. exact Hv.
Qed.

Lemma length_all_sextets (buf : Buffer) :
  length (all_sextets buf) = ((4 * length buf + 2) / 3)%nat.
Proof.
  induction buf as [| a | a b | a b c l IH] using list_ind3; try reflexivity.
  cbn [all_sextets Base64.sextets3 length app]. rewrite IH.
  replace (4 * S (S (S (length l))) + 2)%nat with ((4 * length l + 2) + 4 * 3)%nat by lia.
  rewrite Nat.div_add by discriminate. lia.
Qed.

Lemma length_b64url (buf : Buffer) :
  length (chars (Token.b64url buf)) = ((4 * length buf + 2) / 3)%nat.
Proof. rewrite b64url_chars, length_map. apply length_all_sextets. Qed.

Lemma Buffer_from_utf8_app (a b : string) :
  Buffer_from_utf8 (a ++ b)%string = Buffer_from_utf8 a ++ Buffer_from_utf8 b.
Proof.
  unfold Buffer_from_utf8, list_byte_of_string. induction a as [|c a IH]; [reflexivity|].
  change (String c a ++ b)%string with (String c (a ++ b)).
  cbn [list_ascii_of_string map app]. rewrite IH. reflexivity.
Qed.

(** X7.  A compact token minted with [ttlSeconds <= 0] carries no expiry: under
    the key, instance and version it was minted with it verifies at every
    clock reading, and the result has an issue time and no expiry time. *)
Theorem compact_token_without_expiry (key : Buffer) (instanceId : string) (tokenVersion iat ttlSeconds : Z)
    (nonce : Buffer) :
  length nonce = 8%nat ->
  ttlSeconds <= 0 ->
  forall now,
    Token.verifyCompactToken (Token.makeCompactToken key instanceId tokenVersion iat ttlSeconds nonce)
      key instanceId tokenVersion now
    = CompactOk (Some (ToUint32 iat)) None.
Proof. intros Hn Httl now. apply verify_made_unlimited; assumption. Qed.

Lemma compact_token_without_expiry_witness :
  Token.verifyCompactToken (Token.makeCompactToken Scenario.legacyKey "I1" 0 1000 0 Scenario.nonce)
    Scenario.legacyKey "I1" 0 99999999999
  = CompactOk (Some 1000) None.
Proof.
  apply (compact_token_without_expiry Scenario.legacyKey "I1" 0 1000 0 Scenario.nonce eq_refl).
  discriminate.
Defined.

(** X8.  A compact token is 46 characters of the URL-safe alphabet, and so is
    every output of [b64url] of the length base64 gives without padding. *)
Theorem compact_token_is_short_and_url_safe (key : Buffer) (instanceId : string)
    (tokenVersion iat ttlSeconds : Z) (nonce : Buffer) :
  length nonce = 8%nat ->
  let token := chars (Token.makeCompactToken key instanceId tokenVersion iat ttlSeconds nonce) in
  length token = 46%nat
  /\ forallb url_safe token = true
  /\ (forall buf, forallb url_safe (chars (Token.b64url buf)) = true
                  /\ length (chars (Token.b64url buf)) = ((4 * length buf + 2) / 3)%nat).
Proof.
  intros Hn token. subst token. unfold Token.makeCompactToken. cbv zeta.
  split; [|split].
  - rewrite length_b64url. rewrite !length_app, Hn, length_tag. reflexivity.
  - apply b64url_url_safe.
  - intros buf. split; [apply b64url_url_safe | apply length_b64url].
Qed.

Lemma compact_token_is_short_and_url_safe_witness :
  length (chars (Token.makeCompactToken Scenario.legacyKey "I1" 0 1000 3600 Scenario.nonce)) = 46%nat.
Proof.
  apply (compact_token_is_short_and_url_safe Scenario.legacyKey "I1" 0 1000 3600 Scenario.nonce eq_refl).
Defined.

Lemma key_derivation_keys (clientSecret other : option string) :
  (Token.missing_or_empty clientSecret = true \/ Token.missing_or_empty other = true ->
   Token.deriveSigningKey clientSecret other = Throw TypeError
   /\ Token.deriveCookieSigningKey clientSecret other = Throw TypeError)
  /\ (forall secret x,
         clientSecret = Some secret -> other = Some x -> secret <> "" -> x <> "" ->
         Token.deriveSigningKey clientSecret other
         = Return (Sha256.hmac (Buffer_from_utf8 secret) (Buffer_from_utf8 x))
         /\ Token.deriveCookieSigningKey clientSecret other
            = Return (Sha256.hmac (Buffer_from_utf8 secret) (Buffer_from_utf8 ("JWT_COOKIE|" ++ x)%string))).
Proof.
  split.
  - intros H. unfold Token.deriveSigningKey, Token.deriveCookieSigningKey.
    destruct (Token.missing_or_empty clientSecret); [split; reflexivity|].
    destruct H as [H|H]; [discriminate|]. rewrite H. split; reflexivity.
  - intros secret x -> -> Hs Hx.
    unfold Token.deriveSigningKey, Token.deriveCookieSigningKey, Token.missing_or_empty.
    apply String.eqb_neq in Hs, Hx. rewrite Hs, Hx.
    change (default "" (Some x)) with x. cbn [Token.toBuf bind].
    rewrite <- Buffer_from_utf8_app. split; reflexivity.
Qed.

(** X9.  Both key derivations throw [TypeError] when the client secret or the
    second argument is missing or empty, and otherwise return the 32 bytes
    of an HMAC-SHA256 under the secret: of the authKey for the legacy key,
    of [JWT_COOKIE|] followed by the instance id for the cookie key.  The
    legacy key of an authKey that itself reads [JWT_COOKIE|id] is therefore
    the cookie key of [id]. *)
Theorem key_derivation (clientSecret other : option string) :
  (Token.missing_or_empty clientSecret = true \/ Token.missing_or_empty other = true ->
   Token.deriveSigningKey clientSecret other = Throw TypeError
   /\ Token.deriveCookieSigningKey clientSecret other = Throw TypeError)
  /\ (forall secret x,
         clientSecret = Some secret -> other = Some x -> secret <> "" -> x <> "" ->
         Token.deriveSigningKey clientSecret other
         = Return (Sha256.hmac (Buffer_from_utf8 secret) (Buffer_from_utf8 x))
         /\ Token.deriveCookieSigningKey clientSecret other
            = Return (Sha256.hmac (Buffer_from_utf8 secret) (Buffer_from_utf8 ("JWT_COOKIE|" ++ x)%string))
         /\ length (Sha256.hmac (Buffer_from_utf8 secret) (Buffer_from_utf8 x)) = 32%nat
         /\ Token.deriveSigningKey clientSecret (Some ("JWT_COOKIE|" ++ x)%string)
            = Token.deriveCookieSigningKey clientSecret other).
Proof.
  destruct (key_derivation_keys clientSecret other) as [Hmissing Hkeys].
  split; [exact Hmissing|].
  intros secret x Hs Ho Hne Hx. destruct (Hkeys secret x Hs Ho Hne Hx) as [H1 H2].
  split; [exact H1|]. split; [exact H2|]. split; [apply length_hmac|].
  rewrite H2. subst clientSecret.
  apply (proj1 (proj2 (key_derivation_keys (Some secret) (Some ("JWT_COOKIE|" ++ x)%string))
                 secret ("JWT_COOKIE|" ++ x)%string eq_refl eq_refl Hne ltac:(discriminate))).
Qed.

Lemma key_derivation_witness :
  Token.deriveCookieSigningKey (Some "s3cr3t") (Some "I1") = Return Scenario.cookieKey
  /\ Token.deriveSigningKey (Some "s3cr3t") None = Throw TypeError.
Proof.
  split.
  - apply (proj2 (key_derivation (Some "s3cr3t") (Some "I1")) "s3cr3t" "I1" eq_refl eq_refl);
      discriminate.
  - apply (proj1 (key_derivation (Some "s3cr3t") None)). right. reflexivity.
Defined.

(** ** The [Cookie] header *)

(** ** Cookies that need no escaping *)

Lemma code_range (c : ascii) : 0 <= code c < 256.
Proof.
  unfold code. pose proof (N_ascii_bounded c). lia.
Qed.

Lemma code_eqb (a b : ascii) : Ascii.eqb a b = (code a =? code b).
Proof.
  destruct (Ascii.eqb_spec a b) as [->|Hne].
  - symmetry. apply Z.eqb_refl.
  - symmetry. apply Z.eqb_neq. intros H. apply Hne. unfold code in H.
    apply N2Z.inj in H. rewrite <- (ascii_N_embedding a), <- (ascii_N_embedding b). congruence.
Qed.

Lemma plain_code (c : ascii) :
  plain c = true ->
  (48 <= code c <= 57 \/ 65 <= code c <= 90 \/ 97 <= code c <= 122 \/ code c = 45 \/ code c = 95
   \/ code c = 46).
Proof.
  unfold plain, url_safe, Js.in_range. intros H.
  repeat (apply orb_prop in H as [H|H]);
    repeat match goal with
           | H : _ && _ = true |- _ => apply andb_prop in H as [? ?]
           | H : (_ <=? _) = true |- _ => apply Z.leb_le in H
           | H : (_ =? _) = true |- _ => apply Z.eqb_eq in H
           end; lia.
Qed.

Lemma plain_not (c x : ascii) :
  plain c = true -> plain x = false -> Ascii.eqb c x = false.
Proof.
  intros Hc Hx. destruct (Ascii.eqb_spec c x) as [->|]; [congruence | reflexivity].
Qed.

Lemma decodeURIComponent_no_escape (s : list ascii) :
  Forall (fun c => Ascii.eqb c "%"%char = false) s -> Js.decodeURIComponent s = Return s.
Proof.
  unfold Js.decodeURIComponent. generalize (Nat.le_refl (length s)).
  generalize (length s) at 2 3. intros fuel. revert s.
  induction fuel as [|fuel IH]; intros s Hlen Hs.
  - destruct s; [reflexivity | cbn in Hlen; lia].
  - destruct s as [|c rest]; [reflexivity|].
    inversion Hs as [|? ? Hc Hrest]; subst.
    cbn [Js.decodeURIComponent_chars]. rewrite Hc.
    rewrite IH by (cbn in Hlen; lia || assumption). reflexivity.
Qed.

Lemma split_on_absent (sep : ascii) (s : list ascii) :
  Forall (fun c => Ascii.eqb c sep = false) s -> split_on sep s = [s].
Proof.
  induction 1 as [|c rest Hc Hrest IH]; [reflexivity|].
  cbn [split_on]. rewrite Hc, IH. reflexivity.
Qed.

Lemma indexOf_first (sep : ascii) (k v : list ascii) :
  Forall (fun c => Ascii.eqb c sep = false) k ->
  Js.indexOf sep (k ++ sep :: v) = Some (length k).
Proof.
  induction 1 as [|c rest Hc Hrest IH]; cbn [app Js.indexOf length].
  - rewrite Ascii.eqb_refl. reflexivity.
  - rewrite Hc, IH. reflexivity.
Qed.

(** A character below 128 that is not ASCII white space starts no white space. *)
Lemma ws_len_ascii (c : ascii) (rest : list ascii) :
  code c < 128 -> Js.in_range 9 13 (code c) || (code c =? 32) = false ->
  Js.ws_len (c :: rest) = 0%nat.
Proof.
  intros Hlt Hws. unfold Js.ws_len. cbn [map]. rewrite Hws.
  assert (E : forall k, 128 <= k -> (code c =? k) = false) by (intros k Hk; apply Z.eqb_neq; lia).
  rewrite !E by lia. cbn [andb orb].
  destruct (map code rest) as [|n2 [|n3 tail]]; reflexivity.
Qed.

Lemma ws_len_three (c0 c1 c2 : ascii) : code c2 < 128 -> (Js.ws_len [c0; c1; c2] =? 3)%nat = false.
Proof.
  intros Hlt. unfold Js.ws_len. cbn [map].
  destruct (Js.in_range 9 13 (code c0) || (code c0 =? 32)); [reflexivity|].
  destruct ((code c0 =? 194) && (code c1 =? 160)); [reflexivity|].
  assert (E : forall k, 128 <= k -> (code c2 =? k) = false) by (intros k Hk; apply Z.eqb_neq; lia).
  assert (R : Js.in_range 128 138 (code c2) = false).
  { unfold Js.in_range. apply andb_false_iff. left. apply Z.leb_gt. lia. }
  rewrite R, !E by lia. cbn [orb]. rewrite !andb_false_r. reflexivity.
Qed.

Lemma ws_len_rev_ascii (c : ascii) (rest : list ascii) :
  code c < 128 -> Js.in_range 9 13 (code c) || (code c =? 32) = false ->
  Js.ws_len_rev (c :: rest) = 0%nat.
Proof.
  intros Hlt Hws. unfold Js.ws_len_rev. rewrite Hws.
  destruct rest as [|c1 [|c0 tail]]; try reflexivity.
  - assert (E : (code c =? 160) = false) by (apply Z.eqb_neq; lia). rewrite E, andb_false_r. reflexivity.
  - assert (E : (code c =? 160) = false) by (apply Z.eqb_neq; lia). rewrite E, andb_false_r.
    rewrite ws_len_three by exact Hlt. reflexivity.
Qed.

Lemma solid_spec (c : ascii) :
  solid c = true -> code c < 128 /\ Js.in_range 9 13 (code c) || (code c =? 32) = false.
Proof.
  unfold solid. intros H. apply andb_prop in H as [H1 H2]. apply Z.ltb_lt in H1.
  apply negb_true_iff in H2. split; assumption.
Qed.

Lemma plain_solid (c : ascii) : plain c = true -> solid c = true.
Proof.
  intros H. apply plain_code in H. unfold solid, Js.in_range.
  apply andb_true_intro. split; [apply Z.ltb_lt; lia|].
  apply negb_true_iff, orb_false_iff. split.
  - apply andb_false_iff. right. apply Z.leb_gt. lia.
  - apply Z.eqb_neq. lia.
Qed.

Lemma trim_solid (s : list ascii) : forallb solid s = true -> Js.trim s = s.
Proof.
  intros Hs. unfold Js.trim.
  assert (Hstart : Js.trimStart s = s).
  { unfold Js.trimStart. destruct s as [|c rest]; [reflexivity|].
    cbn [forallb] in Hs. apply andb_prop in Hs as [Hc _]. apply solid_spec in Hc as [H1 H2].
    cbn [length Js.drop_while_ws]. rewrite ws_len_ascii by assumption. reflexivity. }
  rewrite Hstart. unfold Js.trimEnd.
  assert (Hrev : forallb solid (rev s) = true).
  { apply forallb_forall. intros x Hx. apply in_rev in Hx.
    rewrite forallb_forall in Hs. apply Hs. exact Hx. }
  assert (Hdrop : forall n r, forallb solid r = true -> Js.drop_while_ws Js.ws_len_rev n r = r).
  { intros n r Hr. destruct n as [|n]; [reflexivity|]. destruct r as [|c rest]; [reflexivity|].
    cbn [forallb] in Hr. apply andb_prop in Hr as [Hc _]. apply solid_spec in Hc as [H1 H2].
    cbn [Js.drop_while_ws]. rewrite ws_len_rev_ascii by assumption. reflexivity. }
  rewrite Hdrop by exact Hrev. apply rev_involutive.
Qed.

Lemma trim_plain (s : list ascii) : forallb plain s = true -> Js.trim s = s.
Proof.
  intros Hs. apply trim_solid. apply forallb_forall. intros c Hc.
  apply plain_solid. rewrite forallb_forall in Hs. apply Hs. exact Hc.
Qed.

(** ** [encodeURIComponent] and back *)

Lemma char_of_code_code (c : ascii) : char_of_code (code c) = c.
Proof.
  unfold char_of_code. pose proof (code_range c) as H. rewrite Z.mod_small by exact H.
  unfold code. rewrite N2Z.id. apply ascii_N_embedding.
Qed.

Lemma all_codes (P : Z -> bool) :
  forallb P (map Z.of_nat (seq 0 256)) = true -> forall n, 0 <= n < 256 -> P n = true.
Proof.
  intros H n Hn. rewrite forallb_forall in H. apply H.
  apply in_map_iff. exists (Z.to_nat n). split; [lia|]. apply in_seq. lia.
Qed.

Lemma from_hex2_digits (n : Z) :
  0 <= n < 256 ->
  Js.from_hex2 (Js.upper_hex_digit (n / 16)) (Js.upper_hex_digit (n mod 16)) = Some n.
Proof.
  intros Hn.
  pose proof (all_codes (fun n => match Js.from_hex2 (Js.upper_hex_digit (n / 16))
                                           (Js.upper_hex_digit (n mod 16)) with
                                  | Some m => m =? n
                                  | None => false
                                  end)) as H.
  specialize (H ltac:(vm_compute; reflexivity) n Hn). cbn beta in H.
  destruct (Js.from_hex2 _ _) as [m|]; [|discriminate]. apply Z.eqb_eq in H. congruence.
Qed.

(** The characters [encodeURIComponent] writes. *)
Lemma hex_digit_unreserved (n : Z) : 0 <= n < 256 ->
  Js.unreserved (Js.upper_hex_digit (n / 16)) = true /\ Js.unreserved (Js.upper_hex_digit (n mod 16)) = true.
Proof.
  intros Hn.
  pose proof (all_codes (fun n => Js.unreserved (Js.upper_hex_digit (n / 16))
                                  && Js.unreserved (Js.upper_hex_digit (n mod 16)))
                ltac:(vm_compute; reflexivity) n Hn) as H.
  cbn beta in H. apply andb_prop in H. exact H.
Qed.

Lemma unreserved_facts (c : ascii) :
  Js.unreserved c = true ->
  solid c = true /\ Ascii.eqb c "%"%char = false /\ Ascii.eqb c ";"%char = false
  /\ Ascii.eqb c "="%char = false.
Proof.
  intros H.
  pose proof (all_codes (fun n => negb (Js.unreserved (char_of_code n))
                                  || (solid (char_of_code n)
                                      && negb (Ascii.eqb (char_of_code n) "%"%char)
                                      && negb (Ascii.eqb (char_of_code n) ";"%char)
                                      && negb (Ascii.eqb (char_of_code n) "="%char)))
                ltac:(vm_compute; reflexivity) (code c) (code_range c)) as G.
  cbn beta in G. rewrite char_of_code_code, H in G. cbn [negb orb] in G.
  repeat (apply andb_prop in G as [G ?]).
  repeat match goal with H : negb _ = true |- _ => apply negb_true_iff in H end.
  repeat split; try assumption.
  unfold solid. rewrite G, H3. reflexivity.
Qed.

Lemma encodeURIComponent_chars (s : string) :
  forallb encoded_char (chars (Js.encodeURIComponent s)) = true.
Proof.
  unfold Js.encodeURIComponent. rewrite chars_str.
  induction (chars s) as [|c rest IH]; [reflexivity|].
  cbn [flat_map]. rewrite forallb_app, IH, andb_true_r.
  destruct (Js.unreserved c) eqn:E.
  - cbn [forallb]. unfold encoded_char. rewrite E. reflexivity.
  - destruct (hex_digit_unreserved (code c) (code_range c)) as [H1 H2].
    cbn [forallb]. unfold encoded_char. rewrite H1, H2. reflexivity.
Qed.

Lemma decode_encode_ascii (s : string) :
  Forall (fun c => code c < 128) (chars s) ->
  Js.decodeURIComponent (chars (Js.encodeURIComponent s)) = Return (chars s).
Proof.
  unfold Js.encodeURIComponent, Js.decodeURIComponent. rewrite chars_str.
  set (enc := fun c => if Js.unreserved c then [c]
                       else ["%"%char; Js.upper_hex_digit (code c / 16); Js.upper_hex_digit (code c mod 16)]).
  generalize (Nat.le_refl (length (flat_map enc (chars s)))).
  generalize (length (flat_map enc (chars s))) at 2 3. intros fuel.
  generalize (chars s). clear s. intros l. revert fuel.
  induction l as [|c rest IH]; intros fuel Hlen Hl.
  - cbn [flat_map]. destruct fuel; reflexivity.
  - inversion Hl as [|? ? Hc Hrest]; subst. cbn [flat_map]. unfold enc at 1.
    destruct (Js.unreserved c) eqn:E.
    + destruct fuel as [|fuel]; [cbn [flat_map app length] in Hlen; unfold enc in Hlen at 1;
                                  rewrite E in Hlen; cbn in Hlen; lia|].
      cbn [app Js.decodeURIComponent_chars].
      destruct (unreserved_facts c E) as (_ & Hp & _). rewrite Hp.
      rewrite IH; [reflexivity | | exact Hrest].
      cbn [flat_map] in Hlen. unfold enc in Hlen at 1. rewrite E in Hlen. cbn in Hlen. lia.
    + destruct fuel as [|fuel]; [cbn [flat_map app length] in Hlen; unfold enc in Hlen at 1;
                                  rewrite E in Hlen; cbn in Hlen; lia|].
      cbn [app Js.decodeURIComponent_chars]. rewrite Ascii.eqb_refl.
      cbn [Js.percent_byte]. rewrite Ascii.eqb_refl.
      rewrite from_hex2_digits by apply code_range. cbn [option_map].
      assert (L : (code c <? 128) = true) by (apply Z.ltb_lt; exact Hc). rewrite L.
      rewrite IH; [cbn [bind]; rewrite char_of_code_code; reflexivity | | exact Hrest].
      cbn [flat_map] in Hlen. unfold enc in Hlen at 1. rewrite E in Hlen. cbn in Hlen. lia.
Qed.

(** ** Parsing the [Cookie] header *)

Lemma split_on_nonempty (sep : ascii) (s : list ascii) : split_on sep s <> [].
Proof.
  destruct s as [|c rest]; cbn [split_on]; [discriminate|].
  destruct (Ascii.eqb c sep); [discriminate|]. destruct (split_on sep rest); discriminate.
Qed.

Lemma split_on_app (sep : ascii) (a b : list ascii) :
  split_on sep (a ++ sep :: b) = split_on sep a ++ split_on sep b.
Proof.
  induction a as [|c a IH]; cbn [app split_on].
  - rewrite Ascii.eqb_refl. reflexivity.
  - destruct (Ascii.eqb c sep); [rewrite IH; reflexivity|].
    rewrite IH. pose proof (split_on_nonempty sep a) as Hne.
    destruct (split_on sep a) as [|p ps]; [contradiction|]. reflexivity.
Qed.

Lemma split_on_pieces (P : ascii -> Prop) (sep : ascii) (s : list ascii) :
  Forall P s -> Forall (Forall P) (split_on sep s).
Proof.
  induction 1 as [|c rest Hc Hrest IH]; cbn [split_on].
  - repeat constructor.
  - destruct (Ascii.eqb c sep); [constructor; [constructor | exact IH]|].
    destruct (split_on sep rest) as [|p ps]; [repeat constructor; exact Hc|].
    inversion IH; subst. constructor; [constructor; assumption | assumption].
Qed.



Lemma drop_while_ws_Forall (P : ascii -> Prop) (len : list ascii -> nat) (fuel : nat) (s : list ascii) :
  Forall P s -> Forall P (Js.drop_while_ws len fuel s).
Proof.
  revert s. induction fuel as [|fuel IH]; intros s Hs; cbn [Js.drop_while_ws]; [exact Hs|].
  destruct (len s) as [|n]; [exact Hs|]. apply IH. apply Forall_drop. exact Hs.
Qed.

Lemma Forall_rev' (P : ascii -> Prop) (s : list ascii) : Forall P s -> Forall P (rev s).
Proof.
  intros H. apply Forall_forall. intros x Hx. apply in_rev in Hx.
  rewrite Forall_forall in H. apply H. exact Hx.
Qed.

Lemma trim_Forall (P : ascii -> Prop) (s : list ascii) : Forall P s -> Forall P (Js.trim s).
Proof.
  intros H. unfold Js.trim, Js.trimEnd, Js.trimStart.
  apply Forall_rev', drop_while_ws_Forall, Forall_rev', drop_while_ws_Forall. exact H.
Qed.

Lemma add_pair_no_escape (m : gmap string string) (pair : list ascii) :
  Forall (fun c => Ascii.eqb c "%"%char = false) pair ->
  exists m', Cookie.add_pair m pair = Return m'.
Proof.
  intros H. unfold Cookie.add_pair.
  destruct (Js.indexOf "="%char pair) as [idx|]; [|eexists; reflexivity].
  destruct (Js.trim (firstn idx pair)) as [|c k]; [eexists; reflexivity|].
  rewrite decodeURIComponent_no_escape; [cbn [bind]; eexists; reflexivity|].
  apply trim_Forall, Forall_drop. exact H.
Qed.

Lemma parse_pieces_no_escape (pieces : list (list ascii)) (m : gmap string string) :
  Forall (Forall (fun c => Ascii.eqb c "%"%char = false)) pieces ->
  exists m', fold_left (fun acc pair => let! m := acc in Cookie.add_pair m pair) pieces (Return m)
             = Return m'.
Proof.
  revert m. induction pieces as [|p ps IH]; intros m H; [eexists; reflexivity|].
  inversion H as [|? ? Hp Hps]; subst. cbn [fold_left bind].
  destruct (add_pair_no_escape m p Hp) as (m1 & ->). apply IH. exact Hps.
Qed.

Lemma trim_leading_space (k : list ascii) :
  forallb solid k = true -> Js.trim (" "%char :: k) = k.
Proof.
  intros Hk. unfold Js.trim.
  assert (E : Js.trimStart (" "%char :: k) = k).
  { unfold Js.trimStart. cbn [length Js.drop_while_ws].
    change (Js.ws_len (" "%char :: k)) with 1%nat. cbn [skipn].
    destruct k as [|c rest]; [reflexivity|].
    cbn [forallb] in Hk. apply andb_prop in Hk as [Hc _]. apply solid_spec in Hc as [H1 H2].
    cbn [length Js.drop_while_ws]. change (skipn 0 (c :: rest)) with (c :: rest).
    rewrite ws_len_ascii by assumption. reflexivity. }
  rewrite E.
  pose proof (trim_solid k Hk) as T. unfold Js.trim in T.
  assert (E' : Js.trimStart k = k).
  { unfold Js.trimStart. destruct k as [|c rest]; [reflexivity|].
    cbn [forallb] in Hk. apply andb_prop in Hk as [Hc _]. apply solid_spec in Hc as [H1 H2].
    cbn [length Js.drop_while_ws]. rewrite ws_len_ascii by assumption. reflexivity. }
  rewrite E' in T. exact T.
Qed.

(** A pair [name=value], possibly after a space, with a plain name and an
    encoded value. *)
Lemma add_pair_encoded (m : gmap string string) (space : bool) (name value : string) :
  forallb plain (chars name) = true -> name <> "" ->
  Forall (fun c => code c < 128) (chars value) ->
  Cookie.add_pair m ((if space then [" "%char] else [])
                     ++ chars name ++ "="%char :: chars (Js.encodeURIComponent value))
  = Return (<[name := value]> m).
Proof.
  intros Hname Hne Hvalue. unfold Cookie.add_pair.
  set (pre := if space then [" "%char] else []).
  assert (Hpre : Forall (fun c => Ascii.eqb c "="%char = false) (pre ++ chars name)).
  { apply Forall_app. split.
    - subst pre. destruct space; repeat constructor.
    - apply Forall_forall. intros c Hc. rewrite forallb_forall in Hname.
      apply plain_not; [apply Hname; exact Hc | reflexivity]. }
  rewrite app_assoc, (indexOf_first _ _ _ Hpre).
  rewrite firstn_app, Nat.sub_diag, firstn_all. cbn [firstn]. rewrite app_nil_r.
  replace (skipn (S (length (pre ++ chars name))) ((pre ++ chars name) ++ "="%char :: chars (Js.encodeURIComponent value)))
    with (chars (Js.encodeURIComponent value)).
  2: { rewrite skipn_app. rewrite skipn_all2 by lia.
       replace (S (length (pre ++ chars name)) - length (pre ++ chars name))%nat with 1%nat by lia.
       reflexivity. }
  assert (Hk : Js.trim (pre ++ chars name) = chars name).
  { subst pre. destruct space; cbn [app].
    - apply trim_leading_space. apply forallb_forall. intros c Hc. apply plain_solid.
      rewrite forallb_forall in Hname. apply Hname. exact Hc.
    - apply trim_plain. exact Hname. }
  rewrite Hk.
  destruct (chars name) as [|c k] eqn:Ename.
  { exfalso. apply Hne. rewrite <- (str_chars name), Ename. reflexivity. }
  rewrite <- Ename.
  assert (Hv : Js.trim (chars (Js.encodeURIComponent value)) = chars (Js.encodeURIComponent value)).
  { apply trim_solid. apply forallb_forall. intros x Hx.
    pose proof (encodeURIComponent_chars value) as He. rewrite forallb_forall in He.
    specialize (He x Hx). unfold encoded_char in He. apply orb_prop in He as [He|He].
    - apply unreserved_facts in He as (Hs & _). exact Hs.
    - apply Ascii.eqb_eq in He. subst x. reflexivity. }
  rewrite Hv, decode_encode_ascii by exact Hvalue. cbn [bind].
  rewrite !str_chars. reflexivity.
Qed.

Lemma getCookieMap_pair (name value : string) :
  forallb plain (chars name) = true -> name <> "" ->
  Forall (fun c => code c < 128) (chars value) ->
  Cookie.getCookieMap (Some (name ++ "=" ++ Js.encodeURIComponent value)%string)
  = Return {[name := value]}.
Proof.
  intros Hname Hne Hvalue. unfold Cookie.getCookieMap. change (default "" (Some ?x)) with x.
  rewrite chars_append. change (chars ("=" ++ ?x)) with ("="%char :: chars x).
  rewrite split_on_absent.
  - cbn [fold_left bind]. apply (add_pair_encoded ∅ false name value); assumption.
  - apply Forall_app. split.
    + apply Forall_forall. intros c Hc. rewrite forallb_forall in Hname.
      apply plain_not; [apply Hname; exact Hc | reflexivity].
    + constructor; [reflexivity|].
      apply Forall_forall. intros c Hc.
      pose proof (encodeURIComponent_chars value) as He. rewrite forallb_forall in He.
      specialize (He c Hc). unfold encoded_char in He. apply orb_prop in He as [He|He].
      * apply unreserved_facts in He as (_ & _ & Hs & _). exact Hs.
      * apply Ascii.eqb_eq in He. subst c. reflexivity.
Qed.



(** X11.  A [Cookie] header without a percent sign never makes [getCookieMap]
    throw, whatever else it holds; neither does an absent header, which gives
    the empty map. *)
Theorem cookie_header_without_escapes_parses (header : string) :
  Forall (fun c => c <> "%"%char) (chars header) ->
  (exists m, Cookie.getCookieMap (Some header) = Return m)
  /\ Cookie.getCookieMap None = Return ∅.
Proof.
  intros H. split; [|reflexivity].
  unfold Cookie.getCookieMap. change (default "" (Some header)) with header.
  apply parse_pieces_no_escape, split_on_pieces.
  eapply Forall_impl; [|exact H]. intros c Hc. apply Ascii.eqb_neq. exact Hc.
Qed.

Lemma cookie_header_without_escapes_parses_witness :
  exists m, Cookie.getCookieMap (Some "a=1; =x; flag; b = two ") = Return m.
Proof.
  apply (cookie_header_without_escapes_parses "a=1; =x; flag; b = two ").
  repeat constructor; discriminate.
Defined.



(** ** The session the handlers mint *)

(** ** The session a password exchange opens *)

Lemma Js_ToUint32_range (v : JsVal) : 0 <= Js.ToUint32 v < 2 ^ 32.
Proof.
  unfold Js.ToUint32. destruct (Js.ToNumber v); try lia. apply Z.mod_pos_bound. lia.
Qed.

Lemma Js_ToUint32_idem (v : JsVal) : Js.ToUint32 (Some (JNum (Js.ToUint32 v))) = Js.ToUint32 v.
Proof. rewrite ToUint32_number. apply Z.mod_small. apply Js_ToUint32_range. Qed.

Lemma plain_dot : plain "."%char = true.
Proof. reflexivity. Qed.

Lemma b64url_plain (buf : Buffer) : forallb plain (chars (Token.b64url buf)) = true.
Proof.
  pose proof (b64url_url_safe buf) as H. rewrite forallb_forall in H.
  apply forallb_forall. intros c Hc. unfold plain. rewrite (H c Hc). reflexivity.
Qed.

Lemma createJwtHs256_plain (key : Buffer) (claims : list (string * json)) (ttl : Z) (iss : string)
    (aud : option string) (iat : Z) :
  forallb plain (chars (Token.createJwtHs256 key claims ttl iss aud iat)) = true.
Proof.
  unfold Token.createJwtHs256, Token.b64uEncodeJson. cbv zeta.
  rewrite !chars_append. rewrite !forallb_app.
  rewrite !b64url_plain. reflexivity.
Qed.

Lemma plain_ascii (s : list ascii) : forallb plain s = true -> Forall (fun c => code c < 128) s.
Proof.
  intros H. apply Forall_forall. intros c Hc. rewrite forallb_forall in H.
  specialize (H c Hc). apply plain_code in H. lia.
Qed.

Lemma session_claims_well_formed (instance : Instance) :
  Json.well_formed (JObj (session_claims instance)) = true.
Proof. reflexivity. Qed.

Section Session.
Variable getClientSecret : string -> Completion string.

(** The cookie step on a session token minted for the same instance. *)
Lemma cookie_step_minted (instance : Instance) (webhook : Webhook) (secret : string) (iat now : Z) :
  getClientSecret (ClientID webhook) = Return secret ->
  secret <> "" -> id instance <> "" ->
  Password.cookie_step getClientSecret now instance webhook (session_jwt secret instance iat)
  = if iat + Cookie.COOKIE_TTL_SEC <=? now - 60 then GateDenied PASSWORD_PAGE_HTML None else GateOk.
Proof.
  intros Hs Hne Hid. unfold Password.cookie_step. rewrite Hs. cbn [bind].
  destruct (proj2 (key_derivation_keys (Some secret) (Some (id instance))) secret (id instance)
              eq_refl eq_refl Hne Hid) as (_ & Hk).
  rewrite Hk. cbn [bind]. unfold session_jwt.
  rewrite verify_created by apply session_claims_well_formed. cbv zeta.
  destruct (jwt_body_get (session_claims instance) Cookie.COOKIE_TTL_SEC "tgl"
              (Some ("wi:" ++ id instance)%string) iat) as (_ & _ & _ & Hexp & Hother).
  rewrite (Hother "nbf" eq_refl). change (obj_get (session_claims instance) "nbf") with (@None json).
  cbn [number_lt]. rewrite Hexp. change (0 <? Cookie.COOKIE_TTL_SEC) with true. cbn [number_le].
  destruct (iat + Cookie.COOKIE_TTL_SEC <=? now - 60); [reflexivity|].
  unfold Js.or_else. cbn [truthy get_prop_opt get_prop].
  rewrite (Hother "iid" eq_refl), (Hother "tv" eq_refl).
  cbn [session_claims obj_get String.eqb Ascii.eqb Bool.eqb strict_eq_string].
  rewrite String.eqb_refl. cbn [negb]. rewrite Js_ToUint32_idem, Z.eqb_refl. reflexivity.
Qed.

End Session.

Lemma auth_exchange_outcome (getClientSecret : string -> Completion string) (now : Z)
    (instance : Instance) (webhook : Webhook) (event : Event) (payload : json) :
  request_payload event = Return payload ->
  let provided := Js.or_else (get_prop_opt (Some payload) "password") (Some (JStr "")) in
  let expected := Js.or_else (password instance) (Some (JStr "")) in
  (truthy provided && Js.strict_eq provided expected = false ->
   Post.auth_exchange getClientSecret now instance webhook event = Return Post.invalid_password)
  /\ (truthy provided && Js.strict_eq provided expected = true ->
      forall secret,
        getClientSecret (ClientID webhook) = Return secret -> secret <> "" -> id instance <> "" ->
        Post.auth_exchange getClientSecret now instance webhook event
        = Return (exchange_ok instance (session_jwt secret instance now))).
Proof.
  intros Hp provided expected. unfold Post.auth_exchange. fold (request_payload event).
  rewrite Hp. cbn [bind]. fold provided expected.
  split; intros H.
  - apply andb_false_iff in H as [H|H]; rewrite H; cbn [negb orb]; [reflexivity|].
    rewrite orb_true_r. reflexivity.
  - apply andb_prop in H as [H1 H2]. rewrite H1, H2. cbn [negb orb].
    intros secret Hs Hne Hid. rewrite Hs. cbn [bind].
    destruct (proj2 (key_derivation_keys (Some secret) (Some (id instance))) secret (id instance)
                eq_refl eq_refl Hne Hid) as (_ & Hk).
    rewrite Hk. cbn [bind]. reflexivity.
Qed.

(** X13.  In a password exchange on a password-protected webhook whose body
    parses, the answer is 401 [Invalid password] unless the provided password
    is truthy and strictly equal ([===]) to the stored one; then (with a
    client secret and an instance id that are not empty) it is 200 with a
    [Set-Cookie] header carrying a session token signed at the current second
    for the instance and its revocation counter.  A stored password given as
    a different type (the number 1234 against the string "1234") never
    matches. *)
Theorem password_exchange_outcome
    (markup : Page -> string) (resolveInstanceId : option string -> Completion string)
    (loadInstance : string -> Completion (option Instance))
    (loadWebhook : string -> Completion (option Webhook))
    (getClientSecret : string -> Completion string) (now : Z)
    (gate : Instance -> Webhook -> Event -> Completion GateResult)
    (uploadUrl uploadComplete : Event -> Completion Response)
    (submit : Instance -> Webhook -> Event -> Completion Response)
    (event : Event) (instance : Instance) (webhook : Webhook) (payload : json) :
  is_auth_exchange event = true ->
  loads resolveInstanceId loadInstance loadWebhook event instance webhook ->
  passwordProtected webhook = true ->
  request_payload event = Return payload ->
  let answer := Post.handlePostRequest markup resolveInstanceId loadInstance loadWebhook getClientSecret now
                  gate uploadUrl uploadComplete submit event in
  let provided := Js.or_else (get_prop_opt (Some payload) "password") (Some (JStr "")) in
  let expected := Js.or_else (password instance) (Some (JStr "")) in
  (truthy provided && Js.strict_eq provided expected = false -> answer = Return Post.invalid_password)
  /\ (truthy provided && Js.strict_eq provided expected = true ->
      forall secret,
        getClientSecret (ClientID webhook) = Return secret -> secret <> "" -> id instance <> "" ->
        answer = Return (exchange_ok instance (session_jwt secret instance now)))
  /\ (forall n s, provided = Some (JNum n) -> expected = Some (JStr s) ->
                  answer = Return Post.invalid_password).
Proof.
  intros Hx Hl Hp Hpl answer provided expected. subst answer.
  rewrite (handlePostRequest_exchange _ _ _ _ _ _ _ _ _ _ _ _ _ Hx Hl Hp).
  destruct (auth_exchange_outcome getClientSecret now instance webhook event payload Hpl) as [Hno Hyes].
  fold provided expected in Hno, Hyes.
  split; [exact Hno|]. split; [exact Hyes|].
  intros n s Hn Hs. apply Hno. rewrite Hn, Hs. apply andb_false_r.
Qed.

Lemma password_exchange_outcome_witness :
  let post body :=
    Post.handlePostRequest (fun _ => "") (fun g => Return (default "" g))
      (Scenario.loadInstance (Some (JNum 0))) Scenario.loadWebhook Scenario.getClientSecret 1000
      (fun _ _ _ => Return GateOk) (fun _ => Throw Error) (fun _ => Throw Error) (fun _ _ _ => Throw Error)
      (Scenario.exchange (Some body)) in
  post (Json.stringify (JObj [("password", JStr "open sesame")]))
  = Return (exchange_ok (Scenario.instance_at (Some (JNum 0)))
              (session_jwt "s3cr3t" (Scenario.instance_at (Some (JNum 0))) 1000))
  /\ post (Json.stringify (JObj [("password", JStr "Open sesame")])) = Return Post.invalid_password.
Proof.
  cbv zeta.
  pose proof (fun body payload H =>
                password_exchange_outcome (fun _ => "") (fun g => Return (default "" g))
                  (Scenario.loadInstance (Some (JNum 0))) Scenario.loadWebhook Scenario.getClientSecret 1000
                  (fun _ _ _ => Return GateOk) (fun _ => Throw Error) (fun _ => Throw Error)
                  (fun _ _ _ => Throw Error)
                  (Scenario.exchange (Some body)) (Scenario.instance_at (Some (JNum 0))) Scenario.webhook
                  payload eq_refl (ex_intro _ "I1" (conj eq_refl (conj eq_refl eq_refl))) eq_refl H) as H.
  cbv zeta in H.
  split.
  - destruct (H (Json.stringify (JObj [("password", JStr "open sesame")])) (JObj [("password", JStr "open sesame")]) eq_refl) as (_ & Hok & _).
    apply (Hok eq_refl "s3cr3t" eq_refl); discriminate.
  - destruct (H (Json.stringify (JObj [("password", JStr "Open sesame")])) (JObj [("password", JStr "Open sesame")]) eq_refl) as (Hno & _).
    apply Hno. reflexivity.
Defined.

Lemma append_dot_nonempty (a b : string) : String.eqb (a ++ "." ++ b)%string "" = false.
Proof. destruct a; reflexivity. Qed.

Lemma session_jwt_given (secret : string) (instance : Instance) (iat : Z) :
  Token.given (Some (session_jwt secret instance iat)) = true.
Proof.
  unfold Token.given, Token.missing_or_empty, session_jwt, Token.createJwtHs256. cbv zeta.
  rewrite append_dot_nonempty. reflexivity.
Qed.

Lemma cookieNameFor_plain (instanceId : string) :
  forallb plain (chars instanceId) = true ->
  forallb plain (chars (Cookie.cookieNameFor instanceId)) = true
  /\ Cookie.cookieNameFor instanceId <> "".
Proof.
  intros H. unfold Cookie.cookieNameFor. split; [|discriminate].
  rewrite !chars_append, !forallb_app, H. reflexivity.
Qed.

Lemma session_cookie_parses (secret : string) (instance : Instance) (iat : Z) :
  forallb plain (chars (id instance)) = true ->
  Cookie.getCookieMap (Some (session_cookie_pair instance (session_jwt secret instance iat)))
  = Return {[Cookie.cookieNameFor (id instance) := session_jwt secret instance iat]}.
Proof.
  intros Hid. destruct (cookieNameFor_plain (id instance) Hid) as [Hname Hne].
  unfold session_cookie_pair.
  apply (getCookieMap_pair (Cookie.cookieNameFor (id instance)) (session_jwt secret instance iat) Hname Hne).
  apply plain_ascii. unfold session_jwt. apply createJwtHs256_plain.
Qed.

Lemma password_flow_minted (getClientSecret : string -> Completion string) (now iat : Z)
    (instance : Instance) (webhook : Webhook) (event : Event) (secret : string) :
  getClientSecret (ClientID webhook) = Return secret ->
  secret <> "" -> id instance <> "" ->
  Token.given (query_token event) && Token.given (authKey instance) = false ->
  Password.password_flow getClientSecret now instance webhook (query_token event)
    (({[Cookie.cookieNameFor (id instance) := session_jwt secret instance iat]}
        : gmap string string) !! Cookie.cookieNameFor (id instance))
  = if iat + Cookie.COOKIE_TTL_SEC <=? now - 60
    then GateDenied PASSWORD_PAGE_HTML None else GateOk.
Proof.
  intros Hs Hne Hid Hlegacy.
  unfold Password.password_flow. rewrite Hlegacy, lookup_singleton_eq, session_jwt_given.
  change (default "" (Some ?x)) with x. apply cookie_step_minted; assumption.
Qed.

Lemma page_gate_minted (getClientSecret : string -> Completion string) (now iat : Z)
    (instance : Instance) (webhook : Webhook) (event : Event) (secret : string) :
  getClientSecret (ClientID webhook) = Return secret ->
  secret <> "" -> id instance <> "" ->
  forallb plain (chars (id instance)) = true ->
  passwordProtected webhook = true ->
  Token.given (query_token event) && Token.given (authKey instance) = false ->
  cookie_header event = Some (session_cookie_pair instance (session_jwt secret instance iat)) ->
  Password.verifyAccessOrPasswordPage getClientSecret now instance webhook event
  = Return (if iat + Cookie.COOKIE_TTL_SEC <=? now - 60
            then GateDenied PASSWORD_PAGE_HTML None else GateOk).
Proof.
  intros Hs Hne Hid Hplain Hp Hlegacy Hc.
  rewrite verifyAccessOrPasswordPage_flow by exact Hp. rewrite Hc.
  rewrite session_cookie_parses by exact Hplain. cbn [bind].
  rewrite (password_flow_minted getClientSecret now iat instance webhook event secret) by assumption.
  reflexivity.
Qed.

(** X14.  The session token of an instance, sent back as the cookie pair the
    server set, opens the page gate (in both revisions) at every second up to
    seven days and the 60 seconds of clock skew after it was minted, and is
    answered with the password page from then on.  The instance id is made
    of letters, digits, [-], [_] and [.], and no legacy query token takes
    precedence. *)
Theorem session_cookie_opens_page_gate
    (getClientSecret : string -> Completion string) (now iat : Z)
    (cognito : Event -> Instance -> Webhook -> Completion CognitoResult)
    (instance : Instance) (webhook : Webhook) (event : Event) (secret : string) :
  getClientSecret (ClientID webhook) = Return secret ->
  secret <> "" -> id instance <> "" ->
  forallb plain (chars (id instance)) = true ->
  passwordProtected webhook = true ->
  Token.given (query_token event) && Token.given (authKey instance) = false ->
  let pair := session_cookie_pair instance (session_jwt secret instance iat) in
  let verdict := if iat + Cookie.COOKIE_TTL_SEC <=? now - 60
                 then GateDenied PASSWORD_PAGE_HTML None else GateOk in
  (cookie_header event = Some pair ->
   Password.verifyAccessOrPasswordPage getClientSecret now instance webhook event = Return verdict)
  /\ (is_user webhook = false -> cookie_source event = Some pair ->
      Password.verifyAccessOrPasswordPage_v2 getClientSecret now cognito instance webhook event
      = Return verdict).
Proof.
  intros Hs Hne Hid Hplain Hp Hlegacy pair verdict.
  split.
  - intros Hc. apply (page_gate_minted getClientSecret now iat instance webhook event secret);
      assumption.
  - intros Hu Hc. rewrite verifyAccessOrPasswordPage_v2_flow by assumption. rewrite Hc.
    subst pair. rewrite session_cookie_parses by exact Hplain. cbn [bind].
    rewrite (password_flow_minted getClientSecret now iat instance webhook event secret) by assumption.
    reflexivity.
Qed.

Lemma session_cookie_opens_page_gate_witness :
  let instance := Scenario.instance_at (Some (JNum 0)) in
  let event := Scenario.request None (Some (session_cookie_pair instance (session_jwt "s3cr3t" instance 1000))) in
  Password.verifyAccessOrPasswordPage Scenario.getClientSecret 605859 instance Scenario.webhook event
  = Return GateOk
  /\ Password.verifyAccessOrPasswordPage Scenario.getClientSecret 605860 instance Scenario.webhook event
     = Return (GateDenied PASSWORD_PAGE_HTML None).
Proof.
  cbv zeta.
  set (instance := Scenario.instance_at (Some (JNum 0))).
  set (event := Scenario.request None (Some (session_cookie_pair instance (session_jwt "s3cr3t" instance 1000)))).
  assert (Hc : cookie_header event
               = Some (session_cookie_pair instance (session_jwt "s3cr3t" instance 1000)))
    by (vm_compute; reflexivity).
  split.
  - refine (proj1 (session_cookie_opens_page_gate Scenario.getClientSecret 605859 1000 Scenario.cognito
                     instance Scenario.webhook event "s3cr3t" eq_refl _ _ eq_refl eq_refl eq_refl) Hc);
      discriminate.
  - refine (proj1 (session_cookie_opens_page_gate Scenario.getClientSecret 605860 1000 Scenario.cognito
                     instance Scenario.webhook event "s3cr3t" eq_refl _ _ eq_refl eq_refl eq_refl) Hc);
      discriminate.
Defined.

(** ** The session at the API gate *)

Section ApiSession.
Variable loadInstance : string -> Completion (option Instance).
Variable loadWebhook : string -> Completion (option Webhook).
Variable getClientSecret : string -> Completion string.

(** The API gate on a request that carries the session token of the instance. *)
Lemma verifyJWTForAPI_minted (now now' iat : Z) (instance : Instance) (webhook : Webhook) (event : Event)
    (secret : string) :
  loadInstance (id instance) = Return (Some instance) ->
  loadWebhook (WebhookID instance) = Return (Some webhook) ->
  getClientSecret (ClientID webhook) = Return secret ->
  secret <> "" -> id instance <> "" ->
  forallb plain (chars (id instance)) = true ->
  api_cookie_header event = Some (session_cookie_pair instance (session_jwt secret instance iat)) ->
  0 <= iat ->
  Jwt.verifyJWTForAPI loadInstance loadWebhook getClientSecret now now' event (id instance)
  = if iat + Cookie.COOKIE_TTL_SEC <=? now - 60 then ApiFail "Invalid authentication token"
    else if Js.number_neq (Some (Js.ToUint32 (tokenVersion instance)))
              (Js.parseInt (Js.or_else (tokenVersion instance) (Some (JNum 0))))
    then ApiFail "Token has been revoked"
    else if iat + Cookie.COOKIE_TTL_SEC <? now' then ApiFail "Token expired"
    else ApiOk instance webhook
           (JObj (Token.jwt_body (session_claims instance) Cookie.COOKIE_TTL_SEC "tgl"
                    (Some ("wi:" ++ id instance)%string) iat)).
Proof.
  intros Hli Hlw Hs Hne Hid Hplain Hc Hiat.
  unfold Jwt.verifyJWTForAPI, Jwt.verifyJWTForAPI_body. rewrite Hli. cbn [bind].
  rewrite Hlw. cbn [bind]. rewrite Hs. cbn [bind].
  apply String.eqb_neq in Hne as Hne'. rewrite Hne'.
  destruct (proj2 (key_derivation_keys (Some secret) (Some (id instance))) secret (id instance)
              eq_refl eq_refl Hne Hid) as (_ & Hk).
  rewrite Hk. cbn [bind]. fold (api_cookie_header event). rewrite Hc.
  rewrite session_cookie_parses by exact Hplain. cbn [bind].
  rewrite lookup_singleton_eq, session_jwt_given. cbn [negb].
  change (default "" (Some ?x)) with x. cbv zeta. unfold session_jwt.
  rewrite verify_created by apply session_claims_well_formed. cbv zeta.
  destruct (jwt_body_get (session_claims instance) Cookie.COOKIE_TTL_SEC "tgl"
              (Some ("wi:" ++ id instance)%string) iat) as (_ & _ & _ & Hexp & Hother).
  rewrite (Hother "nbf" eq_refl). change (obj_get (session_claims instance) "nbf") with (@None json).
  cbn [number_lt]. rewrite Hexp. change (0 <? Cookie.COOKIE_TTL_SEC) with true. cbn [number_le].
  destruct (iat + Cookie.COOKIE_TTL_SEC <=? now - 60); cbn [catch]; [reflexivity|].
  set (expected := Js.parseInt (Js.or_else (tokenVersion instance) (Some (JNum 0)))).
  unfold Js.or_else. cbn [truthy get_prop_opt get_prop default].
  rewrite (Hother "iid" eq_refl), (Hother "tv" eq_refl), Hexp.
  change (0 <? Cookie.COOKIE_TTL_SEC) with true.
  cbn [session_claims obj_get String.eqb Ascii.eqb Bool.eqb strict_eq_string].
  rewrite String.eqb_refl. cbn [negb]. rewrite parseInt_number.
  destruct (Js.number_neq _ _); cbn [catch]; [reflexivity|].
  cbn [truthy]. unfold Js.lt_number. cbn [Js.ToNumber Z.leb Z.compare].
  rewrite Z.pow_0_r, Z.mul_1_r.
  assert (E : (iat + Cookie.COOKIE_TTL_SEC =? 0) = false).
  { apply Z.eqb_neq. unfold Cookie.COOKIE_TTL_SEC. lia. }
  rewrite E. cbn [negb andb].
  destruct (iat + Cookie.COOKIE_TTL_SEC <? now'); reflexivity.
Qed.

End ApiSession.

(** X15.  The API gate on the session token of the instance, sent back as the
    cookie pair the server set.  With a revocation counter that is absent or
    an integer from 0 to 2^32 - 1 it answers ok until the token expires; it
    applies the 60 seconds of clock skew in the verifier but not in its own
    expiry check, so that in the seconds after expiry it answers
    [Token expired] where the page gate still lets the token through.  With
    an integer counter outside that range it answers [Token has been revoked]
    to the token the server has just minted for that very counter. *)
Theorem session_cookie_and_api_gate
    (loadInstance : string -> Completion (option Instance))
    (loadWebhook : string -> Completion (option Webhook))
    (getClientSecret : string -> Completion string)
    (now now' iat : Z) (instance : Instance) (webhook : Webhook) (event : Event) (secret : string) :
  loadInstance (id instance) = Return (Some instance) ->
  loadWebhook (WebhookID instance) = Return (Some webhook) ->
  getClientSecret (ClientID webhook) = Return secret ->
  secret <> "" -> id instance <> "" ->
  forallb plain (chars (id instance)) = true ->
  api_cookie_header event = Some (session_cookie_pair instance (session_jwt secret instance iat)) ->
  0 <= iat ->
  let verdict := Jwt.verifyJWTForAPI loadInstance loadWebhook getClientSecret now now' event (id instance) in
  let exp := iat + Cookie.COOKIE_TTL_SEC in
  (exp <= now - 60 -> verdict = ApiFail "Invalid authentication token")
  /\ (tokenVersion instance = None
      \/ (exists n, tokenVersion instance = Some (JNum n) /\ 0 <= n < 2 ^ 32) ->
      (now - 60 < exp -> now' <= exp ->
       verdict = ApiOk instance webhook
                   (JObj (Token.jwt_body (session_claims instance) Cookie.COOKIE_TTL_SEC "tgl"
                            (Some ("wi:" ++ id instance)%string) iat)))
      /\ (now - 60 < exp -> exp < now' -> verdict = ApiFail "Token expired"))
  /\ (forall n, tokenVersion instance = Some (JNum n) -> n < 0 \/ 2 ^ 32 <= n ->
                now - 60 < exp -> verdict = ApiFail "Token has been revoked").
Proof.
  intros Hli Hlw Hs Hne Hid Hplain Hc Hiat verdict exp. subst verdict.
  rewrite (verifyJWTForAPI_minted loadInstance loadWebhook getClientSecret now now' iat instance webhook
             event secret) by assumption.
  fold exp.
  split; [|split].
  - intros H. apply Z.leb_le in H. rewrite H. reflexivity.
  - intros Hcounter.
    assert (Hsame : Js.number_neq (Some (Js.ToUint32 (tokenVersion instance)))
                      (Js.parseInt (Js.or_else (tokenVersion instance) (Some (JNum 0)))) = false).
    { destruct Hcounter as [-> | (n & -> & Hn)].
      - reflexivity.
      - rewrite or_else_counter, ToUint32_number. cbn [Js.number_neq].
        rewrite Z.mod_small by exact Hn. rewrite Z.eqb_refl. reflexivity. }
    rewrite Hsame. split; intros H1 H2.
    + apply Z.leb_gt in H1. rewrite H1. apply Z.ltb_ge in H2. rewrite H2. reflexivity.
    + apply Z.leb_gt in H1. rewrite H1. apply Z.ltb_lt in H2. rewrite H2. reflexivity.
  - intros n Hn Hout H1. apply Z.leb_gt in H1. rewrite H1, Hn.
    rewrite or_else_counter, ToUint32_number. cbn [Js.number_neq].
    assert (E : (n mod 2 ^ 32 =? n) = false).
    { apply Z.eqb_neq. pose proof (Z.mod_pos_bound n (2 ^ 32)). lia. }
    rewrite E. reflexivity.
Qed.

Lemma session_cookie_and_api_gate_witness :
  let instance := Scenario.instance_at (Some (JNum 0)) in
  let event := Scenario.request None (Some (session_cookie_pair instance (session_jwt "s3cr3t" instance 1000))) in
  Jwt.verifyJWTForAPI (Scenario.loadInstance (Some (JNum 0))) Scenario.loadWebhook Scenario.getClientSecret
    605830 605830 event "I1"
  = ApiFail "Token expired".
Proof.
  cbv zeta.
  set (instance := Scenario.instance_at (Some (JNum 0))).
  set (event := Scenario.request None (Some (session_cookie_pair instance (session_jwt "s3cr3t" instance 1000)))).
  assert (Hc : api_cookie_header event
               = Some (session_cookie_pair instance (session_jwt "s3cr3t" instance 1000)))
    by (vm_compute; reflexivity).
  pose proof (session_cookie_and_api_gate (Scenario.loadInstance (Some (JNum 0))) Scenario.loadWebhook
                Scenario.getClientSecret 605830 605830 1000 instance Scenario.webhook event "s3cr3t"
                eq_refl eq_refl eq_refl ltac:(discriminate) ltac:(discriminate) eq_refl Hc
                ltac:(discriminate)) as H.
  cbv zeta in H. destruct H as (_ & H & _).
  destruct H as [_ H].
  - right. exists 0. split; [reflexivity | split; [discriminate | reflexivity]].
  - apply H; reflexivity.
Defined.

(** ** Pieces of a path *)

Lemma join_cons (sep x y : list ascii) (l : list (list ascii)) :
  Json.join sep (x :: y :: l) = x ++ sep ++ Json.join sep (y :: l).
Proof. reflexivity. Qed.

Lemma join_split_on (sep : ascii) (s : list ascii) : Json.join [sep] (split_on sep s) = s.
Proof.
  induction s as [|c rest IH]; [reflexivity|].
  cbn [split_on]. pose proof (split_on_nonempty sep rest) as Hn.
  destruct (split_on sep rest) as [|p ps] eqn:E; [congruence|].
  destruct (Ascii.eqb_spec c sep) as [->|Hne].
  - rewrite join_cons, IH. reflexivity.
  - destruct ps as [|q qs].
    + cbn [Json.join] in *. rewrite IH. reflexivity.
    + rewrite join_cons in *. rewrite <- IH. reflexivity.
Qed.

Lemma prefix_append (a b : string) : String.prefix a (a ++ b)%string = true.
Proof.
  induction a as [|c a IH]; [destruct b; reflexivity|].
  simpl. destruct (ascii_dec c c); [exact IH | congruence].
Qed.

Lemma includes_slash (s : list ascii) :
  Js.includes_chars s ["/"%char] = false <-> Forall (fun c => Ascii.eqb c "/"%char = false) s.
Proof.
  induction s as [|c rest IH].
  - split; [constructor | reflexivity].
  - cbn [Js.includes_chars str string_of_list_ascii String.prefix].
    destruct (ascii_dec "/"%char c) as [<-|Hne].
    + split; [intros H; destruct (string_of_list_ascii rest); discriminate H|].
      intros H. inversion H as [|? ? Hc _]. discriminate Hc.
    + cbn [orb]. rewrite IH. split.
      * intros H. constructor; [|exact H]. apply Ascii.eqb_neq. congruence.
      * intros H. inversion H. assumption.
Qed.

Lemma includes_no_slash (s : string) :
  Js.includes s "/" = false -> Forall (fun c => Ascii.eqb c "/"%char = false) (chars s).
Proof. intros H. apply includes_slash. exact H. Qed.

Lemma includes_slash_app (a b : list ascii) : Js.includes_chars (a ++ "/"%char :: b) ["/"%char] = true.
Proof.
  destruct (Js.includes_chars (a ++ "/"%char :: b) ["/"%char]) eqn:E; [reflexivity|].
  apply includes_slash in E. apply Forall_app in E. destruct E as [_ E].
  inversion E as [|? ? Hc _]. discriminate Hc.
Qed.

(** ** Files stored by a submission and found again by the page *)

Section S3Facts.

Variable generatePresignedUrl : option string -> string -> Completion string.

Lemma s3_pieces (BUCKET key : string) :
  Js.includes BUCKET "/" = false ->
  split_on "/"%char (chars (S3.s3FilePath BUCKET key))
  = chars "s3:" :: [] :: chars BUCKET :: split_on "/"%char (chars key).
Proof.
  intros HB. apply includes_no_slash in HB.
  replace (chars (S3.s3FilePath BUCKET key))
    with (chars "s3:" ++ "/"%char :: ([] ++ "/"%char :: (chars BUCKET ++ "/"%char :: chars key))).
  - rewrite !split_on_app.
    rewrite (split_on_absent "/"%char (chars "s3:")) by (repeat constructor).
    rewrite (split_on_absent _ _ HB). reflexivity.
  - unfold S3.s3FilePath. rewrite !chars_append. reflexivity.
Qed.

End S3Facts.

Section S3Round.

Variable generatePresignedUrl : option string -> string -> Completion string.

Lemma signed_file_stored (BUCKET key : string) (props : list (string * json)) :
  Js.includes BUCKET "/" = false ->
  obj_get props "filePath" = Some (JStr (S3.s3FilePath BUCKET key)) ->
  S3.signed_file generatePresignedUrl (JObj props)
  = let! url := generatePresignedUrl (Some BUCKET) key in
    Return (JObj (obj_set props "fileUrl" (JStr url))).
Proof.
  intros HB Hp. unfold S3.signed_file. cbn [get_prop_strict get_prop bind]. rewrite Hp.
  assert (Hs : Js.startsWith (S3.s3FilePath BUCKET key) "s3://" = true).
  { unfold Js.startsWith, S3.s3FilePath. apply prefix_append. }
  rewrite Hs. rewrite (s3_pieces BUCKET key HB).
  cbn [nth_error option_map skipn].
  change (skipn 0 (split_on "/"%char (chars key))) with (split_on "/"%char (chars key)).
  rewrite join_split_on, !str_chars. reflexivity.
Qed.

(** X16.  A file stored by a submission is found again when the page is
    shown: for a bucket whose name has no [/], [getSignedUrlsForFiles] asks
    the presigner for exactly the bucket and the key that [handlePostRequest]
    wrote into the file's [filePath], whatever the key contains, and adds
    the URL it gets as [fileUrl]; a file without a [filePath] is passed on
    unchanged and the presigner is not asked. *)
Theorem stored_file_is_found_again (BUCKET key : string) (props : list (string * json))
    (rest : list json) :
  Js.includes BUCKET "/" = false ->
  (obj_get props "filePath" = Some (JStr (S3.s3FilePath BUCKET key)) ->
   S3.getSignedUrlsForFiles generatePresignedUrl (JObj props :: rest)
   = let! url := generatePresignedUrl (Some BUCKET) key in
     let! out := S3.getSignedUrlsForFiles generatePresignedUrl rest in
     Return (JObj (obj_set props "fileUrl" (JStr url)) :: out))
  /\ (obj_get props "filePath" = None ->
      S3.getSignedUrlsForFiles generatePresignedUrl (JObj props :: rest)
      = let! out := S3.getSignedUrlsForFiles generatePresignedUrl rest in
        Return (JObj props :: out)).
Proof.
  intros HB. split; intros Hp.
  - cbn [S3.getSignedUrlsForFiles]. rewrite (signed_file_stored BUCKET key props HB Hp).
    destruct (generatePresignedUrl (Some BUCKET) key); reflexivity.
  - cbn [S3.getSignedUrlsForFiles]. unfold S3.signed_file.
    cbn [get_prop_strict get_prop bind]. rewrite Hp. reflexivity.
Qed.

End S3Round.

Lemma stored_file_is_found_again_witness :
  let presign (b : option string) (k : string) := Return (default "" b ++ "|" ++ k)%string in
  let path := S3.s3FilePath "tgltoolboxuserfiles210135-staging"
                (S3.s3Key "public/clientWebhookInstanceFiles" "I1" "scans/a b.png") in
  S3.getSignedUrlsForFiles presign [JObj [("filePath", JStr path); ("size", JNum 3)]]
  = Return [JObj [("filePath", JStr path); ("size", JNum 3);
                  ("fileUrl",
                   JStr "tgltoolboxuserfiles210135-staging|public/clientWebhookInstanceFiles/I1/scans/a b.png")]].
Proof.
  cbv zeta.
  exact (proj1 (stored_file_is_found_again
                  (fun (b : option string) (k : string) => Return (default "" b ++ "|" ++ k)%string)
                  "tgltoolboxuserfiles210135-staging"
                  (S3.s3Key "public/clientWebhookInstanceFiles" "I1" "scans/a b.png")
                  [("filePath",
                    JStr (S3.s3FilePath "tgltoolboxuserfiles210135-staging"
                            (S3.s3Key "public/clientWebhookInstanceFiles" "I1" "scans/a b.png")));
                   ("size", JNum 3)]
                  [] eq_refl) eq_refl).
Defined.

(** ** The instance a path names *)

Lemma str_app (a b : list ascii) : str (a ++ b) = (str a ++ str b)%string.
Proof.
  unfold str. induction a as [|c a IH]; [reflexivity|]. simpl. rewrite IH. reflexivity.
Qed.

Lemma endsWith_append (a suffix : string) : Js.endsWith (a ++ suffix) suffix = true.
Proof.
  unfold Js.endsWith. rewrite chars_append, rev_app_distr, str_app. apply prefix_append.
Qed.

Lemma given_append (a b : string) : b <> "" -> Token.given (Some (a ++ b)%string) = true.
Proof.
  intros Hb. unfold Token.given, Token.missing_or_empty. apply negb_true_iff.
  apply String.eqb_neq. destruct a; [exact Hb | discriminate].
Qed.

Lemma given_nonempty (a : string) : a <> "" -> Token.given (Some a) = true.
Proof.
  intros Ha. unfold Token.given, Token.missing_or_empty. apply negb_true_iff.
  apply String.eqb_neq. exact Ha.
Qed.

Lemma strip_suffix (a suffix : string) :
  str (firstn (length (chars (a ++ suffix)) - length (chars suffix)) (chars (a ++ suffix))) = a.
Proof.
  rewrite chars_append, length_app.
  replace (length (chars a) + length (chars suffix) - length (chars suffix))%nat
    with (length (chars a)) by lia.
  rewrite firstn_app, firstn_all, Nat.sub_diag. cbn [firstn]. rewrite app_nil_r. apply str_chars.
Qed.

(** A prefix that ends in the separator fixes the piece before the
    first separator. *)
Lemma prefix_piece (sep : ascii) (p x y : list ascii) :
  Forall (fun c => Ascii.eqb c sep = false) p ->
  Forall (fun c => Ascii.eqb c sep = false) x ->
  String.prefix (str (p ++ [sep])) (str (x ++ sep :: y)) = true -> x = p.
Proof.
  revert x. induction p as [|c p IH]; intros x Hp Hx H.
  - destruct x as [|d x]; [reflexivity|]. exfalso.
    cbn in H. destruct (ascii_dec sep d) as [<-|Hne]; [|discriminate H].
    inversion Hx as [|? ? Hd _]. rewrite Ascii.eqb_refl in Hd. discriminate Hd.
  - destruct x as [|d x].
    + exfalso. cbn in H. destruct (ascii_dec c sep) as [->|Hne]; [|discriminate H].
      inversion Hp as [|? ? Hc _]. rewrite Ascii.eqb_refl in Hc. discriminate Hc.
    + cbn in H. destruct (ascii_dec c d) as [<-|Hne]; [|discriminate H].
      f_equal. apply IH; [inversion Hp; assumption | inversion Hx; assumption | exact H].
Qed.

Lemma endsWith_auth_piece (w e : string) :
  Js.includes e "/" = false -> e <> "auth" -> Js.endsWith (w ++ "/" ++ e) "/auth" = false.
Proof.
  intros He Hne. destruct (Js.endsWith (w ++ "/" ++ e) "/auth") eqn:E; [exfalso | reflexivity].
  apply Hne. unfold Js.endsWith in E. rewrite !chars_append, !rev_app_distr in E.
  change (rev (chars "/auth")) with (chars "htua" ++ ["/"%char]) in E.
  change (rev (chars "/")) with ["/"%char] in E. rewrite <- app_assoc in E. cbn [app] in E.
  apply prefix_piece in E.
  - rewrite <- (str_chars e), <- (rev_involutive (chars e)), E. reflexivity.
  - repeat constructor.
  - apply Forall_rev'. apply includes_no_slash. exact He.
Qed.

Lemma includes_direct (a : string) (b : string) :
  Js.includes (a ++ "/" ++ b) "/" = true.
Proof.
  unfold Js.includes. rewrite !chars_append. apply includes_slash_app.
Qed.

Lemma split_composite (w e : string) :
  Js.includes w "/" = false -> Js.includes e "/" = false ->
  String_split "/"%char (w ++ "/" ++ e) = [w; e].
Proof.
  intros Hw He. unfold String_split. rewrite !chars_append.
  change (chars "/" ++ chars e) with ("/"%char :: chars e). rewrite split_on_app.
  rewrite (split_on_absent _ _ (includes_no_slash _ Hw)),
          (split_on_absent _ _ (includes_no_slash _ He)).
  cbn [app map]. rewrite !str_chars. reflexivity.
Qed.

Lemma prefix_needs_sep (sep : ascii) (p z : list ascii) :
  Forall (fun c => Ascii.eqb c sep = false) z ->
  String.prefix (str (p ++ [sep])) (str z) = false.
Proof.
  revert z. induction p as [|a p IH]; intros z Hz; destruct z as [|d z]; cbn; try reflexivity.
  - destruct (ascii_dec sep d) as [<-|Hne]; [|reflexivity].
    inversion Hz as [|? ? Hd _]. rewrite Ascii.eqb_refl in Hd. discriminate Hd.
  - destruct (ascii_dec a d) as [<-|Hne]; [|reflexivity].
    apply IH. inversion Hz; assumption.
Qed.

Lemma endsWith_no_slash (id : string) : Js.includes id "/" = false -> Js.endsWith id "/auth" = false.
Proof.
  intros H. unfold Js.endsWith.
  change (rev (chars "/auth")) with (chars "htua" ++ ["/"%char]).
  apply prefix_needs_sep. apply Forall_rev'. apply includes_no_slash. exact H.
Qed.

Section Resolve.

Variable query : option string -> option string -> Completion (option string).

Lemma resolve_direct (id : string) :
  id <> "" -> Js.endsWith id "/auth" = false -> Js.includes id "/" = false ->
  InstanceService.resolveInstanceId query (Some id) = Return id.
Proof.
  intros Hne Hend Hinc. unfold InstanceService.resolveInstanceId.
  rewrite (given_nonempty id Hne). cbn [negb default]. unfold Datatypes.id.
  rewrite Hend, Hinc. reflexivity.
Qed.

Lemma resolve_composite (w e : string) :
  Js.includes w "/" = false -> Js.includes e "/" = false ->
  Js.endsWith (w ++ "/" ++ e) "/auth" = false ->
  InstanceService.resolveInstanceId query (Some (w ++ "/" ++ e)%string) = composite_id query w e.
Proof.
  intros Hw He Hend. unfold InstanceService.resolveInstanceId, composite_id.
  rewrite given_append by discriminate. cbn [negb default]. unfold Datatypes.id.
  rewrite Hend, includes_direct, (split_composite w e Hw He). cbn [nth_error].
  destruct (query (Some w) (Some e)) as [[id|]|err]; cbn [bind]; try reflexivity.
  unfold Token.given, Token.missing_or_empty. destruct (String.eqb id ""); reflexivity.
Qed.

Lemma resolve_suffix (g : string) :
  InstanceService.resolveInstanceId query (Some (g ++ "/auth")%string)
  = if Js.includes g "/" then
      let pieces := String_split "/"%char g in
      let! found := query (nth_error pieces 0) (nth_error pieces 1) in
      if negb (Token.given found) then Throw Error else Return (default "" found)
    else Return g.
Proof.
  unfold InstanceService.resolveInstanceId.
  rewrite given_append by discriminate. cbn [negb default]. unfold Datatypes.id.
  rewrite endsWith_append.
  change 5%nat with (length (chars "/auth")). rewrite strip_suffix. reflexivity.
Qed.

Lemma pieces_composite (w e : string) :
  Js.includes w "/" = false -> Js.includes e "/" = false ->
  (let pieces := String_split "/"%char (w ++ "/" ++ e) in
   let! found := query (nth_error pieces 0) (nth_error pieces 1) in
   if negb (Token.given found) then Throw Error else Return (default "" found))
  = composite_id query w e.
Proof.
  intros Hw He. cbv zeta. rewrite (split_composite w e Hw He). cbn [nth_error].
  unfold composite_id.
  destruct (query (Some w) (Some e)) as [[id|]|err]; cbn [bind]; try reflexivity.
  unfold Token.given, Token.missing_or_empty. destruct (String.eqb id ""); reflexivity.
Qed.

End Resolve.

(** X17.  [resolveInstanceId] reads the path parameter as follows.  A
    missing or empty parameter is an error.  A trailing [/auth] is dropped
    first, so that an id without [/] names the same instance with and
    without the suffix, and [/auth] alone gives the empty id rather than an
    error.  What remains is the id itself when it has no [/], without any
    query; otherwise its first two pieces are looked up as webhook and
    external id, and a missing or empty result is an error.  An external
    id that is literally [auth] is only reached with the suffix, because
    without it the id is taken for the suffix. *)
Theorem instance_id_resolution
    (query : option string -> option string -> Completion (option string)) :
  (forall greedy, Token.given greedy = false ->
                  InstanceService.resolveInstanceId query greedy = Throw Error)
  /\ (forall id, Js.includes id "/" = false ->
        InstanceService.resolveInstanceId query (Some (id ++ "/auth")%string) = Return id
        /\ (id <> "" -> InstanceService.resolveInstanceId query (Some id) = Return id))
  /\ (forall w e, Js.includes w "/" = false -> Js.includes e "/" = false ->
        InstanceService.resolveInstanceId query (Some (w ++ "/" ++ e ++ "/auth")%string)
        = composite_id query w e
        /\ (e <> "auth" ->
            InstanceService.resolveInstanceId query (Some (w ++ "/" ++ e)%string)
            = composite_id query w e)
        /\ InstanceService.resolveInstanceId query (Some (w ++ "/" ++ "auth")%string) = Return w).
Proof.
  split; [|split].
  - intros greedy H. unfold InstanceService.resolveInstanceId. rewrite H. reflexivity.
  - intros id Hid. split.
    + rewrite resolve_suffix, Hid. reflexivity.
    + intros Hne. apply resolve_direct; [exact Hne | apply endsWith_no_slash; exact Hid | exact Hid].
  - intros w e Hw He. split; [|split].
    + replace (w ++ "/" ++ e ++ "/auth")%string with ((w ++ "/" ++ e) ++ "/auth")%string
        by (rewrite <- !string_app_assoc; reflexivity).
      rewrite resolve_suffix, includes_direct. apply (pieces_composite query w e Hw He).
    + intros Hne. apply resolve_composite; [exact Hw | exact He |].
      apply endsWith_auth_piece; assumption.
    + change (w ++ "/" ++ "auth")%string with (w ++ "/auth")%string.
      rewrite resolve_suffix, Hw. reflexivity.
Qed.

Lemma instance_id_resolution_witness :
  let query (w e : option string) :=
    if decide (w = Some "W1" /\ e = Some "order-7") then Return (Some "I9") else Return None in
  InstanceService.resolveInstanceId query (Some "I1/auth") = Return "I1"
  /\ InstanceService.resolveInstanceId query (Some "I1") = Return "I1"
  /\ InstanceService.resolveInstanceId query (Some "W1/order-7/auth") = Return "I9"
  /\ InstanceService.resolveInstanceId query (Some "W1/order-7") = Return "I9"
  /\ InstanceService.resolveInstanceId query (Some "W1/order-8") = Throw Error.
Proof.
  cbv zeta.
  set (query := fun w e : option string =>
                  if decide (w = Some "W1" /\ e = Some "order-7") then Return (Some "I9")
                  else Return None).
  destruct (instance_id_resolution query) as (_ & Hdirect & Hcomposite).
  destruct (Hdirect "I1" eq_refl) as [H1 H2].
  destruct (Hcomposite "W1" "order-7" eq_refl eq_refl) as (H3 & H4 & _).
  destruct (Hcomposite "W1" "order-8" eq_refl eq_refl) as (_ & H5 & _).
  split; [exact H1 | split; [apply H2; discriminate | split; [exact H3 | split]]].
  - apply H4. discriminate.
  - exact (H5 ltac:(discriminate)).
Defined.

(** ** The page handler *)

Section GetFacts.

Variable markup : Page -> string.
Variable resolveInstanceId : option string -> Completion string.
Variable loadInstance : string -> Completion (option Instance).
Variable loadWebhook : string -> Completion (option Webhook).
Variable Client : Type.
Variable loadClient : string -> Completion Client.
Variable getClientSecret : string -> Completion string.
Variable now : Z.
Variable gate : Instance -> Webhook -> Event -> Completion GateResult.
Variable render : string -> Instance -> Webhook -> Client -> Completion string.

Lemma handleGetRequest_gate (event : Event) (instanceID : string) (instance : Instance)
    (webhook : Webhook) (client : Client) :
  accepts_html event = true ->
  resolveInstanceId (greedy_id event) = Return instanceID ->
  loadInstance instanceID = Return (Some instance) ->
  loadWebhook (WebhookID instance) = Return (Some webhook) ->
  loadClient (ClientID webhook) = Return client ->
  Get.handleGetRequest markup resolveInstanceId loadInstance loadWebhook Client loadClient
    getClientSecret now gate render event
  = let! verdict := gate instance webhook event in
    if gate_ok verdict then
      let! document := render instanceID instance webhook client in
      Return (page (Get.minted_headers getClientSecret now instance webhook) document)
    else Return (page html_headers (markup PASSWORD_PAGE_HTML)).
Proof.
  intros Ha Hr Hi Hw Hc. unfold Get.handleGetRequest. unfold accepts_html in Ha. rewrite Ha.
  cbn [negb]. cbv zeta. fold (greedy_id event). rewrite Hr. cbn [bind].
  rewrite Hi. cbn [bind Post.required]. rewrite Hw. cbn [bind Post.required]. rewrite Hc. cbn [bind].
  destruct (gate instance webhook event) as [verdict|e]; [|reflexivity]. cbn [bind].
  destruct (gate_ok verdict); reflexivity.
Qed.

Lemma minted_headers_secret (instance : Instance) (webhook : Webhook) (secret : string) :
  getClientSecret (ClientID webhook) = Return secret -> secret <> "" -> id instance <> "" ->
  Get.minted_headers getClientSecret now instance webhook
  = session_headers instance (session_jwt secret instance now).
Proof.
  intros Hs Hne Hid. unfold Get.minted_headers. rewrite Hs. cbn [bind].
  unfold Token.deriveCookieSigningKey, Token.missing_or_empty.
  apply String.eqb_neq in Hne, Hid. rewrite Hne, Hid. reflexivity.
Qed.

Lemma minted_headers_failure (instance : Instance) (webhook : Webhook) (e : JsError) :
  getClientSecret (ClientID webhook) = Throw e ->
  Get.minted_headers getClientSecret now instance webhook = html_headers.
Proof. intros Hs. unfold Get.minted_headers. rewrite Hs. reflexivity. Qed.

End GetFacts.

(** X18.  What a browser gets from [handleGetRequest] for an instance that
    the stores know, when it asks for HTML.  On a webhook without password
    protection the page is served, with a fresh session cookie when the
    client has a secret and without one when the secret cannot be read.  On
    a protected webhook a request without query token and without cookie
    gets the password page, with status 200, and the page is not rendered.
    A request that sends back the session cookie minted at [iat] gets the
    password page once [iat] plus seven days lies 60 seconds or more in the
    past; before that it gets the page together with a new session cookie
    minted at the time of the request, so that the session slides forward
    with every visit. *)
Theorem page_request_outcome
    (markup : Page -> string) (resolveInstanceId : option string -> Completion string)
    (loadInstance : string -> Completion (option Instance))
    (loadWebhook : string -> Completion (option Webhook))
    (Client : Type) (loadClient : string -> Completion Client)
    (getClientSecret : string -> Completion string) (now now' : Z)
    (render : string -> Instance -> Webhook -> Client -> Completion string)
    (event : Event) (instanceID : string) (instance : Instance) (webhook : Webhook) (client : Client) :
  accepts_html event = true ->
  resolveInstanceId (greedy_id event) = Return instanceID ->
  loadInstance instanceID = Return (Some instance) ->
  loadWebhook (WebhookID instance) = Return (Some webhook) ->
  loadClient (ClientID webhook) = Return client ->
  let answer :=
    Get.handleGetRequest markup resolveInstanceId loadInstance loadWebhook Client loadClient
      getClientSecret now' (Password.verifyAccessOrPasswordPage getClientSecret now) render event in
  let served headers :=
    let! document := render instanceID instance webhook client in Return (page headers document) in
  let password_page := Return (page html_headers (markup PASSWORD_PAGE_HTML)) in
  (passwordProtected webhook = false ->
   (forall secret, getClientSecret (ClientID webhook) = Return secret -> secret <> "" ->
                   id instance <> "" ->
                   answer = served (session_headers instance (session_jwt secret instance now')))
   /\ (forall e, getClientSecret (ClientID webhook) = Throw e -> answer = served html_headers))
  /\ (passwordProtected webhook = true ->
      Token.given (query_token event) = false -> cookie_header event = None ->
      answer = password_page)
  /\ (passwordProtected webhook = true ->
      Token.given (query_token event) && Token.given (authKey instance) = false ->
      forall secret iat,
        getClientSecret (ClientID webhook) = Return secret -> secret <> "" -> id instance <> "" ->
        forallb plain (chars (id instance)) = true ->
        cookie_header event = Some (session_cookie_pair instance (session_jwt secret instance iat)) ->
        answer = if iat + Cookie.COOKIE_TTL_SEC <=? now - 60 then password_page
                 else served (session_headers instance (session_jwt secret instance now'))).
Proof.
  intros Ha Hr Hi Hw Hc answer served password_page. subst answer.
  rewrite (handleGetRequest_gate markup resolveInstanceId loadInstance loadWebhook Client loadClient
             getClientSecret now' _ render event instanceID instance webhook client Ha Hr Hi Hw Hc).
  split; [|split].
  - intros Hp. unfold Password.verifyAccessOrPasswordPage. rewrite Hp. cbn [negb bind gate_ok].
    split.
    + intros secret Hs Hne Hid.
      rewrite (minted_headers_secret getClientSecret now' instance webhook secret Hs Hne Hid).
      reflexivity.
    + intros e Hs. rewrite (minted_headers_failure getClientSecret now' instance webhook e Hs).
      reflexivity.
  - intros Hp Hq Hcookie. rewrite verifyAccessOrPasswordPage_flow by exact Hp. rewrite Hcookie.
    change (Cookie.getCookieMap None) with (Return (∅ : gmap string string)). cbn [bind].
    rewrite lookup_empty. unfold Password.password_flow. rewrite Hq. reflexivity.
  - intros Hp Hlegacy secret iat Hs Hne Hid Hplain Hcookie.
    rewrite (page_gate_minted getClientSecret now iat instance webhook event secret
               Hs Hne Hid Hplain Hp Hlegacy Hcookie).
    cbn [bind]. destruct (iat + Cookie.COOKIE_TTL_SEC <=? now - 60); cbn [gate_ok].
    + reflexivity.
    + rewrite (minted_headers_secret getClientSecret now' instance webhook secret Hs Hne Hid).
      reflexivity.
Qed.

Lemma page_request_outcome_witness :
  let instance := Scenario.instance_at (Some (JNum 0)) in
  let get now now' cookie :=
    Get.handleGetRequest Visit.markup Visit.resolveInstanceId (Scenario.loadInstance (Some (JNum 0)))
      Scenario.loadWebhook unit Visit.loadClient Scenario.getClientSecret now'
      (Password.verifyAccessOrPasswordPage Scenario.getClientSecret now) Visit.render
      (Visit.request cookie) in
  get 2000 2001 (Some (session_cookie_pair instance (session_jwt "s3cr3t" instance 1000)))
  = Return (page (session_headers instance (session_jwt "s3cr3t" instance 2001)) "<p>I1</p>")
  /\ get 2000 2001 None = Return (page html_headers "<form>password</form>").
Proof.
  cbv zeta.
  set (instance := Scenario.instance_at (Some (JNum 0))).
  pose proof (fun cookie =>
                page_request_outcome Visit.markup Visit.resolveInstanceId
                  (Scenario.loadInstance (Some (JNum 0))) Scenario.loadWebhook unit Visit.loadClient
                  Scenario.getClientSecret 2000 2001 Visit.render (Visit.request cookie) "I1" instance
                  Scenario.webhook tt eq_refl eq_refl eq_refl eq_refl eq_refl) as H.
  cbv zeta in H. split.
  - destruct (H (Some (session_cookie_pair instance (session_jwt "s3cr3t" instance 1000))))
      as (_ & _ & Hcookie).
    apply (Hcookie eq_refl eq_refl "s3cr3t" 1000 eq_refl);
      [discriminate | discriminate | reflexivity | vm_compute; reflexivity].
  - destruct (H None) as (_ & Hnone & _). apply Hnone; reflexivity.
Defined.

(** ** The upload endpoints *)

Lemma segment_spec (s : list ascii) :
  Forall (fun c => Ascii.eqb c "/"%char = false) (fst (UploadUrl.segment s))
  /\ s = fst (UploadUrl.segment s) ++ snd (UploadUrl.segment s).
Proof.
  induction s as [|c rest [IH1 IH2]]; [split; [constructor | reflexivity]|].
  cbn [UploadUrl.segment]. destruct (Ascii.eqb c "/"%char) eqn:E.
  - split; [constructor | reflexivity].
  - destruct (UploadUrl.segment rest) as [seg tail]. cbn [fst snd] in *. split.
    + constructor; assumption.
    + cbn [app]. f_equal. exact IH2.
Qed.

Lemma no_slash_includes (s : list ascii) :
  Forall (fun c => Ascii.eqb c "/"%char = false) s -> Js.includes (str s) "/" = false.
Proof. intros H. unfold Js.includes. rewrite chars_str. apply includes_slash. exact H. Qed.

Lemma path_instance_spec (endpoint : string) (path : option string) (instanceId : string) :
  UploadUrl.path_instance endpoint path = Some instanceId ->
  instanceId <> "" /\ Js.includes instanceId "/" = false.
Proof.
  unfold UploadUrl.path_instance. destruct path as [p|]; [|discriminate].
  destruct (JsonParse.expect (chars "/instance/") (chars p)) as [rest|]; [|discriminate].
  pose proof (segment_spec rest) as [Hseg _].
  destruct (UploadUrl.segment rest) as [seg tail]. cbn [fst] in Hseg.
  destruct seg as [|c seg]; [discriminate|].
  destruct (String.prefix endpoint (str tail)); [|discriminate].
  intros H. injection H as <-. split; [discriminate|].
  apply (no_slash_includes (c :: seg)). exact Hseg.
Qed.

Lemma prefix_cancel (a b c : string) : String.prefix (a ++ b) (a ++ c) = String.prefix b c.
Proof.
  induction a as [|x a IH]; [reflexivity|]. simpl.
  destruct (ascii_dec x x); [exact IH | congruence].
Qed.

(** A key lies in the folder of one instance only. *)
Lemma folder_of_key (FILE_PREFIX a b rest : string) :
  Js.includes a "/" = false -> Js.includes b "/" = false ->
  Js.startsWith (instance_folder FILE_PREFIX b ++ rest) (instance_folder FILE_PREFIX a) = true ->
  a = b.
Proof.
  intros Ha Hb H. unfold Js.startsWith, instance_folder in H.
  rewrite <- !string_app_assoc in H. rewrite !prefix_cancel in H.
  rewrite <- (str_chars (a ++ "/")), <- (str_chars (b ++ "/" ++ rest)) in H.
  rewrite !chars_append in H. change (chars "/") with ["/"%char] in H. cbn [app] in H.
  symmetry. apply (prefix_piece "/"%char (chars a) (chars b) (chars rest)) in H.
  - rewrite <- (str_chars a), <- (str_chars b), H. reflexivity.
  - apply includes_no_slash. exact Ha.
  - apply includes_no_slash. exact Hb.
Qed.

Lemma sanitize_chars (filename : string) :
  forallb filename_char (chars (UploadUrl.sanitize filename)) = true.
Proof.
  unfold UploadUrl.sanitize. rewrite chars_str.
  induction (chars filename) as [|c rest IH]; [reflexivity|].
  cbn [flat_map]. rewrite forallb_app, IH, andb_true_r.
  unfold UploadUrl.sanitize_byte. fold (filename_char c).
  destruct (filename_char c) eqn:E.
  - cbn [forallb]. rewrite E. reflexivity.
  - destruct (Js.in_range 128 191 (code c)); [reflexivity|].
    destruct (240 <=? code c); reflexivity.
Qed.

Lemma sanitize_kept (filename : string) :
  forallb filename_char (chars filename) = true -> UploadUrl.sanitize filename = filename.
Proof.
  intros H. unfold UploadUrl.sanitize. rewrite <- (str_chars filename) at 2. f_equal.
  induction (chars filename) as [|c rest IH]; [reflexivity|].
  cbn [forallb] in H. apply andb_prop in H as [Hc Hrest].
  cbn [flat_map]. unfold UploadUrl.sanitize_byte at 1. fold (filename_char c). rewrite Hc.
  cbn [app]. f_equal. apply IH. exact Hrest.
Qed.

Lemma get_prop_strict_value (v : json) (k : string) :
  v <> JNull -> get_prop_strict (Some v) k = Return (get_prop v k).
Proof. intros H. destruct v; try reflexivity. congruence. Qed.

Lemma json_eq_null (v : json) : {v = JNull} + {v <> JNull}.
Proof. destruct v; (left; reflexivity) || (right; discriminate). Qed.

Lemma get_prop_null (v : json) (k : string) (x : json) : get_prop v k = Some x -> v <> JNull.
Proof. intros H ->. discriminate H. Qed.

Lemma startsWith_empty (folder : string) : folder <> "" -> Js.startsWith "" folder = false.
Proof. intros H. destruct folder; [congruence | reflexivity]. Qed.

Section UploadFacts.

Variable ALLOWED_ORIGINS : list string.
Variable ENFORCE_ORIGIN REQUIRE_XRW : bool.
Variable MAX_UPLOAD_SIZE UPLOAD_URL_EXPIRY : option string.
Variable FILE_PREFIX BUCKET : string.
Variable URL_parse : string -> Completion URL.
Variable loadInstance : string -> Completion (option Instance).
Variable loadWebhook : string -> Completion (option Webhook).
Variable getClientSecret : string -> Completion string.
Variable now now' : Z.
Variable t1 t2 t3 t4 : Z.
Variable randomBytes8 : Buffer.
Variable toISOString : Z -> Completion string.
Variable getSignedUrl : PutObject -> option Z -> Completion string.

Lemma upload_key_folder (instanceId filename : string) :
  UploadUrl.upload_key FILE_PREFIX t1 randomBytes8 instanceId filename
  = (instance_folder FILE_PREFIX instanceId
       ++ (str (Json.Number_toString t1) ++ "-" ++ Buffer_toString_hex randomBytes8)
       ++ "/" ++ UploadUrl.sanitize filename)%string.
Proof.
  unfold UploadUrl.upload_key, instance_folder. rewrite <- !string_app_assoc. reflexivity.
Qed.

Lemma upload_key_folder_any (stamp : Z) (random : Buffer) (instanceId filename : string) :
  UploadUrl.upload_key FILE_PREFIX stamp random instanceId filename
  = (instance_folder FILE_PREFIX instanceId
       ++ (str (Json.Number_toString stamp) ++ "-" ++ Buffer_toString_hex random)
       ++ "/" ++ UploadUrl.sanitize filename)%string.
Proof.
  unfold UploadUrl.upload_key, instance_folder. rewrite <- !string_app_assoc. reflexivity.
Qed.

Lemma prefix_startsWith (a b : string) : Js.startsWith (a ++ b) a = true.
Proof. apply prefix_append. Qed.

Lemma upload_key_in_folder (instanceId filename : string) :
  Js.startsWith (UploadUrl.upload_key FILE_PREFIX t1 randomBytes8 instanceId filename)
    (instance_folder FILE_PREFIX instanceId) = true.
Proof. rewrite upload_key_folder. apply prefix_append. Qed.

Lemma folder_nonempty (instanceId : string) : instance_folder FILE_PREFIX instanceId <> "".
Proof. unfold instance_folder. destruct FILE_PREFIX; discriminate. Qed.

(** The confirmation, once the path names an instance and the session is verified. *)
Lemma upload_complete_checked (event : Event) (instanceId : string) (i : Instance) (w : Webhook)
    (p requestBody : json) (key : string) :
  UploadUrl.path_instance "/upload-complete" (path event) = Some instanceId ->
  Jwt.verifyJWTForAPI loadInstance loadWebhook getClientSecret now now' event instanceId = ApiOk i w p ->
  UploadUrl.request_body event = Return requestBody ->
  get_prop requestBody "fileKey" = Some (JStr key) ->
  UploadUrl.handleUploadCompleteRequest FILE_PREFIX BUCKET loadInstance loadWebhook getClientSecret
    now now' event
  = if Js.startsWith key (instance_folder FILE_PREFIX instanceId) then confirmed BUCKET key
    else if String.eqb key "" then UploadUrl.error_answer "400" "Missing or invalid fileKey"
    else UploadUrl.error_answer "403" "Invalid fileKey for this instance".
Proof.
  intros Hpath Hauth Hbody Hkey.
  unfold UploadUrl.handleUploadCompleteRequest, UploadUrl.upload_complete_body.
  rewrite Hpath, Hauth, Hbody.
  rewrite (get_prop_strict_value _ _ (get_prop_null _ _ _ Hkey)), Hkey. cbn [bind].
  fold (instance_folder FILE_PREFIX instanceId).
  destruct (String.eqb_spec key "") as [->|Hne].
  - rewrite (startsWith_empty _ (folder_nonempty instanceId)). reflexivity.
  - destruct (Js.startsWith key (instance_folder FILE_PREFIX instanceId)); reflexivity.
Qed.

Lemma upload_complete_200 (event : Event) :
  statusCode (UploadUrl.handleUploadCompleteRequest FILE_PREFIX BUCKET loadInstance loadWebhook
                getClientSecret now now' event) = "200" ->
  exists instanceId i w p requestBody key,
    UploadUrl.path_instance "/upload-complete" (path event) = Some instanceId
    /\ Jwt.verifyJWTForAPI loadInstance loadWebhook getClientSecret now now' event instanceId
       = ApiOk i w p
    /\ UploadUrl.request_body event = Return requestBody
    /\ get_prop requestBody "fileKey" = Some (JStr key)
    /\ Js.startsWith key (instance_folder FILE_PREFIX instanceId) = true.
Proof.
  unfold UploadUrl.handleUploadCompleteRequest, UploadUrl.upload_complete_body.
  destruct (UploadUrl.path_instance "/upload-complete" (path event)) as [instanceId|] eqn:Hpath;
    [|discriminate].
  destruct (Jwt.verifyJWTForAPI loadInstance loadWebhook getClientSecret now now' event instanceId)
    as [i w p|error] eqn:Hauth; [|discriminate].
  destruct (UploadUrl.request_body event) as [requestBody|e] eqn:Hbody; [|discriminate].
  destruct (get_prop_strict (Some requestBody) "fileKey") as [fileKey|e] eqn:Hstrict; [|discriminate].
  assert (Hk : fileKey = get_prop requestBody "fileKey").
  { destruct requestBody; try discriminate Hstrict; injection Hstrict as <-; reflexivity. }
  cbn [bind catch]. fold (instance_folder FILE_PREFIX instanceId).
  destruct fileKey as [[| | |key| |]|]; try discriminate.
  destruct (String.eqb key ""); [discriminate|].
  destruct (Js.startsWith key (instance_folder FILE_PREFIX instanceId)) eqn:Hs; [|discriminate].
  intros _. exists instanceId, i, w, p, requestBody, key. repeat split; try assumption.
  symmetry. exact Hk.
Qed.

(** X19.  [handleUploadCompleteRequest] confirms an upload, with
    status 200, only when the path names an instance, [verifyJWTForAPI]
    accepts the session cookie of that instance, and the body names a
    [fileKey] that starts with the folder of that instance.  For such a
    request every key that [handleUploadUrlRequest] issues for the same
    instance is confirmed, and a key in the folder of another instance is
    refused with status 403. *)
Theorem upload_complete_confirms_own_folder (event : Event) :
  let answer :=
    UploadUrl.handleUploadCompleteRequest FILE_PREFIX BUCKET loadInstance loadWebhook getClientSecret
      now now' event in
  (statusCode answer = "200" ->
   exists instanceId i w p requestBody key,
     UploadUrl.path_instance "/upload-complete" (path event) = Some instanceId
     /\ Jwt.verifyJWTForAPI loadInstance loadWebhook getClientSecret now now' event instanceId
        = ApiOk i w p
     /\ UploadUrl.request_body event = Return requestBody
     /\ get_prop requestBody "fileKey" = Some (JStr key)
     /\ Js.startsWith key (instance_folder FILE_PREFIX instanceId) = true
     /\ answer = confirmed BUCKET key)
  /\ (forall instanceId i w p requestBody key,
        UploadUrl.path_instance "/upload-complete" (path event) = Some instanceId ->
        Jwt.verifyJWTForAPI loadInstance loadWebhook getClientSecret now now' event instanceId
        = ApiOk i w p ->
        UploadUrl.request_body event = Return requestBody ->
        get_prop requestBody "fileKey" = Some (JStr key) ->
        (forall stamp random filename,
            key = UploadUrl.upload_key FILE_PREFIX stamp random instanceId filename ->
            answer = confirmed BUCKET key)
        /\ (forall other rest,
               key = (instance_folder FILE_PREFIX other ++ rest)%string ->
               Js.includes other "/" = false -> other <> instanceId ->
               answer = UploadUrl.error_answer "403" "Invalid fileKey for this instance")).
Proof.
  intros answer. split.
  - intros H200. destruct (upload_complete_200 event H200)
      as (instanceId & i & w & p & requestBody & key & Hpath & Hauth & Hbody & Hkey & Hs).
    exists instanceId, i, w, p, requestBody, key. repeat split; try assumption.
    subst answer. rewrite (upload_complete_checked event instanceId i w p requestBody key) by assumption.
    rewrite Hs. reflexivity.
  - intros instanceId i w p requestBody key Hpath Hauth Hbody Hkey.
    subst answer. rewrite (upload_complete_checked event instanceId i w p requestBody key) by assumption.
    split.
    + intros stamp random filename ->.
      rewrite (upload_key_folder_any stamp random instanceId filename), prefix_startsWith. reflexivity.
    + intros other rest -> Hother Hne.
      destruct (path_instance_spec _ _ _ Hpath) as [_ Hid].
      destruct (Js.startsWith (instance_folder FILE_PREFIX other ++ rest)
                  (instance_folder FILE_PREFIX instanceId)) eqn:Hs.
      * exfalso. apply Hne. symmetry.
        apply (folder_of_key FILE_PREFIX instanceId other rest Hid Hother Hs).
      * replace (String.eqb (instance_folder FILE_PREFIX other ++ rest) "") with false;
          [reflexivity|].
        symmetry. apply String.eqb_neq. unfold instance_folder. destruct FILE_PREFIX; discriminate.
Qed.

End UploadFacts.

Lemma upload_complete_confirms_own_folder_witness :
  let complete key :=
    UploadUrl.handleUploadCompleteRequest Visit.FILE_PREFIX Visit.BUCKET
      (Scenario.loadInstance (Some (JNum 0))) Scenario.loadWebhook Scenario.getClientSecret 2000 2000
      (Visit.upload "/upload-complete" (JObj [("fileKey", JStr key)])) in
  complete (UploadUrl.upload_key Visit.FILE_PREFIX 2000000 Scenario.nonce "I1" "my photo.png")
  = confirmed Visit.BUCKET "public/clientWebhookInstanceFiles/I1/2000000-0102030405060708/my_photo.png"
  /\ complete (instance_folder Visit.FILE_PREFIX "I2" ++ "x.png")%string
     = UploadUrl.error_answer "403" "Invalid fileKey for this instance".
Proof.
  cbv zeta.
  pose proof (fun key =>
                proj2 (upload_complete_confirms_own_folder Visit.FILE_PREFIX Visit.BUCKET
                         (Scenario.loadInstance (Some (JNum 0))) Scenario.loadWebhook
                         Scenario.getClientSecret 2000 2000
                         (Visit.upload "/upload-complete" (JObj [("fileKey", JStr key)])))
                      "I1" (Scenario.instance_at (Some (JNum 0))) Scenario.webhook) as H.
  cbv zeta in H. split.
  - edestruct (H (UploadUrl.upload_key Visit.FILE_PREFIX 2000000 Scenario.nonce "I1" "my photo.png"))
      as [Hown _].
    + reflexivity.
    + vm_compute. reflexivity.
    + vm_compute. reflexivity.
    + reflexivity.
    + apply (Hown 2000000 Scenario.nonce "my photo.png" eq_refl).
  - edestruct (H (instance_folder Visit.FILE_PREFIX "I2" ++ "x.png")%string) as [_ Hother].
    + reflexivity.
    + vm_compute. reflexivity.
    + vm_compute. reflexivity.
    + reflexivity.
    + apply (Hother "I2" "x.png" eq_refl eq_refl). discriminate.
Defined.

Section UploadUrlFacts.

Variable ALLOWED_ORIGINS : list string.
Variable ENFORCE_ORIGIN REQUIRE_XRW : bool.
Variable MAX_UPLOAD_SIZE UPLOAD_URL_EXPIRY : option string.
Variable FILE_PREFIX BUCKET : string.
Variable URL_parse : string -> Completion URL.
Variable loadInstance : string -> Completion (option Instance).
Variable loadWebhook : string -> Completion (option Webhook).
Variable getClientSecret : string -> Completion string.
Variable now now' : Z.
Variable t1 t2 t3 t4 : Z.
Variable randomBytes8 : Buffer.
Variable toISOString : Z -> Completion string.
Variable getSignedUrl : PutObject -> option Z -> Completion string.

Lemma issue_200 (instanceId name : string) (finalContentType : JsVal) (answer : Response) :
  catch (UploadUrl.issue UPLOAD_URL_EXPIRY FILE_PREFIX BUCKET t1 t2 t3 t4 randomBytes8 toISOString
           getSignedUrl instanceId name finalContentType)
        (fun _ => UploadUrl.error_answer "500" "Internal server error") = answer ->
  statusCode answer = "200" ->
  exists answered,
    responseBody answer = Json.stringify (JObj answered)
    /\ obj_get answered "fileKey"
       = Some (JStr (UploadUrl.upload_key FILE_PREFIX t1 randomBytes8 instanceId name))
    /\ obj_get answered "bucket" = Some (JStr BUCKET).
Proof.
  unfold UploadUrl.issue. cbv zeta.
  destruct (toISOString t2) as [uploadedAt|e]; [|intros <-; discriminate]. cbn [bind].
  match goal with |- context [getSignedUrl ?c ?x] => destruct (getSignedUrl c x) as [uploadUrl|e] end;
    [|intros <-; discriminate]. cbn [bind].
  destruct (UploadUrl.int_setting UPLOAD_URL_EXPIRY "900") as [expiry|]; [|intros <-; discriminate].
  destruct (toISOString (t3 + expiry * 1000)) as [expiresAt|e]; [|intros <-; discriminate]. cbn [bind].
  destruct (toISOString t4) as [uploadedat|e]; [|intros <-; discriminate]. cbn [bind catch].
  intros <- _. eexists. split; [reflexivity|]. split; reflexivity.
Qed.

(** X20.  [handleUploadUrlRequest] answers with status 200 only when
    the path names an instance, the CSRF check passes if one of the two
    switches is on, [verifyJWTForAPI] accepts the session cookie of that
    instance, the body is JSON with a non-empty string [filename], and a
    [contentLength], if given, is a positive number not above the limit
    (when the limit is a number).  The answer then names the bucket and a
    [fileKey] in the folder of that instance.  The last piece of the key
    is the file name with every character outside letters, digits, [.],
    [_] and [-] replaced, so that a name made of these characters is kept
    and no name adds a [/] to the key. *)
Theorem upload_url_needs_session (event : Event) :
  let answer :=
    UploadUrl.handleUploadUrlRequest ALLOWED_ORIGINS ENFORCE_ORIGIN REQUIRE_XRW MAX_UPLOAD_SIZE
      UPLOAD_URL_EXPIRY FILE_PREFIX BUCKET URL_parse loadInstance loadWebhook getClientSecret
      now now' t1 t2 t3 t4 randomBytes8 toISOString getSignedUrl event in
  (statusCode answer = "200" ->
   exists instanceId i w p requestBody name answered,
     UploadUrl.path_instance "/upload-url" (path event) = Some instanceId
     /\ (ENFORCE_ORIGIN || REQUIRE_XRW = true ->
         Jwt.validateCSRFHeaders URL_parse (headers event) ALLOWED_ORIGINS REQUIRE_XRW = CsrfOk)
     /\ Jwt.verifyJWTForAPI loadInstance loadWebhook getClientSecret now now' event instanceId
        = ApiOk i w p
     /\ UploadUrl.request_body event = Return requestBody
     /\ get_prop requestBody "filename" = Some (JStr name) /\ name <> ""
     /\ match get_prop requestBody "contentLength" with
        | None => True
        | Some (JNum n) =>
            0 < n /\ forall m, UploadUrl.int_setting MAX_UPLOAD_SIZE "104857600" = Some m -> n <= m
        | Some _ => False
        end
     /\ responseBody answer = Json.stringify (JObj answered)
     /\ obj_get answered "fileKey"
        = Some (JStr (UploadUrl.upload_key FILE_PREFIX t1 randomBytes8 instanceId name))
     /\ obj_get answered "bucket" = Some (JStr BUCKET))
  /\ (forall instanceId name,
        exists stamp,
          UploadUrl.upload_key FILE_PREFIX t1 randomBytes8 instanceId name
          = (instance_folder FILE_PREFIX instanceId ++ stamp ++ "/" ++ UploadUrl.sanitize name)%string
          /\ forallb filename_char (chars (UploadUrl.sanitize name)) = true
          /\ (forallb filename_char (chars name) = true -> UploadUrl.sanitize name = name)).
Proof.
  intros answer. split.
  - subst answer. unfold UploadUrl.handleUploadUrlRequest, UploadUrl.upload_url_body.
    destruct (UploadUrl.path_instance "/upload-url" (path event)) as [instanceId|] eqn:Hpath;
      [|discriminate].
    destruct (if ENFORCE_ORIGIN || REQUIRE_XRW
              then Jwt.validateCSRFHeaders URL_parse (headers event) ALLOWED_ORIGINS REQUIRE_XRW
              else CsrfOk) as [|error] eqn:Hcsrf; [|discriminate].
    destruct (Jwt.verifyJWTForAPI loadInstance loadWebhook getClientSecret now now' event instanceId)
      as [i w p|error] eqn:Hauth; [|discriminate].
    unfold UploadUrl.upload_url_checked.
    destruct (UploadUrl.request_body event) as [requestBody|e] eqn:Hbody; [|discriminate].
    destruct (json_eq_null requestBody) as [->|Hnn]; [discriminate|].
    rewrite !(get_prop_strict_value requestBody _ Hnn). cbn [bind].
    destruct (get_prop requestBody "filename") as [[| | |name| |]|] eqn:Hname; try discriminate.
    destruct (String.eqb_spec name "") as [->|Hne]; [discriminate|].
    match goal with
    | |- context [if ?c then Return (UploadUrl.json_answer "400" _) else _] =>
        destruct c eqn:Hrefused
    end; [discriminate|].
    intros H200.
    destruct (issue_200 instanceId name _ _ eq_refl H200) as (answered & Hb & Hk & Hbucket).
    exists instanceId, i, w, p, requestBody, name, answered.
    split; [first [exact Hpath | reflexivity]|]. split.
    { intros Hon. rewrite Hon in Hcsrf. exact Hcsrf. }
    split; [first [exact Hauth | reflexivity]|]. split; [first [exact Hbody | reflexivity]|].
    split; [first [exact Hname | reflexivity]|]. split; [exact Hne|].
    split; [|split; [exact Hb | split; [exact Hk | exact Hbucket]]].
    destruct (get_prop requestBody "contentLength") as [[| |n| | |]|]; try discriminate Hrefused;
      [|exact I].
    apply orb_false_elim in Hrefused as [Hpos Hmax]. split; [lia|].
    intros m Hm. rewrite Hm in Hmax. lia.
  - intros instanceId name. eexists. split; [apply upload_key_folder_any|].
    split; [apply sanitize_chars | apply sanitize_kept].
Qed.

End UploadUrlFacts.

Lemma upload_url_needs_session_witness :
  let answer :=
    UploadUrl.handleUploadUrlRequest [] false true None None Visit.FILE_PREFIX Visit.BUCKET
      Scenario.URL_parse (Scenario.loadInstance (Some (JNum 0))) Scenario.loadWebhook
      Scenario.getClientSecret 2000 2000 2000000 2000000 2000000 2000000 Scenario.nonce
      Visit.toISOString Visit.getSignedUrl
      (Visit.upload "/upload-url"
         (JObj [("filename", JStr "my photo.png"); ("contentType", JStr "image/png");
                ("contentLength", JNum 2048)])) in
  exists answered,
    responseBody answer = Json.stringify (JObj answered)
    /\ obj_get answered "fileKey"
       = Some (JStr "public/clientWebhookInstanceFiles/I1/2000000-0102030405060708/my_photo.png").
Proof.
  cbv zeta.
  destruct (proj1 (upload_url_needs_session [] false true None None Visit.FILE_PREFIX Visit.BUCKET
                     Scenario.URL_parse (Scenario.loadInstance (Some (JNum 0))) Scenario.loadWebhook
                     Scenario.getClientSecret 2000 2000 2000000 2000000 2000000 2000000 Scenario.nonce
                     Visit.toISOString Visit.getSignedUrl
                     (Visit.upload "/upload-url"
                        (JObj [("filename", JStr "my photo.png"); ("contentType", JStr "image/png");
                               ("contentLength", JNum 2048)])))
                  ltac:(vm_compute; reflexivity))
    as (instanceId & i & w & p & requestBody & name & answered
        & Hpath & _ & _ & Hbody & Hname & _ & _ & Hb & Hk & _).
  exists answered. split; [exact Hb|].
  vm_compute in Hpath. injection Hpath as <-.
  vm_compute in Hbody. injection Hbody as <-.
  vm_compute in Hname. injection Hname as <-.
  rewrite Hk. vm_compute. reflexivity.
Defined.

(** ** The users of the identity provider at the page gate *)

Section CognitoFacts.

Variable idTokenVerifier_verify : option string -> Completion json.
Variable CLIENT_ID : option string.
Variable refresh_token_auth : string -> string -> Completion (option (option string)).
Variable users_item : JsVal -> Completion JsVal.
Variable now : Z.

Lemma verifyCognitoToken_ok (idToken : option string) (payload : json) :
  Cognito.verifyCognitoToken idTokenVerifier_verify idToken = Some payload <->
  idTokenVerifier_verify idToken = Return payload.
Proof.
  unfold Cognito.verifyCognitoToken. destruct (idTokenVerifier_verify idToken); cbn [bind catch].
  - split; intros H; injection H as <-; reflexivity.
  - split; discriminate.
Qed.

Lemma refreshed_shape (refreshToken : string) (r : CognitoResult) :
  Cognito.refreshed idTokenVerifier_verify CLIENT_ID refresh_token_auth refreshToken = Some r ->
  authenticated r = true /\ authorized r = false /\ tokens r <> None.
Proof.
  unfold Cognito.refreshed.
  destruct (Cognito.refreshCognitoTokens CLIENT_ID refresh_token_auth refreshToken) as [idToken|];
    [|discriminate].
  destruct (Cognito.verifyCognitoToken idTokenVerifier_verify idToken); [|discriminate].
  intros H. injection H as <-. cbn. repeat split. discriminate.
Qed.

Lemma refreshed_ok (refreshToken clientId : string) (idToken : option string) (payload : json) :
  CLIENT_ID = Some clientId -> clientId <> "" ->
  refresh_token_auth clientId refreshToken = Return (Some idToken) ->
  idTokenVerifier_verify idToken = Return payload ->
  Cognito.refreshed idTokenVerifier_verify CLIENT_ID refresh_token_auth refreshToken
  = Some {| authenticated := true; authorized := false;
            tokens := Some (Cognito.token_pair idToken refreshToken); user := None |}.
Proof.
  intros -> Hne Hr Hv. unfold Cognito.refreshed, Cognito.refreshCognitoTokens.
  rewrite (given_nonempty clientId Hne). cbn [negb default]. unfold Datatypes.id.
  rewrite Hr. cbn [catch]. apply verifyCognitoToken_ok in Hv. rewrite Hv. reflexivity.
Qed.

(** The result of [verifyCognitoAuthAndAuthorization] on the cookies it reads. *)
Lemma verifyCognito_cookies (event : Event) (instance : Instance) (webhook : Webhook) :
  (Cognito.verifyCognitoAuthAndAuthorization idTokenVerifier_verify CLIENT_ID refresh_token_auth
     users_item now) event instance webhook
  = let! cookieMap := Cookie.getCookieMap (cookie_source event) in
    let idToken := cookieMap !! Cognito.COGNITO_ID_TOKEN_COOKIE in
    let refreshToken := cookieMap !! Cognito.COGNITO_REFRESH_TOKEN_COOKIE in
    if negb (Token.given idToken) then Return Cognito.unauthenticated
    else
      match Cognito.verifyCognitoToken idTokenVerifier_verify idToken with
      | None =>
          match (if Token.given refreshToken
                 then Cognito.refreshed idTokenVerifier_verify CLIENT_ID refresh_token_auth
                        (default "" refreshToken)
                 else None) with
          | Some result => Return result
          | None => Return Cognito.unauthenticated
          end
      | Some payload =>
          let! soon := if Token.given refreshToken
                       then Cognito.isTokenExpiringSoon now payload else Return false in
          match (if soon
                 then Cognito.refreshed idTokenVerifier_verify CLIENT_ID refresh_token_auth
                        (default "" refreshToken)
                 else None) with
          | Some result => Return result
          | None =>
              let! userId := get_prop_strict (Some payload) "sub" in
              let found := Cognito.loadUser users_item userId in
              if negb (truthy found)
              then Return {| authenticated := true; authorized := false; tokens := None;
                             user := None |}
              else
                Return {| authenticated := true;
                          authorized :=
                            strict_eq_string (get_prop_opt found "type") "admin"
                            || strict_eq_string (get_prop_opt found "ClientID") (ClientID webhook);
                          tokens := None; user := found |}
          end
      end.
Proof. reflexivity. Qed.

Lemma verifyCognito_authorized (event : Event) (instance : Instance) (webhook : Webhook)
    (r : CognitoResult) :
  (Cognito.verifyCognitoAuthAndAuthorization idTokenVerifier_verify CLIENT_ID refresh_token_auth
     users_item now) event instance webhook = Return r ->
  authenticated r = true -> authorized r = true ->
  tokens r = None
  /\ exists cookieMap idToken payload,
      Cookie.getCookieMap (cookie_source event) = Return cookieMap
      /\ cookieMap !! Cognito.COGNITO_ID_TOKEN_COOKIE = Some idToken /\ idToken <> ""
      /\ idTokenVerifier_verify (Some idToken) = Return payload
      /\ user r = Cognito.loadUser users_item (get_prop payload "sub")
      /\ truthy (user r) = true
      /\ (get_prop_opt (user r) "type" = Some (JStr "admin")
          \/ get_prop_opt (user r) "ClientID" = Some (JStr (ClientID webhook))).
Proof.
  rewrite verifyCognito_cookies.
  destruct (Cookie.getCookieMap (cookie_source event)) as [cookieMap|e]; [|discriminate].
  cbn [bind]. cbv zeta.
  destruct (cookieMap !! Cognito.COGNITO_ID_TOKEN_COOKIE) as [idToken|] eqn:Hid;
    [|intros H; injection H as <-; discriminate].
  destruct (Token.given (Some idToken)) eqn:Hgiven; cbn [negb];
    [|intros H; injection H as <-; discriminate].
  destruct (Cognito.verifyCognitoToken idTokenVerifier_verify (Some idToken)) as [payload|] eqn:Hv.
  - destruct (if Token.given (cookieMap !! Cognito.COGNITO_REFRESH_TOKEN_COOKIE)
              then Cognito.isTokenExpiringSoon now payload else Return false) as [soon|e];
      [|discriminate]. cbn [bind].
    destruct (if soon
              then Cognito.refreshed idTokenVerifier_verify CLIENT_ID refresh_token_auth
                     (default "" (cookieMap !! Cognito.COGNITO_REFRESH_TOKEN_COOKIE))
              else None) as [result|] eqn:Hr.
    + destruct soon; [|discriminate Hr]. apply refreshed_shape in Hr as (_ & Hz & _).
      intros H. injection H as <-. congruence.
    + destruct (json_eq_null payload) as [->|Hnn]; [discriminate|].
      rewrite (get_prop_strict_value payload _ Hnn). cbn [bind].
      destruct (truthy (Cognito.loadUser users_item (get_prop payload "sub"))) eqn:Ht; cbn [negb];
        intros H; injection H as <-; cbn; [|discriminate].
      intros _ Hauth. split; [reflexivity|].
      exists cookieMap, idToken, payload. split; [reflexivity|]. split; [exact Hid|].
      split.
      { intros ->. discriminate Hgiven. }
      split; [apply verifyCognitoToken_ok; exact Hv|]. split; [reflexivity|]. split; [exact Ht|].
      apply orb_prop in Hauth. destruct Hauth as [Ha|Ha]; [left | right];
        unfold strict_eq_string in Ha;
        match type of Ha with
        | match ?x with _ => _ end = true =>
            destruct x as [[| | |s| |]|]; try discriminate Ha;
            apply String.eqb_eq in Ha; subst s; reflexivity
        end.
  - destruct (if Token.given (cookieMap !! Cognito.COGNITO_REFRESH_TOKEN_COOKIE)
              then Cognito.refreshed idTokenVerifier_verify CLIENT_ID refresh_token_auth
                     (default "" (cookieMap !! Cognito.COGNITO_REFRESH_TOKEN_COOKIE))
              else None) as [result|] eqn:Hr.
    + destruct (Token.given (cookieMap !! Cognito.COGNITO_REFRESH_TOKEN_COOKIE)); [|discriminate Hr].
      apply refreshed_shape in Hr as (_ & Hz & _). intros H. injection H as <-. congruence.
    + intros H. injection H as <-. discriminate.
Qed.

Lemma verifyCognito_refreshed (event : Event) (instance : Instance) (webhook : Webhook)
    (cookieMap : gmap string string) (idToken refreshToken clientId : string)
    (newToken : option string) (payload' : json) :
  Cookie.getCookieMap (cookie_source event) = Return cookieMap ->
  cookieMap !! Cognito.COGNITO_ID_TOKEN_COOKIE = Some idToken -> idToken <> "" ->
  cookieMap !! Cognito.COGNITO_REFRESH_TOKEN_COOKIE = Some refreshToken -> refreshToken <> "" ->
  CLIENT_ID = Some clientId -> clientId <> "" ->
  refresh_token_auth clientId refreshToken = Return (Some newToken) ->
  idTokenVerifier_verify newToken = Return payload' ->
  (exists e, idTokenVerifier_verify (Some idToken) = Throw e)
  \/ (exists payload,
        idTokenVerifier_verify (Some idToken) = Return payload /\ payload <> JNull
        /\ (truthy (get_prop payload "exp") = false
            \/ Js.lt_number (get_prop payload "exp") (now + 300) = true)) ->
  (Cognito.verifyCognitoAuthAndAuthorization idTokenVerifier_verify CLIENT_ID refresh_token_auth
     users_item now) event instance webhook
  = Return {| authenticated := true; authorized := false;
              tokens := Some (Cognito.token_pair newToken refreshToken); user := None |}.
Proof.
  intros Hmap Hid Hne Hrt Hrne Hc Hcne Hr Hv' Hcase.
  rewrite verifyCognito_cookies, Hmap. cbn [bind]. cbv zeta. rewrite Hid, Hrt.
  rewrite (given_nonempty idToken Hne), (given_nonempty refreshToken Hrne). cbn [negb].
  change (default "" (Some refreshToken)) with refreshToken.
  rewrite (refreshed_ok refreshToken clientId newToken payload' Hc Hcne Hr Hv').
  destruct Hcase as [[e He]|(payload & Hp & Hnn & Hsoon)].
  - unfold Cognito.verifyCognitoToken. rewrite He. reflexivity.
  - apply verifyCognitoToken_ok in Hp. rewrite Hp.
    unfold Cognito.isTokenExpiringSoon. rewrite (get_prop_strict_value payload _ Hnn). cbn [bind].
    change (now + Cognito.TOKEN_REFRESH_BUFFER_SEC) with (now + 300).
    replace (negb (truthy (get_prop payload "exp")) || Js.lt_number (get_prop payload "exp") (now + 300))
      with true; [reflexivity|].
    symmetry. destruct Hsoon as [H|H]; rewrite H; [reflexivity | apply orb_true_r].
Qed.

End CognitoFacts.

(** X21.  The page gate of the later revision on a webhook whose
    authentication type is [user], with [verifyCognitoAuthAndAuthorization]
    as the identity check.  The gate opens only when the [tgl_web] cookie
    holds an ID token that the verifier accepts as presented, the user of
    its [sub] claim is found, and the user is an administrator or belongs
    to the client of the webhook; the open gate never carries new tokens.
    When the tokens are renewed, because the presented token is rejected or
    is within five minutes of its expiry and the new token verifies, the
    gate answers with the access-denied page and the reason [unauthorized].
    Without an ID token it answers with the login page. *)
Theorem identity_provider_gate
    (idTokenVerifier_verify : option string -> Completion json) (CLIENT_ID : option string)
    (refresh_token_auth : string -> string -> Completion (option (option string)))
    (users_item : JsVal -> Completion JsVal) (now : Z)
    (getClientSecret : string -> Completion string) (now' : Z)
    (instance : Instance) (webhook : Webhook) (event : Event) :
  is_user webhook = true ->
  let gate :=
    Password.verifyAccessOrPasswordPage_v2 getClientSecret now'
      (Cognito.verifyCognitoAuthAndAuthorization idTokenVerifier_verify CLIENT_ID refresh_token_auth
         users_item now)
      instance webhook event in
  (forall verdict, gate = Return verdict -> gate_ok verdict = true ->
     exists found cookieMap idToken payload,
       verdict = GateOkCognito None found
       /\ Cookie.getCookieMap (cookie_source event) = Return cookieMap
       /\ cookieMap !! Cognito.COGNITO_ID_TOKEN_COOKIE = Some idToken /\ idToken <> ""
       /\ idTokenVerifier_verify (Some idToken) = Return payload
       /\ found = Cognito.loadUser users_item (get_prop payload "sub")
       /\ truthy found = true
       /\ (get_prop_opt found "type" = Some (JStr "admin")
           \/ get_prop_opt found "ClientID" = Some (JStr (ClientID webhook))))
  /\ (forall cookieMap idToken refreshToken clientId newToken payload',
        Cookie.getCookieMap (cookie_source event) = Return cookieMap ->
        cookieMap !! Cognito.COGNITO_ID_TOKEN_COOKIE = Some idToken -> idToken <> "" ->
        cookieMap !! Cognito.COGNITO_REFRESH_TOKEN_COOKIE = Some refreshToken -> refreshToken <> "" ->
        CLIENT_ID = Some clientId -> clientId <> "" ->
        refresh_token_auth clientId refreshToken = Return (Some newToken) ->
        idTokenVerifier_verify newToken = Return payload' ->
        (exists e, idTokenVerifier_verify (Some idToken) = Throw e)
        \/ (exists payload,
              idTokenVerifier_verify (Some idToken) = Return payload /\ payload <> JNull
              /\ (truthy (get_prop payload "exp") = false
                  \/ Js.lt_number (get_prop payload "exp") (now + 300) = true)) ->
        gate = Return (GateDenied ACCESS_DENIED_PAGE_HTML (Some "unauthorized")))
  /\ (forall cookieMap,
        Cookie.getCookieMap (cookie_source event) = Return cookieMap ->
        Token.given (cookieMap !! Cognito.COGNITO_ID_TOKEN_COOKIE) = false ->
        gate = Return (GateDenied COGNITO_LOGIN_PAGE_HTML (Some "not_authenticated"))).
Proof.
  intros Hu gate.
  assert (Hgate : gate
                  = let! r := Cognito.verifyCognitoAuthAndAuthorization idTokenVerifier_verify CLIENT_ID
                                refresh_token_auth users_item now event instance webhook in
                    if authenticated r && authorized r
                    then Return (GateOkCognito (tokens r) (user r))
                    else if authenticated r && negb (authorized r)
                    then Return (GateDenied ACCESS_DENIED_PAGE_HTML (Some "unauthorized"))
                    else Return (GateDenied COGNITO_LOGIN_PAGE_HTML (Some "not_authenticated"))).
  { subst gate. unfold Password.verifyAccessOrPasswordPage_v2. fold (is_user webhook).
    rewrite Hu. reflexivity. }
  split; [|split].
  - intros verdict Hv Hok. rewrite Hgate in Hv.
    destruct (Cognito.verifyCognitoAuthAndAuthorization idTokenVerifier_verify CLIENT_ID
                refresh_token_auth users_item now event instance webhook) as [r|e] eqn:Hr;
      [|discriminate Hv].
    cbn [bind] in Hv.
    destruct (authenticated r && authorized r) eqn:Hboth.
    + apply andb_prop in Hboth as [Ha Hz].
      destruct (verifyCognito_authorized _ _ _ _ _ event instance webhook r Hr Ha Hz)
        as (Ht & cookieMap & idToken & payload & H1 & H2 & H3 & H4 & H5 & H6 & H7).
      injection Hv as <-. rewrite Ht.
      exists (user r), cookieMap, idToken, payload. repeat split; assumption.
    + destruct (authenticated r && negb (authorized r)); injection Hv as <-; discriminate Hok.
  - intros cookieMap idToken refreshToken clientId newToken payload' H1 H2 H3 H4 H5 H6 H7 H8 H9 H10.
    rewrite Hgate.
    rewrite (verifyCognito_refreshed _ _ _ _ _ event instance webhook cookieMap idToken refreshToken
               clientId newToken payload' H1 H2 H3 H4 H5 H6 H7 H8 H9 H10).
    reflexivity.
  - intros cookieMap Hmap Hnone. rewrite Hgate, verifyCognito_cookies, Hmap. cbn [bind]. cbv zeta.
    rewrite Hnone. reflexivity.
Qed.

Lemma identity_provider_gate_witness :
  Password.verifyAccessOrPasswordPage_v2 Scenario.getClientSecret 2000
    (Cognito.verifyCognitoAuthAndAuthorization Visit.verify (Some "app") Visit.refresh_token_auth
       Visit.users_item 2000)
    (Scenario.instance_at (Some (JNum 0))) Visit.user_webhook Visit.signed_in
  = Return (GateDenied ACCESS_DENIED_PAGE_HTML (Some "unauthorized")).
Proof.
  destruct (identity_provider_gate Visit.verify (Some "app") Visit.refresh_token_auth Visit.users_item
              2000 Scenario.getClientSecret 2000 (Scenario.instance_at (Some (JNum 0)))
              Visit.user_webhook Visit.signed_in eq_refl) as (_ & Hrefresh & _).
  apply (Hrefresh {["tgl_web" := "old"; "tgl_web_refresh" := "r1"]} "old" "r1" "app" (Some "new")
           (JObj [("sub", JStr "u1"); ("exp", JNum 9000)])).
  - vm_compute. reflexivity.
  - reflexivity.
  - discriminate.
  - reflexivity.
  - discriminate.
  - reflexivity.
  - discriminate.
  - reflexivity.
  - reflexivity.
  - left. exists Error. reflexivity.
Defined.

(** ** The entry point *)

Lemma lookup_assign_same (headers : list (string * string)) (k v : string) :
  lookup_string (Index.assign headers k v) k = Some v.
Proof.
  induction headers as [|[k' v'] rest IH]; cbn [Index.assign lookup_string].
  - rewrite String.eqb_refl. reflexivity.
  - destruct (String.eqb k' k) eqn:E; cbn [lookup_string].
    + rewrite String.eqb_refl. reflexivity.
    + rewrite E. exact IH.
Qed.

Lemma lookup_assign_other (headers : list (string * string)) (k k' v : string) :
  k <> k' -> lookup_string (Index.assign headers k v) k' = lookup_string headers k'.
Proof.
  intros Hne. induction headers as [|[k0 v0] rest IH]; cbn [Index.assign lookup_string].
  - apply String.eqb_neq in Hne. rewrite Hne. reflexivity.
  - destruct (String.eqb k0 k) eqn:E; cbn [lookup_string].
    + apply String.eqb_eq in E. subst k0. apply String.eqb_neq in Hne. rewrite Hne. reflexivity.
    + destruct (String.eqb k0 k'); [reflexivity | exact IH].
Qed.

Lemma first_given_nonempty (a b : option string) :
  default "" b <> "" -> default "" (first_given a b) <> "".
Proof.
  intros Hb. unfold first_given, Token.given, Token.missing_or_empty.
  destruct a as [x|]; [|exact Hb].
  destruct (String.eqb_spec x "") as [->|Hne]; [exact Hb | exact Hne].
Qed.

Lemma request_origin_given (event : Event) : request_origin event <> "".
Proof.
  unfold request_origin. apply first_given_nonempty. discriminate.
Qed.

Lemma addCorsHeaders_headers (response : Answer) (origin : string) :
  origin <> "" ->
  let a := Index.addCorsHeaders response origin in
  header a "Access-Control-Allow-Origin" = Some origin
  /\ header a "Access-Control-Allow-Credentials"
     = Some (if existsb (String.eqb origin) Index.allowedOrigins then "true" else "false")
  /\ statusCode (answer a) = statusCode (answer response)
  /\ responseBody (answer a) = responseBody (answer response)
  /\ answerCookies a = answerCookies response.
Proof.
  intros Hne a. subst a. unfold header, Index.addCorsHeaders. cbn [answer responseHeaders].
  apply String.eqb_neq in Hne. rewrite Hne. cbn [negb andb].
  unfold Index.spread. cbn [fold_left fst snd].
  split; [|split; [|repeat split]].
  - do 4 (rewrite lookup_assign_other by discriminate). rewrite lookup_assign_same.
    destruct (existsb (String.eqb origin) Index.allowedOrigins); [reflexivity|].
    destruct (String.eqb_spec origin "*") as [->|]; reflexivity.
  - rewrite lookup_assign_other by discriminate. rewrite lookup_assign_same. reflexivity.
Qed.

(** X22.  What the entry point of the later revision adds to the
    handlers.  A POST whose path ends in [/logout] is answered with status
    200 and two cookies that delete the cookies of the identity provider,
    without consulting a handler and without CORS headers.  Every other
    answer names the origin of the request as the allowed origin, whatever
    it is ([*] when the request has none), and allows credentials exactly
    for the two origins of the platform.  An exception of a handler
    becomes status 400, with the password page when the path contains
    [/webhooks/instances/] and a fixed text otherwise; a method other than
    GET and POST becomes status 405; the answer of a handler keeps its
    status, body and cookies. *)
Theorem entry_point_answers
    (markup : Page -> string) (handleGetRequest handlePostRequest : Event -> Completion Answer)
    (httpMethod rawPath : option string) (event : Event) :
  let a := Index.handler_v2 markup handleGetRequest handlePostRequest httpMethod rawPath event in
  let is_logout :=
    match httpMethod with
    | Some method => String.eqb method "POST" && Js.endsWith (request_path rawPath event) "/logout"
    | None => false
    end in
  let handled :=
    match httpMethod with
    | Some method =>
        if String.eqb method "GET" then Some (handleGetRequest event)
        else if String.eqb method "POST" then Some (handlePostRequest event)
        else None
    | None => None
    end in
  (is_logout = true -> a = Index.logout)
  /\ (is_logout = false ->
      header a "Access-Control-Allow-Origin" = Some (request_origin event)
      /\ header a "Access-Control-Allow-Credentials"
         = Some (if existsb (String.eqb (request_origin event)) Index.allowedOrigins
                 then "true" else "false")
      /\ match handled with
         | Some (Return response) =>
             statusCode (answer a) = statusCode (answer response)
             /\ responseBody (answer a) = responseBody (answer response)
             /\ answerCookies a = answerCookies response
         | Some (Throw _) =>
             statusCode (answer a) = "400"
             /\ responseBody (answer a)
                = (if Js.includes (request_path rawPath event) "/webhooks/instances/"
                   then markup PASSWORD_PAGE_HTML else "Internal Server Error")
             /\ answerCookies a = None
         | None =>
             statusCode (answer a) = "405" /\ answerCookies a = None
         end).
Proof.
  intros a is_logout handled.
  pose proof (request_origin_given event) as Ho.
  assert (Hcors : forall r,
             header (Index.addCorsHeaders r (request_origin event)) "Access-Control-Allow-Origin"
             = Some (request_origin event)
             /\ header (Index.addCorsHeaders r (request_origin event))
                  "Access-Control-Allow-Credentials"
                = Some (if existsb (String.eqb (request_origin event)) Index.allowedOrigins
                        then "true" else "false")
             /\ statusCode (answer (Index.addCorsHeaders r (request_origin event)))
                = statusCode (answer r)
             /\ responseBody (answer (Index.addCorsHeaders r (request_origin event)))
                = responseBody (answer r)
             /\ answerCookies (Index.addCorsHeaders r (request_origin event)) = answerCookies r).
  { intros r. apply (addCorsHeaders_headers r (request_origin event) Ho). }
  subst a is_logout handled. unfold Index.handler_v2.
  fold (request_origin event). fold (request_path rawPath event). cbv zeta.
  destruct httpMethod as [method|].
  - destruct (String.eqb method "GET") eqn:Hget.
    + apply String.eqb_eq in Hget. subst method. cbn [String.eqb Ascii.eqb Bool.eqb andb].
      split; [discriminate|]. intros _.
      destruct (handleGetRequest event) as [response|e]; cbn [bind catch].
      * destruct (Hcors response) as (H1 & H2 & H3 & H4 & H5). repeat split; assumption.
      * destruct (Hcors {| answer := Index.failure markup (request_path rawPath event);
                           answerCookies := None |}) as (H1 & H2 & H3 & H4 & H5).
        repeat split; assumption.
    + destruct (String.eqb method "POST") eqn:Hpost; cbn [andb].
      * replace (Js.endsWith (request_path rawPath event) "/logout"
                 || String.eqb (request_path rawPath event) "/logout")
          with (Js.endsWith (request_path rawPath event) "/logout").
        2:{ destruct (String.eqb_spec (request_path rawPath event) "/logout") as [->|];
              [reflexivity | rewrite orb_false_r; reflexivity]. }
        destruct (Js.endsWith (request_path rawPath event) "/logout").
        -- split; [reflexivity | discriminate].
        -- split; [discriminate|]. intros _.
           destruct (handlePostRequest event) as [response|e]; cbn [bind catch].
           ++ destruct (Hcors response) as (H1 & H2 & H3 & H4 & H5). repeat split; assumption.
           ++ destruct (Hcors {| answer := Index.failure markup (request_path rawPath event);
                                 answerCookies := None |}) as (H1 & H2 & H3 & H4 & H5).
              repeat split; assumption.
      * split; [discriminate|]. intros _. cbn [catch].
        destruct (Hcors {| answer := Index.method_not_allowed; answerCookies := None |})
          as (H1 & H2 & H3 & H4 & H5).
        repeat split; assumption.
  - split; [discriminate|]. intros _. cbn [catch].
    destruct (Hcors {| answer := Index.method_not_allowed; answerCookies := None |})
      as (H1 & H2 & H3 & H4 & H5).
    repeat split; assumption.
Qed.

Lemma entry_point_answers_witness :
  let get (e : Event) : Completion Answer := Throw Error in
  let post (e : Event) : Completion Answer :=
    Return {| answer := UploadUrl.error_answer "401" "Authentication required";
              answerCookies := None |} in
  Index.handler_v2 Visit.markup get post (Some "POST") None
    {| path := Some "/instance/I1/logout"; pathInstanceID := Some "I1/logout";
       queryStringParameters := None; headers := None; cookies := None; body := None |}
  = Index.logout
  /\ header (Index.handler_v2 Visit.markup get post (Some "GET") None Visit.signed_in)
       "Access-Control-Allow-Origin" = Some "https://elsewhere.test".
Proof.
  cbv zeta. split.
  - apply (proj1 (entry_point_answers Visit.markup (fun _ => Throw Error)
                    (fun _ => Return {| answer := UploadUrl.error_answer "401" "Authentication required";
                                        answerCookies := None |})
                    (Some "POST") None
                    {| path := Some "/instance/I1/logout"; pathInstanceID := Some "I1/logout";
                       queryStringParameters := None; headers := None; cookies := None;
                       body := None |})).
    reflexivity.
  - apply (proj2 (entry_point_answers Visit.markup (fun _ => Throw Error)
                    (fun _ => Return {| answer := UploadUrl.error_answer "401" "Authentication required";
                                        answerCookies := None |})
                    (Some "GET") None Visit.signed_in)).
    reflexivity.
Defined.

(** ** The last submission inside the page *)

Lemma includes_char (c : ascii) (s : list ascii) :
  Js.includes_chars s [c] = false <-> Forall (fun x => Ascii.eqb x c = false) s.
Proof.
  induction s as [|x rest IH].
  - split; [constructor | reflexivity].
  - cbn [Js.includes_chars str string_of_list_ascii String.prefix].
    destruct (ascii_dec c x) as [<-|Hne].
    + split; [intros H; destruct (string_of_list_ascii rest); discriminate H|].
      intros H. inversion H as [|? ? Hc _]. rewrite Ascii.eqb_refl in Hc. discriminate Hc.
    + cbn [orb]. rewrite IH. split.
      * intros H. constructor; [|exact H]. apply Ascii.eqb_neq. congruence.
      * intros H. inversion H. assumption.
Qed.

Lemma replace_char_removes (c : ascii) (text : string) (s : list ascii) :
  Forall (fun x => Ascii.eqb x c = false) (chars text) ->
  Forall (fun x => Ascii.eqb x c = false) (Html.replace_char c text s).
Proof.
  intros Ht. unfold Html.replace_char. induction s as [|x rest IH]; [constructor|].
  cbn [flat_map]. apply Forall_app. split; [|exact IH].
  destruct (Ascii.eqb x c) eqn:E; [exact Ht | repeat constructor; exact E].
Qed.

Lemma replace_char_keeps (c d : ascii) (text : string) (s : list ascii) :
  Forall (fun x => Ascii.eqb x d = false) (chars text) ->
  Forall (fun x => Ascii.eqb x d = false) s ->
  Forall (fun x => Ascii.eqb x d = false) (Html.replace_char c text s).
Proof.
  intros Ht Hs. unfold Html.replace_char. induction Hs as [|x rest Hx Hrest IH]; [constructor|].
  cbn [flat_map]. apply Forall_app. split; [|exact IH].
  destruct (Ascii.eqb x c); [exact Ht | repeat constructor; exact Hx].
Qed.

Lemma safe_harmless (postEvent : json) : forallb harmless (Html.safe postEvent) = true.
Proof.
  assert (H : forall d, In d ["<"%char; ">"%char; "&"%char; "'"%char; dquote] ->
                        Forall (fun x => Ascii.eqb x d = false) (Html.safe postEvent)).
  { intros d Hd. unfold Html.safe. cbn [In] in Hd.
    destruct Hd as [<-|[<-|[<-|[<-|[<-|[]]]]]];
      repeat first [ apply replace_char_removes; repeat constructor
                   | apply replace_char_keeps; [repeat constructor|] ]. }
  apply forallb_forall. intros x Hx. unfold harmless. apply negb_true_iff.
  destruct (existsb (Ascii.eqb x) ["<"%char; ">"%char; "&"%char; "'"%char; dquote]) eqn:E;
    [|reflexivity].
  apply existsb_exists in E as (d & Hd & Heq). specialize (H d Hd).
  rewrite List.Forall_forall in H. rewrite (H x Hx) in Heq. discriminate Heq.
Qed.

Lemma prefix_head_mismatch (x c : ascii) (p s : list ascii) :
  Ascii.eqb c x = false -> String.prefix (str (x :: p)) (str (c :: s)) = false.
Proof.
  intros H. unfold str. simpl. destruct (ascii_dec x c) as [->|]; [|reflexivity].
  rewrite Ascii.eqb_refl in H. discriminate H.
Qed.

Lemma replace_from_plain (template before s : list ascii) :
  Forall (fun x => Ascii.eqb x "{"%char = false) s ->
  Html.replace_from (chars placeholder) template before s 0 = s.
Proof.
  intros H. revert before. induction H as [|c rest Hc Hrest IH]; intros before; [reflexivity|].
  cbn [Html.replace_from].
  replace (String.prefix (str (chars placeholder)) (str (c :: rest))) with false.
  - rewrite IH. reflexivity.
  - symmetry. apply (prefix_head_mismatch "{"%char c (chars "{postEvent}}") rest Hc).
Qed.

Lemma replace_from_skip (pattern template before x rest : list ascii) :
  Html.replace_from pattern template before (x ++ rest) (length x)
  = Html.replace_from pattern template (before ++ x) rest 0.
Proof.
  revert before. induction x as [|c x IH]; intros before.
  - rewrite app_nil_r. reflexivity.
  - cbn [app length Html.replace_from]. rewrite IH, <- app_assoc. reflexivity.
Qed.

Lemma replace_from_one (template before a b : list ascii) :
  Forall (fun x => Ascii.eqb x "{"%char = false) a ->
  Forall (fun x => Ascii.eqb x "{"%char = false) b ->
  Html.replace_from (chars placeholder) template before (a ++ chars placeholder ++ b) 0
  = a ++ Html.substitution template (chars placeholder) (before ++ a) b ++ b.
Proof.
  intros Ha Hb. revert before. induction Ha as [|c a Hc Ha IH]; intros before.
  - rewrite app_nil_r. cbn [app].
    change (chars placeholder ++ b) with ("{"%char :: chars "{postEvent}}" ++ b).
    cbn [Html.replace_from].
    replace (String.prefix (str (chars placeholder)) (str ("{"%char :: chars "{postEvent}}" ++ b)))
      with true.
    + change (skipn (length (chars placeholder)) ("{"%char :: chars "{postEvent}}" ++ b)) with b.
      change (length (chars placeholder) - 1)%nat with (length (chars "{postEvent}}")).
      rewrite replace_from_skip, (replace_from_plain _ _ b Hb). reflexivity.
    + symmetry. change ("{"%char :: chars "{postEvent}}" ++ b) with (chars placeholder ++ b).
      rewrite str_app. apply prefix_append.
  - cbn [app Html.replace_from].
    replace (String.prefix (str (chars placeholder)) (str (c :: a ++ chars placeholder ++ b)))
      with false.
    + rewrite IH, <- app_assoc. reflexivity.
    + symmetry. apply (prefix_head_mismatch "{"%char c (chars "{postEvent}}") _ Hc).
Qed.

Lemma substitution_plain (template matched before after : list ascii) :
  Forall (fun x => Ascii.eqb x "$"%char = false) template ->
  Html.substitution template matched before after = template.
Proof.
  intros H. induction H as [|c rest Hc Hrest IH]; [reflexivity|].
  cbn [Html.substitution]. rewrite Hc, IH. reflexivity.
Qed.

(** X23.  [replaceHtmlWithEvent] writes the last submission into the page
    as its JSON text in which [<], [>], [&], ['] and the double quote are
    replaced by their escapes, so that the text written holds none of these
    five characters, whatever was submitted.  A page without [{] is returned
    as it is.  In a page with one placeholder and no other [{], the
    placeholder is replaced by that text read as a replacement pattern: a
    text without [$] is written as it is, while [$$] in the submission is
    written as one [$] and [$] followed by a backquote as the part of
    the page before the placeholder. *)
Theorem submission_is_escaped (postEvent : json) :
  forallb harmless (Html.safe postEvent) = true
  /\ (forall html, Js.includes html "{" = false -> Html.replaceHtmlWithEvent html postEvent = html)
  /\ (forall a b, Js.includes a "{" = false -> Js.includes b "{" = false ->
        Html.replaceHtmlWithEvent (a ++ placeholder ++ b) postEvent
        = (a ++ str (Html.substitution (Html.safe postEvent) (chars placeholder) (chars a) (chars b))
             ++ b)%string
        /\ (Forall (fun c => Ascii.eqb c "$"%char = false) (Html.safe postEvent) ->
            Html.replaceHtmlWithEvent (a ++ placeholder ++ b) postEvent
            = (a ++ str (Html.safe postEvent) ++ b)%string)).
Proof.
  split; [apply safe_harmless|]. split.
  - intros html H.
    change (Html.replaceHtmlWithEvent html postEvent)
      with (str (Html.replace_from (chars placeholder) (Html.safe postEvent) [] (chars html) 0)).
    rewrite replace_from_plain by (apply includes_char; exact H). apply str_chars.
  - intros a b Ha Hb.
    assert (Hone : Html.replaceHtmlWithEvent (a ++ placeholder ++ b) postEvent
                   = (a ++ str (Html.substitution (Html.safe postEvent) (chars placeholder)
                                  (chars a) (chars b)) ++ b)%string).
    { change (Html.replaceHtmlWithEvent (a ++ placeholder ++ b) postEvent)
        with (str (Html.replace_from (chars placeholder) (Html.safe postEvent) []
                     (chars (a ++ placeholder ++ b)) 0)).
      rewrite !chars_append.
      rewrite (replace_from_one (Html.safe postEvent) [] (chars a) (chars b))
        by (apply includes_char; assumption).
      cbn [app]. rewrite !str_app, !str_chars. reflexivity. }
    split; [exact Hone|].
    intros Hplain. rewrite Hone, (substitution_plain _ _ _ _ Hplain). reflexivity.
Qed.

Lemma submission_is_escaped_witness :
  Html.replaceHtmlWithEvent "<p>{{postEvent}}</p>" (JObj [("note", JStr "a<b & c")])
  = "<p>{\u0022note\u0022:\u0022a\u003cb \u0026 c\u0022}</p>"
  /\ Html.replaceHtmlWithEvent "<p>{{postEvent}}</p>" (JStr "$$5")
     = "<p>\u0022$5\u0022</p>".
Proof.
  split.
  - apply (proj2 (proj2 (proj2 (submission_is_escaped (JObj [("note", JStr "a<b & c")])))
                    "<p>" "</p>" eq_refl eq_refl)).
    vm_compute. repeat constructor.
  - apply (proj1 (proj2 (proj2 (submission_is_escaped (JStr "$$5"))) "<p>" "</p>" eq_refl eq_refl)).
Defined.

(** ** Events of the HTTP API *)

Lemma standard_sextet (v : Z) :
  is_sextet v ->
  Base64.unbase64 (Base64.char_of_sextet v) = Some v
  /\ Ascii.eqb (Base64.char_of_sextet v) "="%char = false.
Proof.
  intros Hv.
  assert (H : forallb (fun v => match Base64.unbase64 (Base64.char_of_sextet v) with
                                | Some w => w =? v
                                | None => false
                                end && negb (Ascii.eqb (Base64.char_of_sextet v) "="%char))
                (map Z.of_nat (seq 0 64)) = true) by (vm_compute; reflexivity).
  rewrite forallb_forall in H.
  assert (Hin : In v (map Z.of_nat (seq 0 64))).
  { apply in_map_iff. exists (Z.to_nat v). unfold is_sextet in Hv. split; [lia|]. apply in_seq. lia. }
  specialize (H v Hin). apply andb_prop in H as [H1 H2]. apply negb_true_iff in H2.
  split; [|exact H2].
  destruct (Base64.unbase64 (Base64.char_of_sextet v)) as [w|]; [|discriminate].
  apply Z.eqb_eq in H1. subst w. reflexivity.
Qed.

Lemma sextets_standard (l : list Z) (k : nat) :
  Forall is_sextet l ->
  Base64.sextets (str (map Base64.char_of_sextet l ++ repeat "="%char k)) = l.
Proof.
  induction 1 as [|v l Hv Hl IH].
  - destruct k; reflexivity.
  - destruct (standard_sextet v Hv) as [Hu Hne].
    cbn [map app str string_of_list_ascii Base64.sextets].
    fold (str (map Base64.char_of_sextet l ++ repeat "="%char k)).
    rewrite Hne, Hu, IH. reflexivity.
Qed.

Lemma decode_encode (bs : Buffer) : Base64.decode (Base64.encode bs) = bs.
Proof.
  unfold Base64.decode. rewrite <- (str_chars (Base64.encode bs)), encode_chars.
  rewrite sextets_standard by apply all_sextets_range. apply bytes_of_all_sextets.
Qed.

Lemma encode_nonempty (bs : Buffer) : bs <> [] -> Base64.encode bs <> "".
Proof.
  intros H E. apply (f_equal chars) in E. rewrite encode_chars in E.
  destruct bs as [|a [|b [|c rest]]]; [congruence | discriminate E | discriminate E |].
  cbn [all_sextets Base64.sextets3 map app] in E. discriminate E.
Qed.

Lemma normalizeHeaders_onto (headers acc : list (string * string)) (m : gmap string string) :
  (forall name, Js.toLowerCase name = name -> lookup_string acc name = m !! name) ->
  forall name, Js.toLowerCase name = name ->
    lookup_string
      (fold_left (fun normalized kv =>
                    Index.assign (Index.assign normalized (Js.toLowerCase (fst kv)) (snd kv))
                      (fst kv) (snd kv))
                 headers acc) name
    = fold_left (fun a kv => <[Js.toLowerCase (fst kv) := snd kv]> a) headers m !! name.
Proof.
  revert acc m. induction headers as [|[k v] rest IH]; intros acc m Hacc name Hname.
  - apply Hacc. exact Hname.
  - cbn [fold_left fst snd]. apply IH; [|exact Hname].
    intros name' Hname'. destruct (String.eqb_spec (Js.toLowerCase k) name') as [<-|Hne].
    + rewrite lookup_insert_eq. destruct (String.eqb_spec k (Js.toLowerCase k)) as [<-|Hk].
      * apply lookup_assign_same.
      * rewrite lookup_assign_other by exact Hk. apply lookup_assign_same.
    + rewrite lookup_insert_ne by exact Hne.
      assert (Hk : k <> name') by (intros ->; apply Hne; exact Hname').
      rewrite lookup_assign_other by exact Hk. rewrite lookup_assign_other by exact Hne.
      apply Hacc. exact Hname'.
Qed.

Lemma normalizeHeaders_lookup (headers : option (list (string * string))) (name : string) :
  Js.toLowerCase name = name ->
  lookup_string (Index.normalizeHeaders (default [] headers)) name = Jwt.normalize headers !! name.
Proof.
  intros Hname. unfold Index.normalizeHeaders, Jwt.normalize.
  apply normalizeHeaders_onto; [|exact Hname]. intros name' _. rewrite lookup_empty. reflexivity.
Qed.

Lemma body_or_empty (b : option string) : default "" (first_given b (Some "")) = default "" b.
Proof.
  unfold first_given, Token.given, Token.missing_or_empty. destruct b as [s|]; [|reflexivity].
  destruct (String.eqb_spec s "") as [->|]; reflexivity.
Qed.

(** X24.  What [normalizeEvent] makes of the event.  An event without
    [requestContext.http.method] is returned as it is.  An event of the
    HTTP API gets that method as its [httpMethod]; its headers can all be
    read under their lower-case names, the last header of a name in any
    letter case winning, exactly as the CSRF check normalises them; a body
    that the API encoded in base64 is the original text again; and a path
    parameter [instance/ID] names the instance [ID], like the parameter [ID]
    itself.  The cookies are passed on unchanged. *)
Theorem http_api_events_are_normalised (event : LambdaEvent) :
  (http_method event = None -> Index.normalizeEvent event = event)
  /\ (forall method, http_method event = Some method ->
      let normalized := Index.normalizeEvent event in
      let parameter := first_given (proxy event) (pathInstanceID (request event)) in
      httpMethod normalized = Some method
      /\ (forall name, Js.toLowerCase name = name ->
            field (headers (request normalized)) name
            = Jwt.normalize (headers (request event)) !! name)
      /\ (forall text, text <> "" -> isBase64Encoded event = true ->
            body (request event) = Some (Base64.encode (Buffer_from_utf8 text)) ->
            body (request normalized) = Some text)
      /\ (isBase64Encoded event = false ->
          body (request normalized) = Some (default "" (body (request event))))
      /\ (forall id, id <> "" ->
            parameter = Some ("instance/" ++ id)%string \/
            (parameter = Some id /\ Js.startsWith id "instance/" = false) ->
            pathInstanceID (request normalized) = Some id)
      /\ cookies (request normalized) = cookies (request event)).
Proof.
  split.
  - intros H. unfold Index.normalizeEvent. rewrite H. reflexivity.
  - intros method Hm normalized parameter. subst normalized.
    unfold Index.normalizeEvent. rewrite Hm. cbv zeta. cbn [httpMethod request headers body
      pathInstanceID cookies field].
    split; [reflexivity|]. split; [|split; [|split; [|split; [|reflexivity]]]].
    + intros name Hname. apply normalizeHeaders_lookup. exact Hname.
    + intros text Htext H64 Hbody. rewrite H64, Hbody.
      assert (Hne : Base64.encode (Buffer_from_utf8 text) <> "").
      { apply encode_nonempty. destruct text; [congruence | discriminate]. }
      rewrite body_or_empty. change (default "" (Some ?x)) with x.
      apply String.eqb_neq in Hne. rewrite Hne. cbn [andb negb].
      rewrite decode_encode, utf8_roundtrip. reflexivity.
    + intros H64. rewrite H64. cbn [andb]. rewrite body_or_empty. reflexivity.
    + intros id Hid Hparam. fold parameter.
      destruct Hparam as [Hp|[Hp Hs]]; rewrite Hp.
      * rewrite (given_append "instance/" id Hid). change (default "" (Some ?x)) with x.
        unfold Js.startsWith. rewrite prefix_append. cbn [andb].
        rewrite chars_append. change (skipn 9 (chars "instance/" ++ chars id)) with (chars id).
        rewrite str_chars, (given_nonempty id Hid). reflexivity.
      * rewrite (given_nonempty id Hid). change (default "" (Some ?x)) with x.
        rewrite Hs. cbn [andb]. rewrite (given_nonempty id Hid). reflexivity.
Qed.

Lemma http_api_events_are_normalised_witness :
  let text := Json.stringify (JObj [("password", JStr "open sesame")]) in
  let event :=
    {| http_method := Some "POST"; http_path := Some "/instance/I1/auth"; rawPath := None;
       httpMethod := None; proxy := Some "instance/I1/auth"; isBase64Encoded := true;
       request :=
         {| path := None; pathInstanceID := None; queryStringParameters := None;
            headers := Some [("COOKIE", "a=1"); ("Origin", "https://elsewhere.test")];
            cookies := None;
            body := Some (Base64.encode (Buffer_from_utf8 text)) |} |} in
  body (request (Index.normalizeEvent event)) = Some text
  /\ pathInstanceID (request (Index.normalizeEvent event)) = Some "I1/auth"
  /\ field (headers (request (Index.normalizeEvent event))) "cookie" = Some "a=1".
Proof.
  cbv zeta.
  set (text := Json.stringify (JObj [("password", JStr "open sesame")])).
  set (event := {| http_method := Some "POST"; http_path := Some "/instance/I1/auth"; rawPath := None;
                   httpMethod := None; proxy := Some "instance/I1/auth"; isBase64Encoded := true;
                   request :=
                     {| path := None; pathInstanceID := None; queryStringParameters := None;
                        headers := Some [("COOKIE", "a=1"); ("Origin", "https://elsewhere.test")];
                        cookies := None;
                        body := Some (Base64.encode (Buffer_from_utf8 text)) |} |}).
  destruct (proj2 (http_api_events_are_normalised event) "POST" eq_refl)
    as (_ & Hheaders & Hbody & _ & Hid & _).
  split; [|split].
  - apply (Hbody text); [discriminate | reflexivity | reflexivity].
  - apply (Hid "I1/auth"); [discriminate | left; reflexivity].
  - rewrite (Hheaders "cookie" eq_refl). vm_compute. reflexivity.
Defined.

(** ** The entry point of the first revision *)

Section EntryFacts.

Variable markup : Page -> string.
Variable resolveInstanceId : option string -> Completion string.
Variable loadInstance : string -> Completion (option Instance).
Variable loadWebhook : string -> Completion (option Webhook).
Variable getClientSecret : string -> Completion string.
Variable now : Z.
Variable gate : Instance -> Webhook -> Event -> Completion GateResult.
Variable uploadUrl uploadComplete : Event -> Completion Response.
Variable submit : Instance -> Webhook -> Event -> Completion Response.

Lemma handlePostRequest_submission (event : Event) (instanceID : string) (instance : Instance)
    (webhook : Webhook) :
  is_submission event = true ->
  resolveInstanceId (greedy_id event) = Return instanceID ->
  loadInstance instanceID = Return (Some instance) ->
  loadWebhook (WebhookID instance) = Return (Some webhook) ->
  passwordProtected webhook = true ->
  Post.handlePostRequest markup resolveInstanceId loadInstance loadWebhook getClientSecret now gate
    uploadUrl uploadComplete submit event
  = let! verdict := gate instance webhook event in
    if gate_ok verdict then submit instance webhook event else Return (refused markup).
Proof.
  intros Hs Hr Hi Hw Hp. unfold is_submission in Hs.
  apply andb_prop in Hs as [Hs Hx]. apply andb_prop in Hs as [Hu Hc].
  apply negb_true_iff in Hu, Hc, Hx.
  unfold is_auth_exchange in Hx. rewrite Hu, Hc in Hx. cbn [negb andb] in Hx.
  unfold Post.handlePostRequest. rewrite Hu, Hc. cbv zeta. fold (greedy_id event).
  rewrite Hr. cbn [bind]. rewrite Hi. cbn [bind Post.required]. rewrite Hw. cbn [bind Post.required].
  rewrite Hx, Hp. cbn [andb].
  destruct (gate instance webhook event) as [verdict|e]; [|reflexivity]. cbn [bind].
  destruct (gate_ok verdict); reflexivity.
Qed.

End EntryFacts.

Lemma page_gate_throws (getClientSecret : string -> Completion string) (now : Z)
    (instance : Instance) (webhook : Webhook) (event : Event) (e : JsError) :
  passwordProtected webhook = true ->
  Cookie.getCookieMap (cookie_header event) = Throw e ->
  Password.verifyAccessOrPasswordPage getClientSecret now instance webhook event = Throw e.
Proof.
  intros Hp Hc. rewrite verifyAccessOrPasswordPage_flow by exact Hp. rewrite Hc. reflexivity.
Qed.

Lemma page_gate_nothing (getClientSecret : string -> Completion string) (now : Z)
    (instance : Instance) (webhook : Webhook) (event : Event) :
  passwordProtected webhook = true ->
  Token.given (query_token event) = false -> cookie_header event = None ->
  Password.verifyAccessOrPasswordPage getClientSecret now instance webhook event
  = Return (GateDenied PASSWORD_PAGE_HTML None).
Proof.
  intros Hp Hq Hc. rewrite verifyAccessOrPasswordPage_flow by exact Hp. rewrite Hc.
  change (Cookie.getCookieMap None) with (Return (∅ : gmap string string)). cbn [bind].
  rewrite lookup_empty. unfold Password.password_flow. rewrite Hq. reflexivity.
Qed.

(** X25.  What the entry point of the first revision answers when a
    request for a password-protected page does not get through.  With a
    [Cookie] header that has a malformed escape, a page request and a
    submission are both answered with status 400 and the text of the
    [catch] block, not with the password page.  Without query token and
    without [Cookie] header the page request gets the password page with
    status 200 and the submission gets it with status 401.  A page request
    that does not accept HTML gets status 400 whatever the stores hold, and
    a method other than GET and POST gets status 405. *)
Theorem entry_point_failures
    (markup : Page -> string) (resolveInstanceId : option string -> Completion string)
    (loadInstance : string -> Completion (option Instance))
    (loadWebhook : string -> Completion (option Webhook))
    (Client : Type) (loadClient : string -> Completion Client)
    (getClientSecret : string -> Completion string) (now : Z)
    (render : string -> Instance -> Webhook -> Client -> Completion string)
    (uploadUrl uploadComplete : Event -> Completion Response)
    (submit : Instance -> Webhook -> Event -> Completion Response)
    (event : Event) (instanceID : string) (instance : Instance) (webhook : Webhook) (client : Client) :
  resolveInstanceId (greedy_id event) = Return instanceID ->
  loadInstance instanceID = Return (Some instance) ->
  loadWebhook (WebhookID instance) = Return (Some webhook) ->
  loadClient (ClientID webhook) = Return client ->
  passwordProtected webhook = true ->
  let entry :=
    Index.handler markup
      (Get.handleGetRequest markup resolveInstanceId loadInstance loadWebhook Client loadClient
         getClientSecret now (Password.verifyAccessOrPasswordPage getClientSecret now) render)
      (Post.handlePostRequest markup resolveInstanceId loadInstance loadWebhook getClientSecret now
         (Password.verifyAccessOrPasswordPage getClientSecret now) uploadUrl uploadComplete submit) in
  let failure := Index.failure markup (default "" (path event)) in
  (forall e, Cookie.getCookieMap (cookie_header event) = Throw e ->
     (accepts_html event = true -> entry (Some "GET") event = failure)
     /\ (is_submission event = true -> entry (Some "POST") event = failure))
  /\ (Token.given (query_token event) = false -> cookie_header event = None ->
      (accepts_html event = true ->
       entry (Some "GET") event = page html_headers (markup PASSWORD_PAGE_HTML))
      /\ (is_submission event = true -> entry (Some "POST") event = refused markup))
  /\ (accepts_html event = false -> entry (Some "GET") event = failure)
  /\ (forall method, method <> "GET" -> method <> "POST" ->
        entry (Some method) event = Index.method_not_allowed
        /\ entry None event = Index.method_not_allowed).
Proof.
  intros Hr Hi Hw Hc Hp entry failure. subst entry failure. unfold Index.handler.
  rewrite body_or_empty.
  split; [|split; [|split]].
  - intros e He. split.
    + intros Ha. cbn [String.eqb Ascii.eqb Bool.eqb].
      rewrite (handleGetRequest_gate markup resolveInstanceId loadInstance loadWebhook Client loadClient
                 getClientSecret now _ render event instanceID instance webhook client Ha Hr Hi Hw Hc).
      rewrite (page_gate_throws getClientSecret now instance webhook event e Hp He). reflexivity.
    + intros Hs. cbn [String.eqb Ascii.eqb Bool.eqb].
      rewrite (handlePostRequest_submission markup resolveInstanceId loadInstance loadWebhook
                 getClientSecret now _ uploadUrl uploadComplete submit event instanceID instance webhook
                 Hs Hr Hi Hw Hp).
      rewrite (page_gate_throws getClientSecret now instance webhook event e Hp He). reflexivity.
  - intros Hq Hcookie. split.
    + intros Ha. cbn [String.eqb Ascii.eqb Bool.eqb].
      rewrite (handleGetRequest_gate markup resolveInstanceId loadInstance loadWebhook Client loadClient
                 getClientSecret now _ render event instanceID instance webhook client Ha Hr Hi Hw Hc).
      rewrite (page_gate_nothing getClientSecret now instance webhook event Hp Hq Hcookie). reflexivity.
    + intros Hs. cbn [String.eqb Ascii.eqb Bool.eqb].
      rewrite (handlePostRequest_submission markup resolveInstanceId loadInstance loadWebhook
                 getClientSecret now _ uploadUrl uploadComplete submit event instanceID instance webhook
                 Hs Hr Hi Hw Hp).
      rewrite (page_gate_nothing getClientSecret now instance webhook event Hp Hq Hcookie). reflexivity.
  - intros Ha. cbn [String.eqb Ascii.eqb Bool.eqb]. unfold Get.handleGetRequest.
    unfold accepts_html in Ha. rewrite Ha. reflexivity.
  - intros method Hg Hpost. apply String.eqb_neq in Hg, Hpost. rewrite Hg, Hpost. split; reflexivity.
Qed.

Lemma entry_point_failures_witness :
  let entry :=
    Index.handler Visit.markup
      (Get.handleGetRequest Visit.markup Visit.resolveInstanceId (Scenario.loadInstance (Some (JNum 0)))
         Scenario.loadWebhook unit Visit.loadClient Scenario.getClientSecret 2000
         (Password.verifyAccessOrPasswordPage Scenario.getClientSecret 2000) Visit.render)
      (Post.handlePostRequest Visit.markup Visit.resolveInstanceId
         (Scenario.loadInstance (Some (JNum 0))) Scenario.loadWebhook Scenario.getClientSecret 2000
         (Password.verifyAccessOrPasswordPage Scenario.getClientSecret 2000)
         (fun _ => Throw Error) (fun _ => Throw Error) (fun _ _ _ => Throw Error)) in
  entry (Some "GET") (Visit.request (Some "sid=%zz"))
  = {| statusCode := "400"; responseHeaders := [("Content-Type", "text/html")];
       responseBody := "Internal Server Error" |}
  /\ entry (Some "POST") (Visit.request None) = refused Visit.markup.
Proof.
  cbv zeta.
  pose proof (fun cookie =>
                entry_point_failures Visit.markup Visit.resolveInstanceId
                  (Scenario.loadInstance (Some (JNum 0))) Scenario.loadWebhook unit Visit.loadClient
                  Scenario.getClientSecret 2000 Visit.render
                  (fun _ => Throw Error) (fun _ => Throw Error) (fun _ _ _ => Throw Error)
                  (Visit.request cookie) "I1" (Scenario.instance_at (Some (JNum 0))) Scenario.webhook tt
                  eq_refl eq_refl eq_refl eq_refl eq_refl) as H.
  cbv zeta in H. split.
  - destruct (H (Some "sid=%zz")) as (Hbad & _).
    apply (proj1 (Hbad URIError ltac:(vm_compute; reflexivity))). reflexivity.
  - destruct (H None) as (_ & Hnone & _).
    apply (proj2 (Hnone eq_refl eq_refl)). reflexivity.
Defined.
